(** * Live quiz sessions of gdgc-backend: session manager and socket handlers

    A shallow embedding of [src/socket/sessionManager.js] (the in-memory
    session registry, scoring and leaderboard) and of the command handlers of
    [src/socket/quizSessionHandlers.js], followed by the properties of the
    live-quiz specification.

    Conventions of the embedding.
    - The module-level [activeSessions] Map, the pending [setTimeout] timers
      and the per-socket fields set by the handlers form one [World] value
      that every operation takes and returns.
    - [Date.now()] is an argument [now : Z] (milliseconds).
    - JavaScript numbers holding integers (timestamps, counters, configured
      points, scores) are [Z].  The speed-bonus ratio is computed in binary64
      with Rocq's primitive floats, as the source computes it.
    - A JavaScript [Map] keeps insertion order, which [getLeaderboard]
      observes, so the participant registry is an association list.
    - Room broadcasts and database writes are outputs of the handlers and do
      not change the in-memory state; they are not part of the model.  The
      handlers [session_join] and [question_next] follow the database call
      they await when it resolves; [session_join_db] and [question_next_db]
      take its outcome as a parameter.  A handler runs to completion on the
      in-memory state before the next. *)

From Stdlib Require Import ZArith Floats Sorting.Sorted Sorting.Permutation.
From stdpp Require Import gmap strings list.

Local Open Scope string_scope.
Local Open Scope Z_scope.

(* ===================================================================== *)
(** ** JavaScript values used by the session manager *)
(* ===================================================================== *)

(** [activeSessions.participants] is a JavaScript [Map] keyed by [oderId]:
    [set] on a present key replaces the value in place, on an absent key it
    appends; [values()] lists in insertion order. *)
Section JsMap.
Context {V : Type}.

Fixpoint jsmap_get (k : string) (m : list (string * V)) : option V :=
  match m with
  | [] => None
  | (k', v) :: m' => if decide (k = k') then Some v else jsmap_get k m'
  end.

Fixpoint jsmap_set (k : string) (v : V) (m : list (string * V))
  : list (string * V) :=
  match m with
  | [] => [(k, v)]
  | (k', v') :: m' =>
      if decide (k = k') then (k, v) :: m' else (k', v') :: jsmap_set k v m'
  end.

Definition jsmap_keys (m : list (string * V)) : list string := m.*1.
Definition jsmap_values (m : list (string * V)) : list V := m.*2.
Definition jsmap_size (m : list (string * V)) : nat := length m.
Definition jsmap_forEach (f : V -> V) (m : list (string * V))
  : list (string * V) := prod_map id f <$> m.
End JsMap.

(** The [selectedOption] of an [answer:submit] payload is whatever JSON the
    client sent: an option id, an array of option ids, or null. *)
Inductive Selection :=
| SelString (s : string)
| SelArray (l : list string)
| SelNull.

(** [Array.prototype.includes] on an array of strings: SameValueZero, so a
    string matches by value and an array or null never matches. *)
Definition includes (l : list string) (v : Selection) : bool :=
  match v with
  | SelString s => bool_decide (s ∈ l)
  | SelArray _ => false
  | SelNull => false
  end.

(** [x || d] on a number that may be absent: 0 and undefined are falsy. *)
Definition num_or (x : option Z) (d : Z) : Z :=
  match x with
  | Some v => if v =? 0 then d else v
  | None => d
  end.

(** [x || false] and [x ?? true] on a boolean that may be absent. *)
Definition bool_or_false (x : option bool) : bool := default false x.
Definition bool_nullish_true (x : option bool) : bool := default true x.

(** *** binary64 arithmetic of the speed bonus *)

(** The double nearest to an integer (exact below 2^53). *)
Definition of_Z (z : Z) : float := SF2Prim (binary_normalize prec emax z 0 false).

(** [Math.round]: the integer nearest to a finite double, ties towards
    +infinity, i.e. floor (x + 1/2) computed exactly.  On NaN and the
    infinities JavaScript returns the argument; the integer-typed model
    returns 0 there, which arises only for a zero time limit or values beyond
    the double range. *)
Definition Math_round (x : float) : Z :=
  match Prim2SF x with
  | S754_finite s m e =>
      let v := if s then Z.neg m else Z.pos m in
      if 0 <=? e then v * 2 ^ e else (2 * v + 2 ^ (- e)) `div` 2 ^ (1 - e)
  | _ => 0
  end.

(* ===================================================================== *)
(** ** Data model *)
(* ===================================================================== *)

Inductive QuestionType := single_choice | multiple_choice.

Record QOption := { option_id : string; text : string }.

(** A question of the quiz snapshot ([models/Quiz.js], questionSchema). *)
Record Question := {
  question_id : string;
  qtype : QuestionType;
  question_text : string;
  options : list QOption;
  correct_answers : list string;
  marks : Z;
  explanation : option string
}.

Inductive Status := lobby | in_progress | paused | completed | interrupted.

#[global] Instance Status_eq_dec : EqDecision Status.
Proof. solve_decision. Defined.

Record Participant := {
  oderId : string;
  userName : string;
  userPhoto : option string;
  socketId : string;
  score : Z;
  correctAnswers : Z;
  totalAnswered : Z;
  currentAnswer : Selection;
  hasAnsweredCurrent : bool;
  isConnected : bool;
  joinedAt : Z;
  lastDisconnectedAt : option Z
}.

Record Session := {
  sessionCode : string;
  sessionId : string;
  quizId : string;
  quizTitle : string;
  adminId : string;
  adminSocketId : string;
  questions : list Question;
  currentQuestionIndex : Z;
  questionStartTime : option Z;
  timePerQuestion : Z;
  status : Status;
  basePointsPerQuestion : Z;
  speedBonusMax : Z;
  allowLateJoin : bool;
  showLeaderboardAfterEach : bool;
  participants : list (string * Participant);
  questionTimer : option nat;
  adminDisconnectTimer : option nat;
  createdAt : Z
}.

(** What a pending [setTimeout] will run when it fires. *)
Inductive TimerAction :=
| QuestionEnd (code : string)
| QuizComplete (code : string)
| RemoveSession (code : string).

(** The fields the handlers store on a socket object. *)
Record SocketFields := { sock_sessionCode : string; sock_oderId : string }.

Record World := {
  activeSessions : gmap string Session;
  timers : gmap nat TimerAction;
  nextTimer : nat;
  sockets : gmap string SocketFields
}.

Definition with_sessions (w : World) (m : gmap string Session) : World :=
  {| activeSessions := m; timers := timers w; nextTimer := nextTimer w;
     sockets := sockets w |}.

Definition with_timers (w : World) (t : gmap nat TimerAction) : World :=
  {| activeSessions := activeSessions w; timers := t; nextTimer := nextTimer w;
     sockets := sockets w |}.

Definition put_session (code : string) (s : Session) (w : World) : World :=
  with_sessions w (<[code := s]> (activeSessions w)).

(** [setTimeout(callback, ms)]: a fresh handle; the delay is not modelled, a
    pending timer may fire at any later moment. *)
Definition setTimeout (act : TimerAction) (w : World) : nat * World :=
  (nextTimer w,
   {| activeSessions := activeSessions w;
      timers := <[nextTimer w := act]> (timers w);
      nextTimer := S (nextTimer w);
      sockets := sockets w |}).

(** [clearTimeout(handle)]: no effect on a handle that already fired. *)
Definition clearTimeout (t : nat) (w : World) : World :=
  with_timers w (delete t (timers w)).

Definition clearTimeout_opt (t : option nat) (w : World) : World :=
  match t with
  | Some h => clearTimeout h w
  | None => w
  end.

(** Field updates of a session object (the source assigns to the fields of
    the object held by [activeSessions]). *)
Definition set_participants (s : Session) (ps : list (string * Participant))
  : Session :=
  {| sessionCode := sessionCode s; sessionId := sessionId s; quizId := quizId s;
     quizTitle := quizTitle s; adminId := adminId s;
     adminSocketId := adminSocketId s; questions := questions s;
     currentQuestionIndex := currentQuestionIndex s;
     questionStartTime := questionStartTime s;
     timePerQuestion := timePerQuestion s; status := status s;
     basePointsPerQuestion := basePointsPerQuestion s;
     speedBonusMax := speedBonusMax s; allowLateJoin := allowLateJoin s;
     showLeaderboardAfterEach := showLeaderboardAfterEach s;
     participants := ps; questionTimer := questionTimer s;
     adminDisconnectTimer := adminDisconnectTimer s; createdAt := createdAt s |}.

Definition set_status (s : Session) (st : Status) : Session :=
  {| sessionCode := sessionCode s; sessionId := sessionId s; quizId := quizId s;
     quizTitle := quizTitle s; adminId := adminId s;
     adminSocketId := adminSocketId s; questions := questions s;
     currentQuestionIndex := currentQuestionIndex s;
     questionStartTime := questionStartTime s;
     timePerQuestion := timePerQuestion s; status := st;
     basePointsPerQuestion := basePointsPerQuestion s;
     speedBonusMax := speedBonusMax s; allowLateJoin := allowLateJoin s;
     showLeaderboardAfterEach := showLeaderboardAfterEach s;
     participants := participants s; questionTimer := questionTimer s;
     adminDisconnectTimer := adminDisconnectTimer s; createdAt := createdAt s |}.

Definition set_questionTimer (s : Session) (t : option nat) : Session :=
  {| sessionCode := sessionCode s; sessionId := sessionId s; quizId := quizId s;
     quizTitle := quizTitle s; adminId := adminId s;
     adminSocketId := adminSocketId s; questions := questions s;
     currentQuestionIndex := currentQuestionIndex s;
     questionStartTime := questionStartTime s;
     timePerQuestion := timePerQuestion s; status := status s;
     basePointsPerQuestion := basePointsPerQuestion s;
     speedBonusMax := speedBonusMax s; allowLateJoin := allowLateJoin s;
     showLeaderboardAfterEach := showLeaderboardAfterEach s;
     participants := participants s; questionTimer := t;
     adminDisconnectTimer := adminDisconnectTimer s; createdAt := createdAt s |}.

Definition set_question (s : Session) (idx : Z) (start : option Z) : Session :=
  {| sessionCode := sessionCode s; sessionId := sessionId s; quizId := quizId s;
     quizTitle := quizTitle s; adminId := adminId s;
     adminSocketId := adminSocketId s; questions := questions s;
     currentQuestionIndex := idx; questionStartTime := start;
     timePerQuestion := timePerQuestion s; status := status s;
     basePointsPerQuestion := basePointsPerQuestion s;
     speedBonusMax := speedBonusMax s; allowLateJoin := allowLateJoin s;
     showLeaderboardAfterEach := showLeaderboardAfterEach s;
     participants := participants s; questionTimer := questionTimer s;
     adminDisconnectTimer := adminDisconnectTimer s; createdAt := createdAt s |}.

(** [session.questions[session.currentQuestionIndex]]: undefined outside
    the array, in particular at index -1 (the lobby). *)
Definition currentQuestion (s : Session) : option Question :=
  if currentQuestionIndex s <? 0 then None
  else questions s !! Z.to_nat (currentQuestionIndex s).

(** [questions.length] as a number. *)
Definition questionCount (s : Session) : Z := Z.of_nat (length (questions s)).

(* ===================================================================== *)
(** ** sessionManager.js *)
(* ===================================================================== *)

(** A thrown [Error] or a returned value. *)
Inductive Outcome (A : Type) :=
| Returns (a : A)
| Throws (msg : string).
Arguments Returns {A} a.
Arguments Throws {A} msg.

Section GenerateCode.
(** [draw i] is the code the i-th call of [generateSessionCode] returns
    (six characters drawn with [Math.random]). *)
Variable draw : nat -> string.

(** The do-while loop of [generateUniqueSessionCode], [attempts] draws
    made so far and [left] draws still allowed. *)
Fixpoint generateUniqueSessionCode_loop (attempts left : nat) (w : World)
  : Outcome string :=
  match left with
  | O => Throws "Failed to generate unique session code"
  | S left' =>
      let code := draw attempts in
      if decide (is_Some (activeSessions w !! code))
      then generateUniqueSessionCode_loop (S attempts) left' w
      else Returns code
  end.

(** At most 100 codes are tried; the 101st draw throws. *)
Definition generateUniqueSessionCode (w : World) : Outcome string :=
  generateUniqueSessionCode_loop 0 100 w.
End GenerateCode.

Record SessionData := {
  sd_sessionId : string;
  sd_quizId : string;
  sd_quizTitle : string;
  sd_adminId : string;
  sd_adminSocketId : string;
  sd_questions : list Question;
  sd_timePerQuestion : option Z;
  sd_basePointsPerQuestion : option Z;
  sd_speedBonusMax : option Z;
  sd_allowLateJoin : option bool;
  sd_showLeaderboardAfterEach : option bool
}.

Definition createSession (now : Z) (code : string) (sd : SessionData)
  (w : World) : Session * World :=
  let session :=
    {| sessionCode := code;
       sessionId := sd_sessionId sd;
       quizId := sd_quizId sd;
       quizTitle := sd_quizTitle sd;
       adminId := sd_adminId sd;
       adminSocketId := sd_adminSocketId sd;
       questions := sd_questions sd;
       currentQuestionIndex := -1;
       questionStartTime := None;
       timePerQuestion := num_or (sd_timePerQuestion sd) 30;
       status := lobby;
       basePointsPerQuestion := num_or (sd_basePointsPerQuestion sd) 100;
       speedBonusMax := num_or (sd_speedBonusMax sd) 50;
       allowLateJoin := bool_or_false (sd_allowLateJoin sd);
       showLeaderboardAfterEach := bool_nullish_true (sd_showLeaderboardAfterEach sd);
       participants := [];
       questionTimer := None;
       adminDisconnectTimer := None;
       createdAt := now |} in
  (session, put_session code session w).

Definition getSession (code : string) (w : World) : option Session :=
  activeSessions w !! code.

Definition sessionExists (code : string) (w : World) : bool :=
  bool_decide (is_Some (activeSessions w !! code)).

Record ParticipantData := {
  pd_oderId : string;
  pd_userName : string;
  pd_userPhoto : option string;
  pd_socketId : string
}.

(** [participantData.userPhoto || null]. *)
Definition photo_or_null (p : option string) : option string :=
  match p with
  | Some s => if decide (s = "") then None else Some s
  | None => None
  end.

Definition newParticipant (now : Z) (pd : ParticipantData) : Participant :=
  {| oderId := pd_oderId pd;
     userName := pd_userName pd;
     userPhoto := photo_or_null (pd_userPhoto pd);
     socketId := pd_socketId pd;
     score := 0;
     correctAnswers := 0;
     totalAnswered := 0;
     currentAnswer := SelNull;
     hasAnsweredCurrent := false;
     isConnected := true;
     joinedAt := now;
     lastDisconnectedAt := None |}.

Definition addParticipant (now : Z) (code : string) (pd : ParticipantData)
  (w : World) : Outcome Participant * World :=
  match activeSessions w !! code with
  | None => (Throws "Session not found", w)
  | Some session =>
      let participant := newParticipant now pd in
      (Returns participant,
       put_session code
         (set_participants session
            (jsmap_set (pd_oderId pd) participant (participants session))) w)
  end.

Definition getParticipant (code oid : string) (w : World) : option Participant :=
  match activeSessions w !! code with
  | None => None
  | Some session => jsmap_get oid (participants session)
  end.

Definition getParticipants (code : string) (w : World) : list Participant :=
  match activeSessions w !! code with
  | None => []
  | Some session => jsmap_values (participants session)
  end.

Definition getParticipantCount (code : string) (w : World) : nat :=
  match activeSessions w !! code with
  | None => O
  | Some session => jsmap_size (participants session)
  end.

(** The per-question reset [advanceQuestion] applies to every participant. *)
Definition clearAnswer (p : Participant) : Participant :=
  {| oderId := oderId p; userName := userName p; userPhoto := userPhoto p;
     socketId := socketId p; score := score p;
     correctAnswers := correctAnswers p; totalAnswered := totalAnswered p;
     currentAnswer := SelNull; hasAnsweredCurrent := false;
     isConnected := isConnected p; joinedAt := joinedAt p;
     lastDisconnectedAt := lastDisconnectedAt p |}.

Definition advanceQuestion (now : Z) (code : string) (w : World) : World :=
  match activeSessions w !! code with
  | None => w
  | Some session =>
      let w1 := clearTimeout_opt (questionTimer session) w in
      let s1 := set_questionTimer session None in
      let s2 := set_participants s1 (jsmap_forEach clearAnswer (participants s1)) in
      let s3 := set_question s2 (currentQuestionIndex s2 + 1) (Some now) in
      let s4 := if currentQuestionIndex s3 =? 0 then set_status s3 in_progress
                else s3 in
      put_session code s4 w1
  end.

(** A reply object: [{ success: true, ... }] or [{ error: msg }]. *)
Inductive Reply (A : Type) :=
| Success (a : A)
| Error (msg : string).
Arguments Success {A} a.
Arguments Error {A} msg.

Record AnswerOk := {
  isCorrect : bool;
  pointsAwarded : Z;
  speedBonus : Z;
  responseTimeMs : Z;
  newScore : Z
}.

(** [1 - (responseTimeMs / timeLimit)] in binary64. *)
Definition timeRatio (responseMs timeLimit : Z) : float :=
  (1 - of_Z responseMs / of_Z timeLimit)%float.

(** [Math.round(timeRatio * session.speedBonusMax)], negative values set
    to 0. *)
Definition speedBonusFor (responseMs timeLimit bonusMax : Z) : Z :=
  let sb := Math_round (timeRatio responseMs timeLimit * of_Z bonusMax)%float in
  if sb <? 0 then 0 else sb.

(** The participant object after an accepted answer. *)
Definition answered (p : Participant) (sel : Selection) (correct : bool)
  (points : Z) : Participant :=
  {| oderId := oderId p; userName := userName p; userPhoto := userPhoto p;
     socketId := socketId p;
     score := score p + points;
     correctAnswers := if correct then correctAnswers p + 1 else correctAnswers p;
     totalAnswered := totalAnswered p + 1;
     currentAnswer := sel;
     hasAnsweredCurrent := true;
     isConnected := isConnected p; joinedAt := joinedAt p;
     lastDisconnectedAt := lastDisconnectedAt p |}.

Definition recordAnswer (now : Z) (code oid : string) (sel : Selection)
  (w : World) : Reply AnswerOk * World :=
  match activeSessions w !! code with
  | None => (Error "Session not found", w)
  | Some session =>
      match jsmap_get oid (participants session) with
      | None => (Error "Participant not found", w)
      | Some participant =>
          if hasAnsweredCurrent participant
          then (Error "Already answered this question", w)
          else
            (* Date.now() - session.questionStartTime; null counts as 0 *)
            let responseMs := now - default 0 (questionStartTime session) in
            let timeLimit := timePerQuestion session * 1000 in
            if timeLimit + 1000 <? responseMs
            then (Error "Time expired for this question", w)
            else
              match currentQuestion session with
              | None => (Error "Question not found", w)
              | Some question =>
                  let correct := includes (correct_answers question) sel in
                  let bonus :=
                    if correct
                    then speedBonusFor responseMs timeLimit (speedBonusMax session)
                    else 0 in
                  let points :=
                    if correct then basePointsPerQuestion session + bonus else 0 in
                  let participant' := answered participant sel correct points in
                  (Success {| isCorrect := correct;
                              pointsAwarded := points;
                              speedBonus := bonus;
                              responseTimeMs := responseMs;
                              newScore := score participant' |},
                   put_session code
                     (set_participants session
                        (jsmap_set oid participant' (participants session))) w)
              end
      end
  end.

(** [Array.prototype.sort] with a comparator: a stable sort (ECMAScript
    2019), here by insertion.  An element moves behind the elements it
    compares greater than. *)
Section ArraySort.
Context {A : Type}.
Variable cmp : A -> A -> Z.

Fixpoint sort_insert (x : A) (l : list A) : list A :=
  match l with
  | [] => [x]
  | y :: l' => if 0 <? cmp x y then y :: sort_insert x l' else x :: l
  end.

Definition Array_sort (l : list A) : list A := foldr sort_insert [] l.
End ArraySort.

Record LeaderboardEntry := {
  lb_rank : Z;
  lb_oderId : string;
  lb_userName : string;
  lb_userPhoto : option string;
  lb_score : Z;
  lb_correctAnswers : Z;
  lb_totalAnswered : Z
}.

Section Leaderboard.
(** [String.prototype.localeCompare] is the host's collation, not code of
    this repository: a parameter. *)
Variable localeCompare : string -> string -> Z.

(** The comparator given to [participants.sort]. *)
Definition compareParticipants (a b : Participant) : Z :=
  if negb (score b =? score a) then score b - score a
  else if negb (correctAnswers b =? correctAnswers a)
       then correctAnswers b - correctAnswers a
       else localeCompare (userName a) (userName b).

Definition leaderboardEntry (index : nat) (p : Participant) : LeaderboardEntry :=
  {| lb_rank := Z.of_nat index + 1;
     lb_oderId := oderId p;
     lb_userName := userName p;
     lb_userPhoto := userPhoto p;
     lb_score := score p;
     lb_correctAnswers := correctAnswers p;
     lb_totalAnswered := totalAnswered p |}.

(** [limit] is a count (the handlers pass 10, 50 and 100). *)
Definition getLeaderboard (code : string) (limit : nat) (w : World)
  : list LeaderboardEntry :=
  match activeSessions w !! code with
  | None => []
  | Some session =>
      let sorted :=
        Array_sort compareParticipants (jsmap_values (participants session)) in
      imap leaderboardEntry (take limit sorted)
  end.
End Leaderboard.

Definition setQuestionTimer (code : string) (act : TimerAction) (w : World)
  : World :=
  match activeSessions w !! code with
  | None => w
  | Some session =>
      let w1 := clearTimeout_opt (questionTimer session) w in
      let '(t, w2) := setTimeout act w1 in
      put_session code (set_questionTimer session (Some t)) w2
  end.

Definition clearQuestionTimer (code : string) (w : World) : World :=
  match activeSessions w !! code with
  | None => w
  | Some session =>
      match questionTimer session with
      | None => w
      | Some t =>
          put_session code (set_questionTimer session None) (clearTimeout t w)
      end
  end.

(** The participant object after [updateParticipantConnection]; a null or
    empty [socketId] leaves the stored one. *)
Definition connection (now : Z) (p : Participant) (connected : bool)
  (sock : option string) : Participant :=
  {| oderId := oderId p; userName := userName p; userPhoto := userPhoto p;
     socketId := match sock with
                 | Some id => if decide (id = "") then socketId p else id
                 | None => socketId p
                 end;
     score := score p; correctAnswers := correctAnswers p;
     totalAnswered := totalAnswered p; currentAnswer := currentAnswer p;
     hasAnsweredCurrent := hasAnsweredCurrent p;
     isConnected := connected; joinedAt := joinedAt p;
     lastDisconnectedAt :=
       if connected then lastDisconnectedAt p else Some now |}.

Definition updateParticipantConnection (now : Z) (code oid : string)
  (connected : bool) (sock : option string) (w : World) : World :=
  match activeSessions w !! code with
  | None => w
  | Some session =>
      match jsmap_get oid (participants session) with
      | None => w
      | Some participant =>
          put_session code
            (set_participants session
               (jsmap_set oid (connection now participant connected sock)
                  (participants session))) w
      end
  end.

(** [endSession] clears both timers and leaves the handles in the fields. *)
Definition endSession (code : string) (w : World) : World :=
  match activeSessions w !! code with
  | None => w
  | Some session =>
      let w1 := clearTimeout_opt (questionTimer session) w in
      let w2 := clearTimeout_opt (adminDisconnectTimer session) w1 in
      put_session code (set_status session completed) w2
  end.

Definition removeSession (code : string) (w : World) : World :=
  let w2 :=
    match activeSessions w !! code with
    | None => w
    | Some session =>
        clearTimeout_opt (adminDisconnectTimer session)
          (clearTimeout_opt (questionTimer session) w)
    end in
  with_sessions w2 (delete code (activeSessions w2)).

(* ===================================================================== *)
(** ** quizSessionHandlers.js *)
(* ===================================================================== *)

(** [socket.sessionCode = sessionCode; socket.oderId = oderId]. *)
Definition bind_socket (socket code oid : string) (w : World) : World :=
  {| activeSessions := activeSessions w; timers := timers w;
     nextTimer := nextTimer w;
     sockets := <[socket := {| sock_sessionCode := code; sock_oderId := oid |}]>
                  (sockets w) |}.

(** [socket.userData] as the namespace middleware leaves it. *)
Record UserData := { ud_userName : string; ud_isAdmin : bool }.

Record LiveSettings := {
  ls_timePerQuestion : option Z;
  ls_basePointsPerQuestion : option Z;
  ls_speedBonusMax : option Z;
  ls_allowLateJoin : option bool;
  ls_showLeaderboardAfterEach : option bool
}.

(** The quiz document [Quiz.findById] returns. *)
Record Quiz := {
  quiz_id : string;
  quiz_title : string;
  quiz_questions : list Question;
  liveSettings : option LiveSettings
}.

Record CreateOk := {
  co_sessionCode : string;
  co_quizTitle : string;
  co_questionCount : nat;
  co_timePerQuestion : Z
}.

(** [session:create]; [quiz] is the result of the database lookup and [dbId]
    the id of the stored session document. *)
Definition session_create (now : Z) (draw : nat -> string) (socket : string)
  (userData : option UserData) (quizIdArg : string) (quiz : option Quiz)
  (dbId : string) (w : World) : Reply CreateOk * World :=
  match userData with
  | None => (Error "Only admins can create sessions", w)
  | Some ud =>
      if negb (ud_isAdmin ud) then (Error "Only admins can create sessions", w)
      else if decide (quizIdArg = "") then (Error "Quiz ID is required", w)
      else
        match quiz with
        | None => (Error "Quiz not found", w)
        | Some q =>
            match generateUniqueSessionCode draw w with
            | Throws msg => (Error msg, w)
            | Returns code =>
                let tpq := num_or (liveSettings q ≫= ls_timePerQuestion) 30 in
                let '(_, w1) :=
                  createSession now code
                    {| sd_sessionId := dbId;
                       sd_quizId := quiz_id q;
                       sd_quizTitle := quiz_title q;
                       sd_adminId := ud_userName ud;
                       sd_adminSocketId := socket;
                       sd_questions := quiz_questions q;
                       sd_timePerQuestion := Some tpq;
                       sd_basePointsPerQuestion :=
                         Some (num_or (liveSettings q ≫= ls_basePointsPerQuestion) 100);
                       sd_speedBonusMax :=
                         Some (num_or (liveSettings q ≫= ls_speedBonusMax) 50);
                       sd_allowLateJoin :=
                         Some (bool_or_false (liveSettings q ≫= ls_allowLateJoin));
                       sd_showLeaderboardAfterEach :=
                         Some (bool_nullish_true
                                 (liveSettings q ≫= ls_showLeaderboardAfterEach)) |}
                    w in
                (Success {| co_sessionCode := code;
                            co_quizTitle := quiz_title q;
                            co_questionCount := length (quiz_questions q);
                            co_timePerQuestion := tpq |}, w1)
            end
        end
  end.

Record JoinOk := {
  jo_reconnected : bool;
  jo_participantCount : nat;
  jo_status : Status;
  jo_totalQuestions : nat;
  jo_yourScore : option Z;
  jo_hasAnswered : option bool
}.

(** The message of the TypeError raised by reading a property of an
    undefined question. *)
Definition undefined_question : string :=
  "Cannot read properties of undefined (reading 'question_id')".

(** [session:join]. *)
Definition session_join (now : Z) (socket code oid name : string)
  (photo : option string) (w : World) : Reply JoinOk * World :=
  if decide (code = "" ∨ oid = "" ∨ name = "")
  then (Error "Session code, user ID, and name are required", w)
  else
    match getSession code w with
    | None => (Error "Session not found. Check the code and try again.", w)
    | Some session =>
        if decide (status session = completed ∨ status session = interrupted)
        then (Error "This quiz session has ended", w)
        else if bool_decide (status session = in_progress) && negb (allowLateJoin session)
        then (Error "This quiz has already started. Late joining is not allowed.", w)
        else
          match getParticipant code oid w with
          | Some existingParticipant =>
              (* reconnection *)
              let w1 := updateParticipantConnection now code oid true (Some socket) w in
              let w2 := bind_socket socket code oid w1 in
              let open := bool_decide (status session = in_progress)
                          && (0 <=? currentQuestionIndex session) in
              if open && negb (bool_decide (is_Some (currentQuestion session)))
              then (Error undefined_question, w2)
              else
                (Success {| jo_reconnected := true;
                            jo_participantCount := getParticipantCount code w2;
                            jo_status := status session;
                            jo_totalQuestions := length (questions session);
                            jo_yourScore := Some (score existingParticipant);
                            jo_hasAnswered :=
                              if open
                              then Some (hasAnsweredCurrent existingParticipant)
                              else None |}, w2)
          | None =>
              (* new participant *)
              match addParticipant now code
                      {| pd_oderId := oid; pd_userName := name;
                         pd_userPhoto := photo; pd_socketId := socket |} w with
              | (Throws msg, w1) => (Error msg, w1)
              | (Returns _, w1) =>
                  let w2 := bind_socket socket code oid w1 in
                  (Success {| jo_reconnected := false;
                              jo_participantCount := getParticipantCount code w2;
                              jo_status := status session;
                              jo_totalQuestions := length (questions session);
                              jo_yourScore := None;
                              jo_hasAnswered := None |}, w2)
              end
          end
    end.

(** [question:next]: the bounds check, [advanceQuestion], then the timer of
    the new question. *)
Definition question_next (now : Z) (socket code : string) (w : World)
  : Reply Z * World :=
  match getSession code w with
  | None => (Error "Session not found", w)
  | Some session =>
      if decide (adminSocketId session ≠ socket)
      then (Error "Only the session admin can control the quiz", w)
      else if questionCount session - 1 <=? currentQuestionIndex session
      then (Error "No more questions. End the quiz.", w)
      else
        let w1 := advanceQuestion now code w in
        match getSession code w1 ≫= currentQuestion with
        | None => (Error undefined_question, w1)
        | Some _ =>
            let w2 := setQuestionTimer code (QuestionEnd code) w1 in
            (Success (currentQuestionIndex session + 1), w2)
        end
  end.

(** [answer:submit]. *)
Definition answer_submit (now : Z) (socket code : string) (questionIndex : Z)
  (sel : Selection) (w : World) : Reply unit * World :=
  match sockets w !! socket with
  | None => (Error "Not authenticated to this session", w)
  | Some fields =>
      if decide (sock_oderId fields = "")
      then (Error "Not authenticated to this session", w)
      else
        match getSession code w with
        | None => (Error "Session not found", w)
        | Some session =>
            if decide (currentQuestionIndex session ≠ questionIndex)
            then (Error "Question has changed", w)
            else
              match recordAnswer now code (sock_oderId fields) sel w with
              | (Error msg, w1) => (Error msg, w1)
              | (Success _, w1) => (Success (), w1)
              end
        end
  end.

(** [handleQuestionEnd]: results are broadcast; after the last question the
    completion is scheduled. *)
Definition handleQuestionEnd (code : string) (w : World) : World :=
  match getSession code w with
  | None => w
  | Some session =>
      match currentQuestion session with
      | None => w
      | Some _ =>
          if questionCount session - 1 <=? currentQuestionIndex session
          then (setTimeout (QuizComplete code) w).2
          else w
      end
  end.

(** [handleQuizComplete]: ends the session once and schedules its removal. *)
Definition handleQuizComplete (code : string) (w : World) : World :=
  match getSession code w with
  | None => w
  | Some session =>
      if decide (status session = completed) then w
      else (setTimeout (RemoveSession code) (endSession code w)).2
  end.

(** [question:skip]. *)
Definition question_skip (socket code : string) (w : World)
  : Reply unit * World :=
  match getSession code w with
  | None => (Error "Session not found", w)
  | Some session =>
      if decide (adminSocketId session ≠ socket)
      then (Error "Only the session admin can skip", w)
      else (Success (), handleQuestionEnd code (clearQuestionTimer code w))
  end.

(** [session:end]. *)
Definition session_end (socket code : string) (w : World)
  : Reply unit * World :=
  match getSession code w with
  | None => (Error "Session not found", w)
  | Some session =>
      if decide (adminSocketId session ≠ socket)
      then (Error "Only the session admin can end the quiz", w)
      else (Success (), handleQuizComplete code w)
  end.

(** [session:leave]: the participant is marked disconnected, never removed. *)
Definition session_leave (now : Z) (socket code : string) (w : World) : World :=
  match sockets w !! socket with
  | None => w
  | Some fields =>
      if decide (sock_oderId fields = "" ∨ code = "") then w
      else updateParticipantConnection now code (sock_oderId fields) false None w
  end.

(** A pending timer fires: it leaves the table and its callback runs. *)
Definition fireTimer (t : nat) (w : World) : World :=
  match timers w !! t with
  | None => w
  | Some act =>
      let w1 := with_timers w (delete t (timers w)) in
      match act with
      | QuestionEnd code => handleQuestionEnd code w1
      | QuizComplete code => handleQuizComplete code w1
      | RemoveSession code => removeSession code w1
      end
  end.

(** The commands of the live session and the timer events. *)
Inductive Command :=
| Join (socket code oid name : string) (photo : option string)
| Answer (socket code : string) (questionIndex : Z) (sel : Selection)
| Next (socket code : string)
| Skip (socket code : string)
| End (socket code : string)
| Leave (socket code : string)
| Fire (t : nat).

(** One command, received at time [now], run to completion. *)
Definition step (now : Z) (c : Command) (w : World) : World :=
  match c with
  | Join socket code oid name photo => (session_join now socket code oid name photo w).2
  | Answer socket code qi sel => (answer_submit now socket code qi sel w).2
  | Next socket code => (question_next now socket code w).2
  | Skip socket code => (question_skip socket code w).2
  | End socket code => (session_end socket code w).2
  | Leave socket code => session_leave now socket code w
  | Fire t => fireTimer t w
  end.

(** A sequence of timestamped commands, processed in order. *)
Definition run (cmds : list (Z * Command)) (w : World) : World :=
  foldl (fun w' '(now, c) => step now c w') w cmds.

(** The empty process state. *)
Definition emptyWorld : World :=
  {| activeSessions := ∅; timers := ∅; nextTimer := O; sockets := ∅ |}.

(* ===================================================================== *)
(** ** A concrete session *)
(* ===================================================================== *)

Definition opt (i t : string) : QOption := {| option_id := i; text := t |}.

Definition q1 : Question :=
  {| question_id := "Q001"; qtype := single_choice;
     question_text := "Capital of India?";
     options := [opt "a" "Mumbai"; opt "b" "Delhi"; opt "c" "Chennai"];
     correct_answers := ["b"]; marks := 1; explanation := None |}.

Definition q2 : Question :=
  {| question_id := "Q002"; qtype := multiple_choice;
     question_text := "Which of these are prime?";
     options := [opt "a" "2"; opt "b" "3"; opt "c" "4"];
     correct_answers := ["a"; "b"]; marks := 1; explanation := None |}.

(** No live settings: 30 s per question, 100 base points, bonus up to 50. *)
Definition demoData : SessionData :=
  {| sd_sessionId := "db1"; sd_quizId := "quiz1"; sd_quizTitle := "Demo";
     sd_adminId := "host"; sd_adminSocketId := "sock-admin";
     sd_questions := [q1; q2]; sd_timePerQuestion := None;
     sd_basePointsPerQuestion := None; sd_speedBonusMax := None;
     sd_allowLateJoin := None; sd_showLeaderboardAfterEach := None |}.

(** Created, joined by alice and bob, first question started at 1000000. *)
Definition w_created : World := (createSession 0 "ABC123" demoData emptyWorld).2.
Definition w_alice : World :=
  (session_join 10 "sock-alice" "ABC123" "u1" "alice" None w_created).2.
Definition w_lobby : World :=
  (session_join 20 "sock-bob" "ABC123" "u2" "bob" None w_alice).2.
Definition w_question1 : World :=
  (question_next 1000000 "sock-admin" "ABC123" w_lobby).2.

(** Alice answers the first question correctly after 2000 ms. *)
Definition w_answered1 : World :=
  (recordAnswer 1002000 "ABC123" "u1" (SelString "b") w_question1).2.

(** The second question (two correct options) started at 2000000. *)
Definition w_question2 : World :=
  (question_next 2000000 "sock-admin" "ABC123" w_answered1).2.

(** Alice leaves, then the host ends the session. *)
Definition w_left : World := session_leave 2005000 "sock-alice" "ABC123" w_question2.
Definition w_ended : World := (session_end "sock-admin" "ABC123" w_left).2.

(** A whole session as a sequence of commands: two joins, both questions
    (the timer of the first one fires), a third advance that is refused, a
    skip, alice leaving, and the completion timer firing. *)
Definition demoCommands : list (Z * Command) :=
  [ (10, Join "sock-alice" "ABC123" "u1" "alice" None);
    (20, Join "sock-bob" "ABC123" "u2" "bob" None);
    (1000000, Next "sock-admin" "ABC123");
    (1002000, Answer "sock-alice" "ABC123" 0 (SelString "b"));
    (1030000, Fire 0%nat);
    (2000000, Next "sock-admin" "ABC123");
    (2002000, Answer "sock-bob" "ABC123" 1 (SelString "a"));
    (2003000, Next "sock-admin" "ABC123");
    (2004000, Skip "sock-admin" "ABC123");
    (2005000, Leave "sock-alice" "ABC123");
    (2009000, Fire 2%nat) ].

(** A second session that allows late joins: alice joins, answers the first
    question correctly after 2000 ms and leaves while it is still open. *)
Definition lateData : SessionData :=
  {| sd_sessionId := "db2"; sd_quizId := "quiz1"; sd_quizTitle := "Demo";
     sd_adminId := "host"; sd_adminSocketId := "sock-admin";
     sd_questions := [q1; q2]; sd_timePerQuestion := None;
     sd_basePointsPerQuestion := None; sd_speedBonusMax := None;
     sd_allowLateJoin := Some true; sd_showLeaderboardAfterEach := None |}.

Definition w_late_question1 : World :=
  run [ (10, Join "sock-alice" "LATE42" "u1" "alice" None);
        (1000000, Next "sock-admin" "LATE42") ]
      (createSession 0 "LATE42" lateData emptyWorld).2.

Definition w_late_answered : World :=
  (recordAnswer 1002000 "LATE42" "u1" (SelString "b") w_late_question1).2.

Definition w_late_left : World :=
  session_leave 1005000 "sock-alice" "LATE42" w_late_answered.

(** After alice's answer in the late-join session: she leaves and joins
    again from a new socket, bob joins late and answers, the host skips the
    rest of the time. *)
Definition demoRejoin : list (Z * Command) :=
  [ (1005000, Leave "sock-alice" "LATE42");
    (1008000, Join "sock-alice-2" "LATE42" "u1" "alice" None);
    (1009000, Join "sock-bob" "LATE42" "u2" "bob" None);
    (1010000, Answer "sock-bob" "LATE42" 0 (SelString "a"));
    (1011000, Skip "sock-admin" "LATE42") ].

(** Two sessions side by side: the first one at its first question, the
    late-join one just created. *)
Definition w_two : World := (createSession 5 "LATE42" lateData w_question1).2.

(** A stand-in for [localeCompare] on names: code-unit order. *)
Fixpoint codeUnitCompare (a b : string) : Z :=
  match a, b with
  | EmptyString, EmptyString => 0
  | EmptyString, String _ _ => -1
  | String _ _, EmptyString => 1
  | String x a', String y b' =>
      match (Ascii.nat_of_ascii x ?= Ascii.nat_of_ascii y)%nat with
      | Lt => -1
      | Gt => 1
      | Eq => codeUnitCompare a' b'
      end
  end.

(** Bob also answers the first question correctly after 2000 ms: alice and
    bob are tied on score and on correct answers. *)
Definition w_tied : World :=
  (recordAnswer 1002000 "ABC123" "u2" (SelString "b") w_answered1).2.

(* ===================================================================== *)
(** ** Orders and ranks of the specification *)
(* ===================================================================== *)

(** Score descending, then correct answers descending, then name ascending
    in the collation [lc]. *)
Definition ranked_before (lc : string -> string -> Z) (a b : Participant)
  : Prop :=
  score b < score a
  ∨ (score a = score b
     ∧ (correctAnswers b < correctAnswers a
        ∨ (correctAnswers a = correctAnswers b
           ∧ lc (userName a) (userName b) <= 0))).

(** The speed bonus as the specification words it,
    round (maxSpeedBonus * (1 - responseLatencyMs / timeLimitMs)) clamped at
    0, in exact arithmetic, a half rounded up as [Math.round] does. *)
Definition spec_speedBonus (responseMs timeLimit bonusMax : Z) : Z :=
  Z.max 0 ((2 * bonusMax * (timeLimit - responseMs) + timeLimit)
           `div` (2 * timeLimit)).

(** The latencies at which, with a limit of 30 s and a bonus of at most 50,
    the binary64 product falls short of the half the exact value reaches. *)
Definition speedBonusShortfall : list Z :=
  [16500; 20100; 23700; 24300; 26700; 27300; 27900].

(** A check of the [n] integers from [lo] on. *)
Fixpoint forall_from (n : nat) (lo : Z) (f : Z -> bool) : bool :=
  match n with
  | O => true
  | S n' => f lo && forall_from n' (lo + 1) f
  end.

(** The selection read as a set of option ids, and the match of the
    specification: the selection is the correct-answer set as a whole. *)
Definition selection_set (sel : Selection) : list string :=
  match sel with
  | SelString o => [o]
  | SelArray l => l
  | SelNull => []
  end.

Definition matches_whole_set (sel : Selection) (q : Question) : Prop :=
  ∀ o, o ∈ selection_set sel ↔ o ∈ correct_answers q.

(** Dense ranks in the wording of the specification: two entries share a
    rank exactly when their score and their correct answers are equal. *)
Definition dense_ranks (lb : list LeaderboardEntry) : Prop :=
  ∀ e1 e2, e1 ∈ lb → e2 ∈ lb →
    lb_rank e1 = lb_rank e2
    ↔ lb_score e1 = lb_score e2 ∧ lb_correctAnswers e1 = lb_correctAnswers e2.

(** The index of a session points at a question or is the lobby's -1
    (with no questions it stays at -1). *)
Definition in_range (s : Session) : Prop :=
  currentQuestionIndex s <= questionCount s - 1.

(** The participant [oid] is registered and has answered the open
    question. *)
Definition has_answered (oid : string) (s : Session) : Prop :=
  ∃ p, jsmap_get oid (participants s) = Some p ∧ hasAnsweredCurrent p = true.

(** A later state of the same session: same questions, the index has not
    decreased and is still in range if it was, and while the index is the
    same whoever has answered the question still has. *)
Definition advances (s s' : Session) : Prop :=
  questions s' = questions s
  ∧ currentQuestionIndex s <= currentQuestionIndex s'
  ∧ (in_range s → in_range s')
  ∧ (currentQuestionIndex s' = currentQuestionIndex s →
     ∀ oid, has_answered oid s → has_answered oid s').

(** Every session of the later world is a later state of the session of the
    same code in the earlier world. *)
Definition evolves (w w' : World) : Prop :=
  ∀ code s', activeSessions w' !! code = Some s' →
    ∃ s, activeSessions w !! code = Some s ∧ advances s s'.

(* ===================================================================== *)
(** ** Answer statistics *)
(* ===================================================================== *)

(** A number held by a property of [stats.optionCounts]. *)
Inductive JsNumber :=
| Num (z : Z)
| NaN.

(** The property names every plain object inherits from [Object.prototype]
    (ECMAScript, with Annex B). *)
Definition objectPrototypeKeys : list string :=
  [ "constructor"; "__defineGetter__"; "__defineSetter__"; "hasOwnProperty";
    "__lookupGetter__"; "__lookupSetter__"; "isPrototypeOf";
    "propertyIsEnumerable"; "toString"; "valueOf"; "__proto__";
    "toLocaleString" ].

(** [obj[k] = 0] on a plain object: an own property, except that the
    inherited setter of [__proto__] ignores a number. *)
Definition assignZero (k : string) (obj : gmap string JsNumber)
  : gmap string JsNumber :=
  if decide (k = "__proto__") then obj else <[k := Num 0]> obj.

(** [if (obj[k] !== undefined) obj[k]++]: an own count grows by one; an
    inherited function or object reads as NaN, which becomes an own property
    (except under [__proto__]); an unknown name is left alone. *)
Definition incrementIfDefined (k : string) (obj : gmap string JsNumber)
  : gmap string JsNumber :=
  match obj !! k with
  | Some (Num z) => <[k := Num (z + 1)]> obj
  | Some NaN => obj
  | None =>
      if decide (k = "__proto__") then obj
      else if decide (k ∈ objectPrototypeKeys) then <[k := NaN]> obj
      else obj
  end.

(** [Array.prototype.join] of strings with a comma, the property key an
    array converts to. *)
Fixpoint joinComma (l : list string) : string :=
  match l with
  | [] => ""
  | [x] => x
  | x :: rest => x +:+ "," +:+ joinComma rest
  end.

(** The property key of [participant.currentAnswer] when the answer is
    truthy: null and the empty string are falsy, an array is truthy. *)
Definition answerKey (a : Selection) : option string :=
  match a with
  | SelString s => if decide (s = "") then None else Some s
  | SelArray l => Some (joinComma l)
  | SelNull => None
  end.

(** The fields [totalParticipants], [answered] and [optionCounts]. *)
Record AnswerStats := {
  st_totalParticipants : nat;
  st_answered : nat;
  st_optionCounts : gmap string JsNumber
}.

(** The body of [session.participants.forEach] in [getAnswerStats]. *)
Definition tally (stats : AnswerStats) (p : Participant) : AnswerStats :=
  if hasAnsweredCurrent p
  then {| st_totalParticipants := st_totalParticipants stats;
          st_answered := S (st_answered stats);
          st_optionCounts :=
            match answerKey (currentAnswer p) with
            | Some k => incrementIfDefined k (st_optionCounts stats)
            | None => st_optionCounts stats
            end |}
  else stats.

(** [getAnswerStats]: null without a session or without a current
    question. *)
Definition getAnswerStats (code : string) (w : World) : option AnswerStats :=
  match activeSessions w !! code with
  | None => None
  | Some session =>
      match currentQuestion session with
      | None => None
      | Some question =>
          let stats :=
            {| st_totalParticipants := jsmap_size (participants session);
               st_answered := O;
               st_optionCounts :=
                 foldl (λ obj o, assignZero (option_id o) obj) ∅
                   (options question) |} in
          Some (foldl tally stats (jsmap_values (participants session)))
      end
  end.

(* ===================================================================== *)
(** ** Runs with session creation, and what a command does to a session *)
(* ===================================================================== *)

(** [session:create] beside the commands of a session. *)
Inductive Event :=
| Create (draw : nat -> string) (socket : string) (userData : option UserData)
    (quizIdArg : string) (quiz : option Quiz) (dbId : string)
| Cmd (c : Command).

Definition stepEvent (now : Z) (e : Event) (w : World) : World :=
  match e with
  | Create draw socket userData quizIdArg quiz dbId =>
      (session_create now draw socket userData quizIdArg quiz dbId w).2
  | Cmd c => step now c w
  end.

Definition runEvents (evs : list (Z * Event)) (w : World) : World :=
  foldl (fun w' '(now, e) => stepEvent now e w') w evs.

(** The code in a timer's callback. *)
Definition action_code (act : TimerAction) : string :=
  match act with
  | QuestionEnd code => code
  | QuizComplete code => code
  | RemoveSession code => code
  end.

(** The session a command addresses; a handle that is not pending
    addresses none. *)
Definition command_target (c : Command) (w : World) : option string :=
  match c with
  | Join _ code _ _ _ => Some code
  | Answer _ code _ _ => Some code
  | Next _ code => Some code
  | Skip _ code => Some code
  | End _ code => Some code
  | Leave _ code => Some code
  | Fire t => action_code <$> timers w !! t
  end.

(** The session object after the assignments of [advanceQuestion]. *)
Definition advanced (now : Z) (s : Session) : Session :=
  let s1 := set_questionTimer s None in
  let s2 := set_participants s1 (jsmap_forEach clearAnswer (participants s1)) in
  let s3 := set_question s2 (currentQuestionIndex s2 + 1) (Some now) in
  if currentQuestionIndex s3 =? 0 then set_status s3 in_progress else s3.

(** The changes the commands make to a session object. *)
Inductive SessionStep (s : Session) : Session -> Prop :=
| Step_connection now oid p connected sock :
    jsmap_get oid (participants s) = Some p →
    SessionStep s
      (set_participants s
         (jsmap_set oid (connection now p connected sock) (participants s)))
| Step_register now pd :
    jsmap_get (pd_oderId pd) (participants s) = None →
    SessionStep s
      (set_participants s
         (jsmap_set (pd_oderId pd) (newParticipant now pd) (participants s)))
| Step_answer oid p sel q responseMs :
    jsmap_get oid (participants s) = Some p →
    hasAnsweredCurrent p = false →
    currentQuestion s = Some q →
    SessionStep s
      (set_participants s
         (jsmap_set oid
            (answered p sel (includes (correct_answers q) sel)
               (if includes (correct_answers q) sel
                then basePointsPerQuestion s
                     + speedBonusFor responseMs (timePerQuestion s * 1000)
                         (speedBonusMax s)
                else 0))
            (participants s)))
| Step_advance now :
    currentQuestionIndex s < questionCount s - 1 →
    SessionStep s (advanced now s)
| Step_timer t :
    SessionStep s (set_questionTimer s t)
| Step_completed :
    SessionStep s (set_status s completed).

(** The later world differs from the earlier one at most in the session
    [code], which went through changes of the kinds above or was removed. *)
Definition touches (code : string) (w w' : World) : Prop :=
  (∀ code', code' ≠ code →
     activeSessions w' !! code' = activeSessions w !! code')
  ∧ (∀ s', activeSessions w' !! code = Some s' →
       ∃ s, activeSessions w !! code = Some s ∧ rtc SessionStep s s').

(** Every session of the later world comes from the session of the same
    code by changes of the kinds above. *)
Definition follows (w w' : World) : Prop :=
  ∀ code s', activeSessions w' !! code = Some s' →
    ∃ s, activeSessions w !! code = Some s ∧ rtc SessionStep s s'.

(** What stays and what only grows in a session: the configuration is
    fixed, no participant is dropped, identities stay, and the counters do
    not decrease (the score when the base points are not negative). *)
Definition grows (s s' : Session) : Prop :=
  sessionCode s' = sessionCode s
  ∧ questions s' = questions s
  ∧ adminSocketId s' = adminSocketId s
  ∧ timePerQuestion s' = timePerQuestion s
  ∧ basePointsPerQuestion s' = basePointsPerQuestion s
  ∧ speedBonusMax s' = speedBonusMax s
  ∧ allowLateJoin s' = allowLateJoin s
  ∧ ∀ oid p, jsmap_get oid (participants s) = Some p →
      ∃ p', jsmap_get oid (participants s') = Some p'
            ∧ oderId p' = oderId p
            ∧ userName p' = userName p
            ∧ joinedAt p' = joinedAt p
            ∧ totalAnswered p <= totalAnswered p'
            ∧ correctAnswers p <= correctAnswers p'
            ∧ (0 <= basePointsPerQuestion s → score p <= score p').

(** The shape of a session the commands keep: the index is the lobby's -1
    or points at a question, ids are registered once and under their own
    key, and a participant has answered at most the questions started so
    far, correctly at most as many as answered. *)
Definition session_ok (s : Session) : Prop :=
  -1 <= currentQuestionIndex s
  ∧ currentQuestionIndex s <= questionCount s - 1
  ∧ NoDup (jsmap_keys (participants s))
  ∧ ∀ oid p, jsmap_get oid (participants s) = Some p →
      oderId p = oid
      ∧ 0 <= correctAnswers p
      ∧ correctAnswers p <= totalAnswered p
      ∧ totalAnswered p <= Z.max (currentQuestionIndex s + 1) 0
      ∧ (hasAnsweredCurrent p = false →
         totalAnswered p <= Z.max (currentQuestionIndex s) 0).

Definition sessions_ok (w : World) : Prop :=
  ∀ code s, activeSessions w !! code = Some s →
    sessionCode s = code ∧ session_ok s.

(** Every pending question timer is the one its session holds. *)
Definition timers_owned (w : World) : Prop :=
  ∀ t code, timers w !! t = Some (QuestionEnd code) →
    ∃ s, activeSessions w !! code = Some s ∧ questionTimer s = Some t.

(** A quiz document without live settings and the host who creates a
    session for it; the first code drawn is ABC123. *)
Definition demoQuiz : Quiz :=
  {| quiz_id := "quiz1"; quiz_title := "Demo"; quiz_questions := [q1; q2];
     liveSettings := None |}.

Definition demoEvents : list (Z * Event) :=
  [ (0, Create (fun _ => "ABC123") "sock-admin"
          (Some {| ud_userName := "host"; ud_isAdmin := true |})
          "quiz1" (Some demoQuiz) "db1") ]
  ++ map (fun '(now, c) => (now, Cmd c)) demoCommands.

(** The start of that run: the session created, both joins and the first
    question, whose timer is pending. *)
Definition demoEventsStart : list (Z * Event) := take 4 demoEvents.

(* ===================================================================== *)
(** ** Awaited database calls that are rejected *)
(* ===================================================================== *)

(** The outcome of the database call a handler awaits.  [session_join] and
    [question_next] above follow the call that resolves; here the outcome is
    a parameter, and a rejection reaches the handler's catch block. *)
Inductive DbOutcome :=
| Resolved
| Rejected (message : string).

(** [error.message || fallback] in a catch block. *)
Definition message_or (message fallback : string) : string :=
  if decide (message = "") then fallback else message.

(** [session:join]: [SessionParticipant.findOneAndUpdate] is awaited after
    [updateParticipantConnection], and [dbParticipant.save()] after
    [addParticipant], both before the socket is bound. *)
Definition session_join_db (db : DbOutcome) (now : Z)
  (socket code oid name : string) (photo : option string) (w : World)
  : Reply JoinOk * World :=
  if decide (code = "" ∨ oid = "" ∨ name = "")
  then (Error "Session code, user ID, and name are required", w)
  else
    match getSession code w with
    | None => (Error "Session not found. Check the code and try again.", w)
    | Some session =>
        if decide (status session = completed ∨ status session = interrupted)
        then (Error "This quiz session has ended", w)
        else if bool_decide (status session = in_progress) && negb (allowLateJoin session)
        then (Error "This quiz has already started. Late joining is not allowed.", w)
        else
          match getParticipant code oid w with
          | Some existingParticipant =>
              let w1 := updateParticipantConnection now code oid true (Some socket) w in
              match db with
              | Rejected message =>
                  (Error (message_or message "Failed to join session"), w1)
              | Resolved =>
                  let w2 := bind_socket socket code oid w1 in
                  let open := bool_decide (status session = in_progress)
                              && (0 <=? currentQuestionIndex session) in
                  if open && negb (bool_decide (is_Some (currentQuestion session)))
                  then (Error undefined_question, w2)
                  else
                    (Success {| jo_reconnected := true;
                                jo_participantCount := getParticipantCount code w2;
                                jo_status := status session;
                                jo_totalQuestions := length (questions session);
                                jo_yourScore := Some (score existingParticipant);
                                jo_hasAnswered :=
                                  if open
                                  then Some (hasAnsweredCurrent existingParticipant)
                                  else None |}, w2)
              end
          | None =>
              match addParticipant now code
                      {| pd_oderId := oid; pd_userName := name;
                         pd_userPhoto := photo; pd_socketId := socket |} w with
              | (Throws msg, w1) => (Error msg, w1)
              | (Returns _, w1) =>
                  match db with
                  | Rejected message =>
                      (Error (message_or message "Failed to join session"), w1)
                  | Resolved =>
                      let w2 := bind_socket socket code oid w1 in
                      (Success {| jo_reconnected := false;
                                  jo_participantCount := getParticipantCount code w2;
                                  jo_status := status session;
                                  jo_totalQuestions := length (questions session);
                                  jo_yourScore := None;
                                  jo_hasAnswered := None |}, w2)
                  end
              end
          end
    end.

(** [question:next]: [QuizSession.findOneAndUpdate] is awaited after
    [advanceQuestion] and the broadcast of the question, before
    [setQuestionTimer]. *)
Definition question_next_db (db : DbOutcome) (now : Z) (socket code : string)
  (w : World) : Reply Z * World :=
  match getSession code w with
  | None => (Error "Session not found", w)
  | Some session =>
      if decide (adminSocketId session ≠ socket)
      then (Error "Only the session admin can control the quiz", w)
      else if questionCount session - 1 <=? currentQuestionIndex session
      then (Error "No more questions. End the quiz.", w)
      else
        let w1 := advanceQuestion now code w in
        match getSession code w1 ≫= currentQuestion with
        | None => (Error undefined_question, w1)
        | Some _ =>
            match db with
            | Rejected message =>
                (Error (message_or message "Failed to advance question"), w1)
            | Resolved =>
                let w2 := setQuestionTimer code (QuestionEnd code) w1 in
                (Success (currentQuestionIndex session + 1), w2)
            end
        end
  end.

(* ===================================================================== *)
(** ** Properties of the Map model and of the state updates *)
(* ===================================================================== *)

Section JsMapFacts.
Context {V : Type}.
Implicit Types (m : list (string * V)) (k : string) (v : V).

Lemma jsmap_get_set_eq k v m : jsmap_get k (jsmap_set k v m) = Some v.
Proof.
  induction m as [|[k' v'] m IH]; simpl.
  - by rewrite decide_True.
  - destruct (decide (k = k')) as [->|Hne]; simpl.
    + by rewrite decide_True.
    + by rewrite decide_False.
Qed.

Lemma jsmap_get_set_ne k k' v m :
  k' ≠ k → jsmap_get k' (jsmap_set k v m) = jsmap_get k' m.
Proof.
  intros Hne. induction m as [|[k0 v0] m IH]; simpl.
  - by rewrite decide_False.
  - destruct (decide (k = k0)) as [->|Hk]; simpl.
    + by rewrite !decide_False.
    + destruct (decide (k' = k0)); [done | apply IH].
Qed.

(** [set] on a key that is present keeps the keys and their order. *)
Lemma jsmap_keys_set_present k v m :
  is_Some (jsmap_get k m) → jsmap_keys (jsmap_set k v m) = jsmap_keys m.
Proof.
  unfold jsmap_keys. induction m as [|[k' v'] m IH]; simpl.
  - by intros [? ?].
  - destruct (decide (k = k')) as [->|Hne]; simpl; [done |].
    intros H. f_equal. by apply IH.
Qed.

Lemma jsmap_size_set_present k v m :
  is_Some (jsmap_get k m) → jsmap_size (jsmap_set k v m) = jsmap_size m.
Proof.
  unfold jsmap_size. induction m as [|[k' v'] m IH]; simpl.
  - by intros [? ?].
  - destruct (decide (k = k')) as [->|Hne]; simpl; [done |].
    intros H. f_equal. by apply IH.
Qed.

Lemma jsmap_get_forEach (f : V → V) k m :
  jsmap_get k (jsmap_forEach f m) = f <$> jsmap_get k m.
Proof.
  unfold jsmap_forEach. induction m as [|[k' v'] m IH]; simpl; [done |].
  destruct (decide (k = k')); [done | apply IH].
Qed.

Lemma jsmap_keys_forEach (f : V → V) m :
  jsmap_keys (jsmap_forEach f m) = jsmap_keys m.
Proof.
  unfold jsmap_keys, jsmap_forEach. induction m as [|[k' v'] m IH]; simpl;
    [done | f_equal; apply IH].
Qed.
End JsMapFacts.

Lemma lookup_put_session code s w :
  activeSessions (put_session code s w) !! code = Some s.
Proof. apply lookup_insert_eq. Qed.

Lemma lookup_put_session_ne code code' s w :
  code ≠ code' →
  activeSessions (put_session code s w) !! code' = activeSessions w !! code'.
Proof. intros. by apply lookup_insert_ne. Qed.

Lemma activeSessions_clearTimeout_opt t w :
  activeSessions (clearTimeout_opt t w) = activeSessions w.
Proof. by destruct t. Qed.

(** binary64 multiplication commutes. *)
Lemma float_mul_comm (x y : float) : (x * y)%float = (y * x)%float.
Proof.
  apply Prim2SF_inj. rewrite !mul_spec. unfold SF64mul, SFmul.
  destruct (Prim2SF x) as [sx|sx| |sx mx ex], (Prim2SF y) as [sy|sy| |sy my ey];
    rewrite ?(xorb_comm sx sy), ?(Pos.mul_comm mx my), ?(Z.add_comm ex ey);
    reflexivity.
Qed.

(** A session made by [createSession] never has the time limit 0, with
    which the ratio of the speed bonus would not be a finite double. *)
Lemma createSession_timePerQuestion now code sd w :
  timePerQuestion (createSession now code sd w).1 ≠ 0.
Proof.
  simpl. unfold num_or. destruct (sd_timePerQuestion sd) as [v|]; [|done].
  by destruct (Z.eqb_spec v 0).
Qed.

(** What an accepted answer means, read off [recordAnswer]. *)
Lemma recordAnswer_Success now code oid sel w r w' :
  recordAnswer now code oid sel w = (Success r, w') →
  ∃ session participant question,
    activeSessions w !! code = Some session
    ∧ jsmap_get oid (participants session) = Some participant
    ∧ hasAnsweredCurrent participant = false
    ∧ responseTimeMs r = now - default 0 (questionStartTime session)
    ∧ responseTimeMs r ≤ timePerQuestion session * 1000 + 1000
    ∧ currentQuestion session = Some question
    ∧ isCorrect r = includes (correct_answers question) sel
    ∧ speedBonus r =
        (if isCorrect r
         then speedBonusFor (responseTimeMs r) (timePerQuestion session * 1000)
                (speedBonusMax session)
         else 0)
    ∧ pointsAwarded r =
        (if isCorrect r then basePointsPerQuestion session + speedBonus r else 0)
    ∧ newScore r = score participant + pointsAwarded r
    ∧ w' = put_session code
             (set_participants session
                (jsmap_set oid
                   (answered participant sel (isCorrect r) (pointsAwarded r))
                   (participants session))) w.
Proof.
  unfold recordAnswer. intros H.
  destruct (activeSessions w !! code) as [session|]; [|done].
  destruct (jsmap_get oid (participants session)) as [participant|] eqn:Hp; [|done].
  destruct (hasAnsweredCurrent participant) eqn:Ha; [done|].
  destruct (Z.ltb_spec (timePerQuestion session * 1000 + 1000)
              (now - default 0 (questionStartTime session))) as [Hlate|Hok]; [done|].
  destruct (currentQuestion session) as [question|] eqn:Hq; [|done].
  injection H as <- <-. exists session, participant, question. simpl.
  repeat split; try done.
Qed.

(* ===================================================================== *)
(** ** Scoring *)
(* ===================================================================== *)

Lemma forall_from_spec n f :
  ∀ lo, forall_from n lo f = true →
        ∀ t, lo <= t < lo + Z.of_nat n → f t = true.
Proof.
  induction n as [|n IH]; intros lo Hall t Ht; [lia |].
  simpl in Hall. apply andb_true_iff in Hall as [Hlo Hrest].
  destruct (decide (t = lo)) as [->|Hne]; [done |].
  apply (IH (lo + 1) Hrest). lia.
Qed.

(** With a limit of 30 s and a bonus of at most 50, checked on every latency
    an accepted answer can have: the bonus of the code is the exactly rounded
    one, except at the seven latencies of [speedBonusShortfall], where it is
    one less. *)
Lemma speedBonusFor_default t :
  0 <= t <= 31000 →
  speedBonusFor t 30000 50
  = spec_speedBonus t 30000 50
    - (if bool_decide (t ∈ speedBonusShortfall) then 1 else 0).
Proof.
  intros Ht.
  assert (Hall : forall_from (Z.to_nat 31001) 0
                   (λ t, speedBonusFor t 30000 50
                         =? spec_speedBonus t 30000 50
                            - (if bool_decide (t ∈ speedBonusShortfall)
                               then 1 else 0)) = true)
    by (vm_compute; reflexivity).
  apply Z.eqb_eq. apply (forall_from_spec _ _ _ Hall). lia.
Qed.

(** C1.  Every accepted correct answer is awarded points = basePoints +
    speedBonus, which are added to the score, where speedBonus is
    [Math.round] of (1 - responseLatencyMs / timeLimitMs) * maxSpeedBonus
    evaluated in binary64 and set to 0 when negative.  This is the exactly
    rounded value of the specification except where the binary64 product
    falls short of a half: with a bonus of at most 50 and a 30 s limit the
    bonus is one less than the exactly rounded value at 16500, 20100, 23700,
    24300, 26700, 27300 and 27900 ms and equal to it at every other latency
    from 0 ms on; with 100 base points a correct answer after 2000 ms earns
    a bonus of 47 and 147 points. *)
Theorem recordAnswer_correct_points :
  (∀ now code oid sel w r w',
     recordAnswer now code oid sel w = (Success r, w') →
     isCorrect r = true →
     ∃ session participant,
       activeSessions w !! code = Some session
       ∧ jsmap_get oid (participants session) = Some participant
       ∧ responseTimeMs r = now - default 0 (questionStartTime session)
       ∧ speedBonus r =
           Z.max 0 (Math_round
                      (of_Z (speedBonusMax session)
                       * (1 - of_Z (responseTimeMs r)
                              / of_Z (timePerQuestion session * 1000)))%float)
       ∧ 0 <= speedBonus r
       ∧ pointsAwarded r = basePointsPerQuestion session + speedBonus r
       ∧ newScore r = score participant + pointsAwarded r
       ∧ score <$> getParticipant code oid w' = Some (newScore r)
       ∧ (speedBonusMax session = 50 →
          timePerQuestion session = 30 →
          0 <= responseTimeMs r →
          speedBonus r
          = spec_speedBonus (responseTimeMs r) 30000 50
            - (if bool_decide (responseTimeMs r ∈ speedBonusShortfall)
               then 1 else 0)))
  ∧ (∀ now code oid sel w r w' session,
       recordAnswer now code oid sel w = (Success r, w') →
       isCorrect r = true →
       activeSessions w !! code = Some session →
       basePointsPerQuestion session = 100 →
       speedBonusMax session = 50 →
       timePerQuestion session = 30 →
       responseTimeMs r = 2000 →
       speedBonus r = 47 ∧ pointsAwarded r = 147
       ∧ spec_speedBonus 2000 30000 50 = 47).
Proof.
  split.
  - intros now code oid sel w r w' H Hc.
    apply recordAnswer_Success in H
      as (session & participant & question & Hs & Hp & _ & Hrt & Hlate & _ & _
          & Hsb & Hpts & Hns & ->).
    rewrite Hc in Hsb, Hpts. exists session, participant.
    assert (Hmax : speedBonus r =
              Z.max 0 (Math_round
                         (of_Z (speedBonusMax session)
                          * (1 - of_Z (responseTimeMs r)
                                 / of_Z (timePerQuestion session * 1000)))%float)).
    { rewrite Hsb. unfold speedBonusFor, timeRatio.
      rewrite (float_mul_comm (of_Z (speedBonusMax session))).
      destruct (Z.ltb_spec
                  (Math_round
                     ((1 - of_Z (responseTimeMs r)
                           / of_Z (timePerQuestion session * 1000))
                      * of_Z (speedBonusMax session))%float) 0); lia. }
    split; [done |]. split; [done |]. split; [done |]. split; [done |].
    split; [lia |]. split; [done |]. split; [done |].
    split.
    + unfold getParticipant. rewrite lookup_put_session. simpl.
      rewrite jsmap_get_set_eq. simpl. by rewrite Hns.
    + intros Hbonus Htpq Hpos. rewrite Hsb, Hbonus, Htpq.
      change (30 * 1000) with 30000.
      apply speedBonusFor_default. rewrite Htpq in Hlate. lia.
  - intros now code oid sel w r w' session H Hc Hs Hbase Hmax Htpq Hrt.
    apply recordAnswer_Success in H
      as (session' & participant & question & Hs' & _ & _ & _ & _ & _ & _
          & Hsb & Hpts & _ & _).
    rewrite Hs in Hs'. injection Hs' as <-.
    rewrite Hc in Hsb, Hpts. rewrite Hpts, Hsb, Hrt, Htpq, Hmax, Hbase.
    by vm_compute.
Qed.

Lemma recordAnswer_correct_points_witness :
  ∃ r,
    recordAnswer 1002000 "ABC123" "u1" (SelString "b") w_question1
    = (Success r, w_answered1)
    ∧ speedBonus r = 47 ∧ pointsAwarded r = 147
    ∧ spec_speedBonus 2000 30000 50 = 47.
Proof.
  set (r := {| isCorrect := true; pointsAwarded := 147; speedBonus := 47;
               responseTimeMs := 2000; newScore := 147 |}).
  assert (H : recordAnswer 1002000 "ABC123" "u1" (SelString "b") w_question1
              = (Success r, w_answered1)) by (vm_compute; reflexivity).
  exists r. split; [exact H |].
  eapply (proj2 recordAnswer_correct_points); [exact H | | | | | | ];
    vm_compute; reflexivity.
Defined.

(** C1 as stated fails: in the concrete session (30 s, bonus of at most 50)
    a correct answer after 26700 ms has the exact value 50 * (1 - 26700 /
    30000) = 11/2, which rounds to 6, and is awarded a bonus of 5; a half
    is not rounded down throughout either, since after 300 ms the exact value
    is 99/2 and the bonus 50. *)
Lemma recordAnswer_bonus_below_exact_rounding :
  (recordAnswer 1026700 "ABC123" "u1" (SelString "b") w_question1).1
  = Success {| isCorrect := true; pointsAwarded := 105; speedBonus := 5;
               responseTimeMs := 26700; newScore := 105 |}
  ∧ 2 * (50 * (30000 - 26700)) = 11 * 30000
  ∧ spec_speedBonus 26700 30000 50 = 6
  ∧ (recordAnswer 1000300 "ABC123" "u1" (SelString "b") w_question1).1
    = Success {| isCorrect := true; pointsAwarded := 150; speedBonus := 50;
                 responseTimeMs := 300; newScore := 150 |}
  ∧ 2 * (50 * (30000 - 300)) = 99 * 30000.
Proof.
  split; [vm_compute; reflexivity |]. split; [reflexivity |].
  split; [vm_compute; reflexivity |]. split; [vm_compute; reflexivity |].
  reflexivity.
Qed.

(** How [recordAnswer] judges an accepted answer, whatever the type of the
    question: correct exactly when the selected option is one option id
    found among the question's correct answers; a correct answer earns the
    base points and the speed bonus in full, and an answer judged incorrect
    earns no points and no bonus and leaves the score as it was. *)
Theorem recordAnswer_judgement now code oid sel w r w' :
  recordAnswer now code oid sel w = (Success r, w') →
  ∃ session question participant,
    activeSessions w !! code = Some session
    ∧ currentQuestion session = Some question
    ∧ jsmap_get oid (participants session) = Some participant
    ∧ (isCorrect r = true ↔
       ∃ o, sel = SelString o ∧ o ∈ correct_answers question)
    ∧ (isCorrect r = true →
       pointsAwarded r = basePointsPerQuestion session + speedBonus r)
    ∧ (isCorrect r = false →
       pointsAwarded r = 0 ∧ speedBonus r = 0
       ∧ newScore r = score participant
       ∧ score <$> getParticipant code oid w' = Some (score participant)).
Proof.
  intros H.
  apply recordAnswer_Success in H
    as (session & participant & question & Hs & Hp & _ & _ & _ & Hq & Hc
        & Hsb & Hpts & Hns & ->).
  exists session, question, participant.
  split; [done |]. split; [done |]. split; [done |]. split; [|split].
  - rewrite Hc. split.
    + destruct sel as [o| |]; simpl; try done.
      intros Ho%bool_decide_eq_true. by exists o.
    + intros (o & -> & Ho). simpl. by apply bool_decide_eq_true.
  - intros Htrue. by rewrite Htrue in Hpts.
  - intros Hfalse. rewrite Hfalse in Hsb, Hpts.
    split; [done |]. split; [done |]. split; [lia |].
    unfold getParticipant. rewrite lookup_put_session. simpl.
    rewrite jsmap_get_set_eq. simpl. f_equal. lia.
Qed.

(** Bob's wrong answer to the first question. *)
Lemma recordAnswer_judgement_witness :
  ∃ r w',
    recordAnswer 1003000 "ABC123" "u2" (SelString "a") w_answered1
    = (Success r, w')
    ∧ isCorrect r = false
    ∧ pointsAwarded r = 0 ∧ speedBonus r = 0
    ∧ score <$> getParticipant "ABC123" "u2" w' = Some 0.
Proof.
  destruct (recordAnswer 1003000 "ABC123" "u2" (SelString "a") w_answered1)
    as [[r|msg] w'] eqn:H; [|by vm_compute in H].
  destruct (recordAnswer_judgement _ _ _ _ _ _ _ H)
    as (s & q & p & Hs & Hq & Hp & Hiff & _ & Hwrong).
  assert (Hq1 : q = q1).
  { vm_compute in Hs. injection Hs as <-. vm_compute in Hq. by injection Hq. }
  assert (Hp0 : score p = 0).
  { vm_compute in Hs. injection Hs as <-. vm_compute in Hp. by injection Hp as <-. }
  assert (Hc : isCorrect r = false).
  { destruct (isCorrect r) eqn:E; [|done].
    destruct (proj1 Hiff eq_refl) as (o & [= <-] & Ho).
    rewrite Hq1 in Ho. by apply list_elem_of_singleton in Ho. }
  destruct (Hwrong Hc) as (Hpts & Hsb & _ & Hscore).
  exists r, w'. rewrite Hp0 in Hscore. by repeat split.
Defined.

(** C2 fails on the code: the second question of the concrete session is a
    multiple-choice question with the two correct options a and b; the
    single option a does not match that set as a whole, yet it is judged
    correct and earns the full 147 points, and the selection of both a and
    b, which matches the set, is judged incorrect. *)
Lemma recordAnswer_one_of_two_correct_options :
  currentQuestion <$> getSession "ABC123" w_question2 = Some (Some q2)
  ∧ ¬ matches_whole_set (SelString "a") q2
  ∧ (recordAnswer 2002000 "ABC123" "u2" (SelString "a") w_question2).1
    = Success {| isCorrect := true; pointsAwarded := 147; speedBonus := 47;
                 responseTimeMs := 2000; newScore := 147 |}
  ∧ matches_whole_set (SelArray ["a"; "b"]) q2
  ∧ (recordAnswer 2002000 "ABC123" "u2" (SelArray ["a"; "b"]) w_question2).1
    = Success {| isCorrect := false; pointsAwarded := 0; speedBonus := 0;
                 responseTimeMs := 2000; newScore := 0 |}.
Proof.
  split; [by vm_compute |]. split; [|split; [by vm_compute |split; [done |by vm_compute]]].
  intros Hwhole. destruct (Hwhole "b") as [_ Hb]. simpl in Hb.
  assert (Hin : "b" ∈ ["a"; "b"]) by set_solver.
  apply Hb in Hin. by apply list_elem_of_singleton in Hin.
Qed.

(* ===================================================================== *)
(** ** Rejected submissions *)
(* ===================================================================== *)

(** A rejected submission never changes the state. *)
Lemma recordAnswer_Error now code oid sel w msg w' :
  recordAnswer now code oid sel w = (Error msg, w') → w' = w.
Proof.
  unfold recordAnswer. intros H.
  destruct (activeSessions w !! code) as [session|]; [|by injection H].
  destruct (jsmap_get oid (participants session)) as [p|]; [|by injection H].
  destruct (hasAnsweredCurrent p); [by injection H |].
  destruct (_ <? _); [by injection H |].
  destruct (currentQuestion session); [done | by injection H].
Qed.

(** C4.  A submission later than the time limit plus the 1000 ms tolerance
    is refused and leaves the whole state, hence the score and the
    per-question fields of the participant, as it was, whatever timers are
    pending; for a registered participant who has not answered the question
    the refusal is the late-answer error. *)
Theorem recordAnswer_late now code oid sel w session :
  activeSessions w !! code = Some session →
  timePerQuestion session * 1000 + 1000
  < now - default 0 (questionStartTime session) →
  (∃ msg, recordAnswer now code oid sel w = (Error msg, w))
  ∧ (∀ participant,
       jsmap_get oid (participants session) = Some participant →
       hasAnsweredCurrent participant = false →
       recordAnswer now code oid sel w
       = (Error "Time expired for this question", w)).
Proof.
  intros Hs Hlate. unfold recordAnswer. rewrite Hs.
  apply Z.ltb_lt in Hlate.
  split.
  - destruct (jsmap_get oid (participants session)) as [p|]; [|by eexists].
    destruct (hasAnsweredCurrent p); [by eexists |].
    rewrite Hlate. by eexists.
  - intros p -> ->. by rewrite Hlate.
Qed.

(** Scenario C: an answer 31500 ms after the start of a 30 s question,
    while the timer of the question is still pending. *)
Lemma recordAnswer_late_witness :
  timers w_question1 !! 0%nat = Some (QuestionEnd "ABC123")
  ∧ recordAnswer 1031500 "ABC123" "u1" (SelString "b") w_question1
    = (Error "Time expired for this question", w_question1).
Proof.
  split; [by vm_compute |].
  edestruct (recordAnswer_late 1031500 "ABC123" "u1" (SelString "b")
               w_question1) as [_ Hlate].
  - vm_compute. reflexivity.
  - vm_compute. reflexivity.
  - eapply Hlate; vm_compute; reflexivity.
Defined.

(* ===================================================================== *)
(** ** Leaderboard *)
(* ===================================================================== *)

Section ArraySortFacts.
Context {A : Type}.
Variable cmp : A → A → Z.

Lemma sort_insert_perm x l : sort_insert cmp x l ≡ₚ x :: l.
Proof.
  induction l as [|y l IH]; simpl; [done |].
  destruct (0 <? cmp x y); [|done].
  rewrite IH. apply Permutation_swap.
Qed.

Lemma Array_sort_perm l : Array_sort cmp l ≡ₚ l.
Proof.
  induction l as [|x l IH]; simpl; [done |].
  rewrite sort_insert_perm. by constructor.
Qed.

Hypothesis cmp_total : ∀ a b, 0 < cmp a b → cmp b a <= 0.
Hypothesis cmp_trans : ∀ a b c, cmp a b <= 0 → cmp b c <= 0 → cmp a c <= 0.

Lemma sort_insert_sorted x l :
  StronglySorted (λ a b, cmp a b <= 0) l →
  StronglySorted (λ a b, cmp a b <= 0) (sort_insert cmp x l).
Proof.
  induction 1 as [|y l Hl IH Hy]; simpl.
  - repeat constructor.
  - destruct (Z.ltb_spec 0 (cmp x y)) as [Hgt|Hle].
    + constructor; [exact IH |].
      rewrite sort_insert_perm. constructor; [by apply cmp_total | exact Hy].
    + constructor; [by constructor |].
      constructor; [exact Hle |].
      eapply Forall_impl; [exact Hy |]. intros z Hz. by eapply cmp_trans.
Qed.

Lemma Array_sort_sorted l :
  StronglySorted (λ a b, cmp a b <= 0) (Array_sort cmp l).
Proof.
  induction l as [|x l IH]; simpl; [constructor |].
  by apply sort_insert_sorted.
Qed.
End ArraySortFacts.

(** The comparator is the order of the specification. *)
Lemma compareParticipants_ranked lc a b :
  compareParticipants lc a b <= 0 ↔ ranked_before lc a b.
Proof.
  unfold compareParticipants, ranked_before.
  destruct (Z.eqb_spec (score b) (score a)); simpl; [|lia].
  destruct (Z.eqb_spec (correctAnswers b) (correctAnswers a)); simpl; lia.
Qed.

Lemma StronglySorted_weaken {A} (R1 R2 : A → A → Prop) l :
  (∀ a b, R1 a b → R2 a b) → StronglySorted R1 l → StronglySorted R2 l.
Proof.
  intros HR. induction 1 as [|x l Hl IH Hx]; constructor; [exact IH |].
  eapply Forall_impl; [exact Hx | auto].
Qed.

Lemma imap_lookup_Some {A B} (f : nat → A → B) (l : list A) i y :
  imap f l !! i = Some y → ∃ x, l !! i = Some x ∧ y = f i x.
Proof.
  rewrite list_lookup_imap. destruct (l !! i) as [x|]; simpl; [|done].
  intros [= <-]. by exists x.
Qed.

Section LeaderboardFacts.
Variable localeCompare : string → string → Z.
Hypothesis localeCompare_total :
  ∀ a b, 0 < localeCompare a b → localeCompare b a <= 0.
Hypothesis localeCompare_trans :
  ∀ a b c, localeCompare a b <= 0 → localeCompare b c <= 0 →
           localeCompare a c <= 0.

Lemma compareParticipants_total a b :
  0 < compareParticipants localeCompare a b →
  compareParticipants localeCompare b a <= 0.
Proof.
  unfold compareParticipants.
  destruct (Z.eqb_spec (score b) (score a)), (Z.eqb_spec (score a) (score b));
    simpl; try lia.
  destruct (Z.eqb_spec (correctAnswers b) (correctAnswers a)),
           (Z.eqb_spec (correctAnswers a) (correctAnswers b));
    simpl; try lia.
  apply localeCompare_total.
Qed.

Lemma compareParticipants_trans a b c :
  compareParticipants localeCompare a b <= 0 →
  compareParticipants localeCompare b c <= 0 →
  compareParticipants localeCompare a c <= 0.
Proof.
  rewrite !compareParticipants_ranked. unfold ranked_before.
  intros Hab Hbc.
  destruct Hab as [?|[? [?|[? Hab]]]], Hbc as [?|[? [?|[? Hbc]]]]; try lia.
  right. split; [lia |]. right. split; [lia |].
  by eapply localeCompare_trans.
Qed.

(** C5, as the code has it.  The leaderboard lists the participants sorted
    by score descending, then correct answers descending, then name
    ascending, cut to the first [limit], and the rank of an entry is its
    position, counted from 1: ranks are consecutive and never shared. *)
Theorem getLeaderboard_sorted_positions code limit w session :
  activeSessions w !! code = Some session →
  ∃ sorted,
    sorted ≡ₚ jsmap_values (participants session)
    ∧ StronglySorted (ranked_before localeCompare) sorted
    ∧ getLeaderboard localeCompare code limit w
      = imap leaderboardEntry (take limit sorted)
    ∧ length (getLeaderboard localeCompare code limit w)
      = (limit `min` jsmap_size (participants session))%nat
    ∧ ∀ i e, getLeaderboard localeCompare code limit w !! i = Some e →
             lb_rank e = Z.of_nat i + 1.
Proof.
  intros Hs. unfold getLeaderboard. rewrite Hs.
  set (sorted := Array_sort (compareParticipants localeCompare)
                   (jsmap_values (participants session))).
  assert (Hperm : sorted ≡ₚ jsmap_values (participants session))
    by apply Array_sort_perm.
  exists sorted. repeat split.
  - exact Hperm.
  - eapply StronglySorted_weaken;
      [| apply Array_sort_sorted;
         [apply compareParticipants_total | apply compareParticipants_trans]].
    intros a b. simpl. apply compareParticipants_ranked.
  - rewrite length_imap, length_take, Hperm.
    unfold jsmap_values, jsmap_size. by rewrite length_fmap.
  - intros i e (p & _ & ->)%imap_lookup_Some. done.
Qed.
End LeaderboardFacts.

Lemma codeUnitCompare_total a b :
  0 < codeUnitCompare a b → codeUnitCompare b a <= 0.
Proof.
  revert b. induction a as [|x a IH]; intros [|y b]; simpl; try lia.
  rewrite (Nat.compare_antisym (Ascii.nat_of_ascii x) (Ascii.nat_of_ascii y)).
  destruct (Ascii.nat_of_ascii x ?= Ascii.nat_of_ascii y)%nat; simpl;
    [apply IH | lia | lia].
Qed.

Lemma codeUnitCompare_trans a b c :
  codeUnitCompare a b <= 0 → codeUnitCompare b c <= 0 →
  codeUnitCompare a c <= 0.
Proof.
  revert b c. induction a as [|x a IH]; intros [|y b] [|z c]; simpl; try lia.
  destruct (Nat.compare_spec (Ascii.nat_of_ascii x) (Ascii.nat_of_ascii y))
    as [Hxy|Hxy|Hxy];
    destruct (Nat.compare_spec (Ascii.nat_of_ascii y) (Ascii.nat_of_ascii z))
    as [Hyz|Hyz|Hyz];
    destruct (Nat.compare_spec (Ascii.nat_of_ascii x) (Ascii.nat_of_ascii z))
    as [Hxz|Hxz|Hxz]; try lia.
  apply IH.
Qed.

Lemma getLeaderboard_sorted_positions_witness :
  length (getLeaderboard codeUnitCompare "ABC123" 10 w_tied) = 2%nat
  ∧ lb_rank <$> getLeaderboard codeUnitCompare "ABC123" 10 w_tied !! 1%nat
    = Some 2.
Proof.
  edestruct (getLeaderboard_sorted_positions codeUnitCompare
               codeUnitCompare_total codeUnitCompare_trans "ABC123" 10 w_tied)
    as (sorted & _ & _ & _ & Hlen & Hrank).
  - vm_compute. reflexivity.
  - split; [exact Hlen |].
    destruct (getLeaderboard codeUnitCompare "ABC123" 10 w_tied !! 1%nat)
      as [e|] eqn:He.
    + simpl. f_equal. exact (Hrank 1%nat e He).
    + apply lookup_ge_None in He. rewrite Hlen in He. simpl in He. lia.
Defined.

(** The leaderboard of the tied session: alice before bob, ranks 1 and 2. *)
Lemma getLeaderboard_tied :
  getLeaderboard codeUnitCompare "ABC123" 10 w_tied
  = [ {| lb_rank := 1; lb_oderId := "u1"; lb_userName := "alice";
         lb_userPhoto := None; lb_score := 147; lb_correctAnswers := 1;
         lb_totalAnswered := 1 |};
      {| lb_rank := 2; lb_oderId := "u2"; lb_userName := "bob";
         lb_userPhoto := None; lb_score := 147; lb_correctAnswers := 1;
         lb_totalAnswered := 1 |} ].
Proof. by vm_compute. Qed.

(** C5 as stated fails: alice and bob are tied on score and on correct
    answers and listed by name, yet their ranks are 1 and 2, so the ranks of
    the leaderboard are not the dense ranks of the specification. *)
Lemma getLeaderboard_ties_not_shared :
  ¬ dense_ranks (getLeaderboard codeUnitCompare "ABC123" 10 w_tied).
Proof.
  rewrite getLeaderboard_tied. intros Hdense.
  destruct (Hdense
              {| lb_rank := 1; lb_oderId := "u1"; lb_userName := "alice";
                 lb_userPhoto := None; lb_score := 147; lb_correctAnswers := 1;
                 lb_totalAnswered := 1 |}
              {| lb_rank := 2; lb_oderId := "u2"; lb_userName := "bob";
                 lb_userPhoto := None; lb_score := 147; lb_correctAnswers := 1;
                 lb_totalAnswered := 1 |}) as [_ Hshare].
  - set_solver.
  - set_solver.
  - by specialize (Hshare (conj eq_refl eq_refl)).
Qed.

(* ===================================================================== *)
(** ** Advancing to the next question *)
(* ===================================================================== *)

(** The session object and the timer table after [advanceQuestion]. *)
Lemma advanceQuestion_session now code w session :
  activeSessions w !! code = Some session →
  ∃ session',
    activeSessions (advanceQuestion now code w) !! code = Some session'
    ∧ currentQuestionIndex session' = currentQuestionIndex session + 1
    ∧ questionStartTime session' = Some now
    ∧ participants session' = jsmap_forEach clearAnswer (participants session)
    ∧ questionTimer session' = None
    ∧ questions session' = questions session
    ∧ status session'
      = (if currentQuestionIndex session + 1 =? 0 then in_progress
         else status session)
    ∧ timers (advanceQuestion now code w)
      = timers (clearTimeout_opt (questionTimer session) w)
    ∧ nextTimer (advanceQuestion now code w) = nextTimer w.
Proof.
  intros Hs. unfold advanceQuestion. rewrite Hs. simpl.
  eexists. split; [apply lookup_put_session |].
  destruct (currentQuestionIndex session + 1 =? 0) eqn:E; simpl;
    repeat split; by destruct (questionTimer session).
Qed.

Lemma setQuestionTimer_session code act w session :
  activeSessions w !! code = Some session →
  activeSessions (setQuestionTimer code act w) !! code
  = Some (set_questionTimer session
            (Some (nextTimer (clearTimeout_opt (questionTimer session) w)))).
Proof.
  intros Hs. unfold setQuestionTimer. rewrite Hs. simpl.
  apply lookup_put_session.
Qed.

(** C6.  [question:next] from the host: at the last index it fails with the
    out-of-questions error and changes nothing; otherwise the pending
    question timer is cancelled, every participant's answer fields are
    cleared, the index grows by exactly one, the start time is now, the first
    call moves the session from lobby to in-progress, and the timer of the new
    question is armed. *)
Theorem question_next_advance now socket code w session :
  getSession code w = Some session →
  adminSocketId session = socket →
  (questionCount session - 1 <= currentQuestionIndex session →
   question_next now socket code w
   = (Error "No more questions. End the quiz.", w))
  ∧ (currentQuestionIndex session < questionCount session - 1 →
     ∃ session',
       getSession code (question_next now socket code w).2 = Some session'
       ∧ currentQuestionIndex session' = currentQuestionIndex session + 1
       ∧ questionStartTime session' = Some now
       ∧ participants session'
         = jsmap_forEach clearAnswer (participants session)
       ∧ (∀ oid p, jsmap_get oid (participants session') = Some p →
                   hasAnsweredCurrent p = false ∧ currentAnswer p = SelNull)
       ∧ jsmap_keys (participants session') = jsmap_keys (participants session)
       ∧ (∀ oid p, jsmap_get oid (participants session) = Some p →
            ∃ p', jsmap_get oid (participants session') = Some p'
                  ∧ hasAnsweredCurrent p' = false
                  ∧ currentAnswer p' = SelNull
                  ∧ oderId p' = oderId p
                  ∧ userName p' = userName p
                  ∧ userPhoto p' = userPhoto p
                  ∧ socketId p' = socketId p
                  ∧ score p' = score p
                  ∧ correctAnswers p' = correctAnswers p
                  ∧ totalAnswered p' = totalAnswered p
                  ∧ isConnected p' = isConnected p
                  ∧ joinedAt p' = joinedAt p
                  ∧ lastDisconnectedAt p' = lastDisconnectedAt p)
       ∧ (∀ t, questionTimer session = Some t →
               timers (advanceQuestion now code w) !! t = None)
       ∧ (status session = lobby → currentQuestionIndex session = -1 →
          status session' = in_progress)
       ∧ (-1 <= currentQuestionIndex session →
          (question_next now socket code w).1
          = Success (currentQuestionIndex session + 1)
          ∧ questionTimer session' = Some (nextTimer w)
          ∧ timers (question_next now socket code w).2
            = <[nextTimer w := QuestionEnd code]>
                (timers (clearTimeout_opt (questionTimer session) w)))).
Proof.
  unfold getSession. intros Hs Hadmin. unfold question_next, getSession.
  rewrite Hs. rewrite decide_False by (by intros ?).
  split.
  - intros Hlast. apply Z.leb_le in Hlast. by rewrite Hlast.
  - intros Hmore.
    destruct (Z.leb_spec (questionCount session - 1)
                (currentQuestionIndex session)) as [?|_]; [lia |].
    destruct (advanceQuestion_session now code w session Hs)
      as (s1 & Hs1 & Hidx & Hstart & Hparts & Htimer & Hqs & Hstatus
          & Htimers & Hnext).
    rewrite Hs1. simpl.
    assert (Hflags : ∀ oid p,
               jsmap_get oid (jsmap_forEach clearAnswer (participants session))
               = Some p →
               hasAnsweredCurrent p = false ∧ currentAnswer p = SelNull).
    { intros oid p. rewrite jsmap_get_forEach.
      destruct (jsmap_get oid (participants session)); simpl; [|done].
      by intros [= <-]. }
    assert (Hkept : ∀ oid p,
               jsmap_get oid (participants session) = Some p →
               ∃ p', jsmap_get oid
                       (jsmap_forEach clearAnswer (participants session))
                     = Some p'
                     ∧ hasAnsweredCurrent p' = false
                     ∧ currentAnswer p' = SelNull
                     ∧ oderId p' = oderId p
                     ∧ userName p' = userName p
                     ∧ userPhoto p' = userPhoto p
                     ∧ socketId p' = socketId p
                     ∧ score p' = score p
                     ∧ correctAnswers p' = correctAnswers p
                     ∧ totalAnswered p' = totalAnswered p
                     ∧ isConnected p' = isConnected p
                     ∧ joinedAt p' = joinedAt p
                     ∧ lastDisconnectedAt p' = lastDisconnectedAt p).
    { intros oid p Hp. rewrite jsmap_get_forEach, Hp. simpl.
      eexists. split; [reflexivity |]. by repeat split. }
    assert (Hcancel : ∀ t, questionTimer session = Some t →
                           timers (advanceQuestion now code w) !! t = None).
    { intros t Ht. rewrite Htimers, Ht. simpl. apply lookup_delete_eq. }
    assert (Hfirst : status session = lobby → currentQuestionIndex session = -1 →
                     status s1 = in_progress).
    { intros _ Hidx0. rewrite Hstatus, Hidx0. done. }
    destruct (currentQuestion s1) as [q|] eqn:Hq.
    + simpl. rewrite (setQuestionTimer_session _ _ _ s1 Hs1).
      eexists. split; [reflexivity |]. simpl.
      split; [exact Hidx |]. split; [exact Hstart |]. split; [exact Hparts |].
      split; [intros oid p; rewrite Hparts; apply Hflags |].
      split; [by rewrite Hparts, jsmap_keys_forEach |].
      split; [intros oid p Hp; rewrite Hparts; by apply Hkept |].
      split; [exact Hcancel |]. split; [exact Hfirst |].
      intros _. split; [done |].
      split; [rewrite Htimer; simpl; by rewrite Hnext |].
      unfold setQuestionTimer. rewrite Hs1, Htimer. simpl.
      by rewrite Hnext, Htimers.
    + simpl. rewrite Hs1. exists s1.
      split; [done |].
      split; [exact Hidx |]. split; [exact Hstart |]. split; [exact Hparts |].
      split; [intros oid p; rewrite Hparts; apply Hflags |].
      split; [by rewrite Hparts, jsmap_keys_forEach |].
      split; [intros oid p Hp; rewrite Hparts; by apply Hkept |].
      split; [exact Hcancel |]. split; [exact Hfirst |].
      intros Hlo. exfalso. revert Hq. unfold currentQuestion.
      rewrite Hidx, Hqs.
      destruct (Z.ltb_spec (currentQuestionIndex session + 1) 0); [lia |].
      intros Hnone%lookup_ge_None. unfold questionCount in Hmore. lia.
Qed.

Lemma question_next_advance_witness :
  question_next 3000000 "sock-admin" "ABC123" w_question2
  = (Error "No more questions. End the quiz.", w_question2)
  ∧ (∃ session',
       getSession "ABC123" (question_next 1000000 "sock-admin" "ABC123" w_lobby).2
       = Some session'
       ∧ currentQuestionIndex session' = 0
       ∧ status session' = in_progress)
  ∧ (∃ session' alice,
       getSession "ABC123" w_question2 = Some session'
       ∧ currentQuestionIndex session' = 1
       ∧ jsmap_keys (participants session') = ["u1"; "u2"]
       ∧ jsmap_get "u1" (participants session') = Some alice
       ∧ hasAnsweredCurrent alice = false
       ∧ currentAnswer alice = SelNull
       ∧ score alice = 147
       ∧ totalAnswered alice = 1).
Proof.
  split; [|split].
  - edestruct (question_next_advance 3000000 "sock-admin" "ABC123" w_question2)
      as [Hlast _].
    + vm_compute. reflexivity.
    + vm_compute. reflexivity.
    + apply Hlast. by vm_compute.
  - edestruct (question_next_advance 1000000 "sock-admin" "ABC123" w_lobby)
      as [_ Hmore].
    + vm_compute. reflexivity.
    + vm_compute. reflexivity.
    + destruct Hmore as (s' & Hs' & Hidx & _ & _ & _ & _ & _ & _ & Hfirst & _);
        [by vm_compute |].
      exists s'. split; [exact Hs' |]. split; [exact Hidx |].
      by apply Hfirst.
  - assert (Hs : getSession "ABC123" w_answered1
                 = Some (default (createSession 0 "" demoData emptyWorld).1
                           (getSession "ABC123" w_answered1)))
      by (vm_compute; reflexivity).
    destruct (question_next_advance 2000000 "sock-admin" "ABC123" w_answered1
                _ Hs) as [_ Hmore]; [vm_compute; reflexivity |].
    destruct Hmore
      as (s' & Hs' & Hidx & _ & _ & _ & Hkeys & Hkept & _);
      [vm_compute; reflexivity |].
    destruct (Hkept "u1"
                (default (newParticipant 0
                            {| pd_oderId := ""; pd_userName := "";
                               pd_userPhoto := None; pd_socketId := "" |})
                   (getParticipant "ABC123" "u1" w_answered1)))
      as (alice & Halice & Hflag & Hanswer & _ & _ & _ & _ & Hscore & _
          & Htotal & _); [vm_compute; reflexivity |].
    exists s', alice.
    split; [exact Hs' |]. split; [rewrite Hidx; vm_compute; reflexivity |].
    split; [rewrite Hkeys; vm_compute; reflexivity |].
    split; [exact Halice |]. split; [exact Hflag |]. split; [exact Hanswer |].
    split; [rewrite Hscore | rewrite Htotal]; vm_compute; reflexivity.
Defined.

(* ===================================================================== *)
(** ** Runs of commands: the question index and the answer flags *)
(* ===================================================================== *)

Lemma advances_refl s : advances s s.
Proof. by repeat split. Qed.

Lemma advances_trans s1 s2 s3 : advances s1 s2 → advances s2 s3 → advances s1 s3.
Proof.
  intros (Hq1 & Hi1 & Hr1 & Ha1) (Hq2 & Hi2 & Hr2 & Ha2). repeat split.
  - by rewrite Hq2.
  - lia.
  - auto.
  - intros Hsame oid Hoid. apply Ha2; [lia |]. apply Ha1; [lia | done].
Qed.

(** An update that keeps the questions and the index and takes no answer
    flag back. *)
Lemma advances_participants s s' :
  questions s' = questions s →
  currentQuestionIndex s' = currentQuestionIndex s →
  (∀ oid, has_answered oid s → has_answered oid s') →
  advances s s'.
Proof.
  intros Hq Hi Ha. unfold advances, in_range, questionCount.
  rewrite Hq, Hi. by repeat split.
Qed.

(** An update that keeps the questions, the index and the participants. *)
Lemma advances_same s s' :
  questions s' = questions s →
  currentQuestionIndex s' = currentQuestionIndex s →
  participants s' = participants s →
  advances s s'.
Proof.
  intros Hq Hi Hp. apply advances_participants; [done | done |].
  intros oid. unfold has_answered. by rewrite Hp.
Qed.

(** Writing one entry of the registry keeps the answer flags when the
    entry written does not take the flag of the entry it replaces back. *)
Lemma has_answered_set s s' k v :
  participants s' = jsmap_set k v (participants s) →
  (∀ p, jsmap_get k (participants s) = Some p →
        hasAnsweredCurrent p = true → hasAnsweredCurrent v = true) →
  ∀ oid, has_answered oid s → has_answered oid s'.
Proof.
  intros Hp Hv oid (p & Hget & Hflag). unfold has_answered. rewrite Hp.
  destruct (decide (oid = k)) as [->|Hne].
  - exists v. split; [apply jsmap_get_set_eq | by eapply Hv].
  - exists p. by rewrite jsmap_get_set_ne.
Qed.

Lemma evolves_refl w : evolves w w.
Proof. intros code s Hs. exists s. split; [done | apply advances_refl]. Qed.

Lemma evolves_trans w1 w2 w3 : evolves w1 w2 → evolves w2 w3 → evolves w1 w3.
Proof.
  intros H12 H23 code s3 Hs3.
  destruct (H23 code s3 Hs3) as (s2 & Hs2 & Ha23).
  destruct (H12 code s2 Hs2) as (s1 & Hs1 & Ha12).
  exists s1. split; [done | by eapply advances_trans].
Qed.

Lemma evolves_sessions w w' :
  activeSessions w' = activeSessions w → evolves w w'.
Proof. intros Heq code s Hs. rewrite Heq in Hs. exists s. split; [done | apply advances_refl]. Qed.

Lemma evolves_put w w0 code s s' :
  activeSessions w0 = activeSessions w →
  activeSessions w !! code = Some s →
  advances s s' →
  evolves w (put_session code s' w0).
Proof.
  intros Heq Hs Hadv code' s0 Hs0.
  destruct (decide (code = code')) as [<-|Hne].
  - rewrite lookup_put_session in Hs0. injection Hs0 as <-. by exists s.
  - rewrite lookup_put_session_ne, Heq in Hs0 by done.
    exists s0. split; [done | apply advances_refl].
Qed.

Lemma evolves_delete w w0 code :
  activeSessions w0 = activeSessions w →
  evolves w (with_sessions w0 (delete code (activeSessions w0))).
Proof.
  intros Heq code' s Hs. simpl in Hs.
  apply lookup_delete_Some in Hs as [_ Hs]. rewrite Heq in Hs.
  exists s. split; [done | apply advances_refl].
Qed.

Lemma evolves_setTimeout act w : evolves w (setTimeout act w).2.
Proof. by apply evolves_sessions. Qed.

Lemma evolves_bind_socket socket code oid w : evolves w (bind_socket socket code oid w).
Proof. by apply evolves_sessions. Qed.

Lemma evolves_updateParticipantConnection now code oid c sock w :
  evolves w (updateParticipantConnection now code oid c sock w).
Proof.
  unfold updateParticipantConnection.
  destruct (activeSessions w !! code) as [s|] eqn:Hs; [|apply evolves_refl].
  destruct (jsmap_get oid (participants s)) as [p|] eqn:Hp; [|apply evolves_refl].
  eapply evolves_put; [done | exact Hs |].
  apply advances_participants; [done | done |].
  eapply has_answered_set; [reflexivity |].
  intros p0. rewrite Hp. by intros [= <-].
Qed.

(** Registering an id that is not yet in the registry. *)
Lemma evolves_addParticipant now code pd w :
  getParticipant code (pd_oderId pd) w = None →
  evolves w (addParticipant now code pd w).2.
Proof.
  unfold addParticipant, getParticipant.
  destruct (activeSessions w !! code) as [s|] eqn:Hs; [|intros; apply evolves_refl].
  intros Hnew. eapply evolves_put; [done | exact Hs |].
  apply advances_participants; [done | done |].
  eapply has_answered_set; [reflexivity |].
  intros p0. by rewrite Hnew.
Qed.

Lemma evolves_recordAnswer now code oid sel w :
  evolves w (recordAnswer now code oid sel w).2.
Proof.
  destruct (recordAnswer now code oid sel w) as [[r|msg] w'] eqn:H; simpl.
  - apply recordAnswer_Success in H
      as (s & p & q & Hs & _ & _ & _ & _ & _ & _ & _ & _ & _ & ->).
    eapply evolves_put; [done | exact Hs |].
    apply advances_participants; [done | done |].
    by eapply has_answered_set.
  - apply recordAnswer_Error in H as ->. apply evolves_refl.
Qed.

Lemma evolves_clearQuestionTimer code w : evolves w (clearQuestionTimer code w).
Proof.
  unfold clearQuestionTimer.
  destruct (activeSessions w !! code) as [s|] eqn:Hs; [|apply evolves_refl].
  destruct (questionTimer s); [|apply evolves_refl].
  eapply evolves_put; [done | exact Hs | by apply advances_same].
Qed.

Lemma evolves_setQuestionTimer code act w : evolves w (setQuestionTimer code act w).
Proof.
  unfold setQuestionTimer.
  destruct (activeSessions w !! code) as [s|] eqn:Hs; [|apply evolves_refl].
  simpl. eapply evolves_put; [| exact Hs | by apply advances_same].
  simpl. apply activeSessions_clearTimeout_opt.
Qed.

Lemma evolves_endSession code w : evolves w (endSession code w).
Proof.
  unfold endSession.
  destruct (activeSessions w !! code) as [s|] eqn:Hs; [|apply evolves_refl].
  eapply evolves_put; [| exact Hs | by apply advances_same].
  by rewrite !activeSessions_clearTimeout_opt.
Qed.

Lemma evolves_removeSession code w : evolves w (removeSession code w).
Proof.
  unfold removeSession. apply evolves_delete.
  destruct (activeSessions w !! code); [|done].
  by rewrite !activeSessions_clearTimeout_opt.
Qed.

Lemma evolves_handleQuestionEnd code w : evolves w (handleQuestionEnd code w).
Proof.
  unfold handleQuestionEnd.
  destruct (getSession code w) as [s|]; [|apply evolves_refl].
  destruct (currentQuestion s); [|apply evolves_refl].
  destruct (_ <=? _); [apply evolves_setTimeout | apply evolves_refl].
Qed.

Lemma evolves_handleQuizComplete code w : evolves w (handleQuizComplete code w).
Proof.
  unfold handleQuizComplete.
  destruct (getSession code w) as [s|]; [|apply evolves_refl].
  case_decide; [apply evolves_refl |].
  eapply evolves_trans; [apply evolves_endSession | apply evolves_setTimeout].
Qed.

(** The only step that moves the index: one up, behind the bounds check. *)
Lemma evolves_question_next now socket code w :
  evolves w (question_next now socket code w).2.
Proof.
  unfold question_next.
  destruct (getSession code w) as [s|] eqn:Hs; [|apply evolves_refl].
  case_decide; [apply evolves_refl |].
  destruct (Z.leb_spec (questionCount s - 1) (currentQuestionIndex s))
    as [?|Hmore]; [apply evolves_refl |].
  assert (Hadv : evolves w (advanceQuestion now code w)).
  { unfold advanceQuestion. unfold getSession in Hs. rewrite Hs.
    eapply evolves_put; [apply activeSessions_clearTimeout_opt | exact Hs |].
    unfold advances, in_range, questionCount in *.
    destruct (_ =? 0); simpl; repeat split; lia. }
  destruct (getSession code (advanceQuestion now code w) ≫= currentQuestion);
    simpl; [|exact Hadv].
  eapply evolves_trans; [exact Hadv | apply evolves_setQuestionTimer].
Qed.

Lemma evolves_session_join now socket code oid name photo w :
  evolves w (session_join now socket code oid name photo w).2.
Proof.
  unfold session_join.
  case_decide; [apply evolves_refl |].
  destruct (getSession code w) as [s|]; [|apply evolves_refl].
  case_decide; [apply evolves_refl |].
  destruct (_ && _); [apply evolves_refl |].
  destruct (getParticipant code oid w) as [p|] eqn:Hnew.
  - assert (Hre : evolves w
              (bind_socket socket code oid
                 (updateParticipantConnection now code oid true (Some socket) w))).
    { eapply evolves_trans;
        [apply evolves_updateParticipantConnection | apply evolves_bind_socket]. }
    by destruct (_ && _).
  - pose proof (evolves_addParticipant now code
                  {| pd_oderId := oid; pd_userName := name;
                     pd_userPhoto := photo; pd_socketId := socket |} w Hnew)
      as Hadd.
    destruct (addParticipant _ _ _ _) as [[o|msg] w1]; simpl in *; [|done].
    eapply evolves_trans; [exact Hadd | apply evolves_bind_socket].
Qed.

Lemma evolves_answer_submit now socket code qi sel w :
  evolves w (answer_submit now socket code qi sel w).2.
Proof.
  unfold answer_submit.
  destruct (sockets w !! socket) as [f|]; [|apply evolves_refl].
  case_decide; [apply evolves_refl |].
  destruct (getSession code w) as [s|]; [|apply evolves_refl].
  case_decide; [apply evolves_refl |].
  pose proof (evolves_recordAnswer now code (sock_oderId f) sel w) as Hrec.
  by destruct (recordAnswer _ _ _ _ _) as [[r|msg] w1].
Qed.

Lemma evolves_step now c w : evolves w (step now c w).
Proof.
  destruct c; simpl.
  - apply evolves_session_join.
  - apply evolves_answer_submit.
  - apply evolves_question_next.
  - unfold question_skip. destruct (getSession code w); [|apply evolves_refl].
    case_decide; [apply evolves_refl |]. simpl.
    eapply evolves_trans;
      [apply evolves_clearQuestionTimer | apply evolves_handleQuestionEnd].
  - unfold session_end. destruct (getSession code w); [|apply evolves_refl].
    case_decide; [apply evolves_refl |]. apply evolves_handleQuizComplete.
  - unfold session_leave. destruct (sockets w !! socket); [|apply evolves_refl].
    case_decide; [apply evolves_refl |].
    apply evolves_updateParticipantConnection.
  - unfold fireTimer. destruct (timers w !! t) as [act|]; [|apply evolves_refl].
    eapply (evolves_trans _ (with_timers w (delete t (timers w))));
      [by apply evolves_sessions |].
    destruct act;
      [apply evolves_handleQuestionEnd | apply evolves_handleQuizComplete
       | apply evolves_removeSession].
Qed.

Lemma evolves_run cmds w : evolves w (run cmds w).
Proof.
  revert w. induction cmds as [|[now c] cmds IH]; intros w; simpl.
  - apply evolves_refl.
  - eapply evolves_trans; [apply evolves_step | apply IH].
Qed.

(** A participant who has answered the open question is refused. *)
Lemma recordAnswer_has_answered now code oid sel w s :
  activeSessions w !! code = Some s →
  has_answered oid s →
  recordAnswer now code oid sel w = (Error "Already answered this question", w).
Proof.
  intros Hs (p & Hp & Hflag). unfold recordAnswer. by rewrite Hs, Hp, Hflag.
Qed.

(** C3.  After an accepted answer, every further submission of the same
    participant for the same question is refused as a duplicate and changes
    nothing, so score, correctAnswers and totalAnswered stay: immediately,
    and also after any sequence of commands and timer events that leaves the
    session at the same question. *)
Theorem recordAnswer_duplicate now1 code oid sel1 w r w1 :
  recordAnswer now1 code oid sel1 w = (Success r, w1) →
  (∀ now2 sel2,
     recordAnswer now2 code oid sel2 w1
     = (Error "Already answered this question", w1))
  ∧ (∀ cmds now2 sel2 s1 s2,
       activeSessions w1 !! code = Some s1 →
       activeSessions (run cmds w1) !! code = Some s2 →
       currentQuestionIndex s2 = currentQuestionIndex s1 →
       recordAnswer now2 code oid sel2 (run cmds w1)
       = (Error "Already answered this question", run cmds w1))
  ∧ (∀ now2 sel2 fields socket qi,
       sockets w1 !! socket = Some fields →
       sock_oderId fields = oid →
       ∃ msg, answer_submit now2 socket code qi sel2 w1 = (Error msg, w1)).
Proof.
  intros H.
  apply recordAnswer_Success in H
    as (session & participant & question & Hs & Hp & _ & _ & _ & _ & _
        & _ & _ & _ & ->).
  set (s1 := set_participants session
               (jsmap_set oid
                  (answered participant sel1 (isCorrect r) (pointsAwarded r))
                  (participants session))).
  assert (Hs1 : activeSessions (put_session code s1 w) !! code = Some s1)
    by apply lookup_put_session.
  assert (Hans : has_answered oid s1).
  { eexists. split; [apply jsmap_get_set_eq | done]. }
  assert (Hdup : ∀ now2 sel2,
             recordAnswer now2 code oid sel2 (put_session code s1 w)
             = (Error "Already answered this question", put_session code s1 w)).
  { intros now2 sel2. by eapply recordAnswer_has_answered. }
  split; [exact Hdup |]. split.
  - intros cmds now2 sel2 s1' s2 Hs1' Hs2 Hidx.
    rewrite Hs1 in Hs1'. injection Hs1' as <-.
    destruct (evolves_run cmds _ code s2 Hs2) as (s0 & Hs0 & _ & _ & _ & Hkeep).
    rewrite Hs1 in Hs0. injection Hs0 as <-.
    eapply recordAnswer_has_answered; [exact Hs2 |]. by apply Hkeep.
  - intros now2 sel2 fields socket qi Hsock Hoid. unfold answer_submit.
    rewrite Hsock. case_decide; [by eexists |].
    unfold getSession. rewrite Hs1.
    case_decide; [by eexists |].
    rewrite Hoid, Hdup. by eexists.
Qed.

(** Alice has answered the first question of the late-join session; after
    she has left and joined again, her second answer is still a duplicate. *)
Lemma recordAnswer_duplicate_witness :
  recordAnswer 1009000 "LATE42" "u1" (SelString "a") w_late_answered
  = (Error "Already answered this question", w_late_answered)
  ∧ recordAnswer 1020000 "LATE42" "u1" (SelString "a")
      (run demoRejoin w_late_answered)
    = (Error "Already answered this question", run demoRejoin w_late_answered).
Proof.
  edestruct (recordAnswer_duplicate 1002000 "LATE42" "u1" (SelString "b")
               w_late_question1) as (Hnow & Hlater & _).
  - vm_compute. reflexivity.
  - split; [apply Hnow |].
    eapply Hlater.
    + vm_compute. reflexivity.
    + vm_compute. reflexivity.
    + vm_compute. reflexivity.
Defined.

(** C7.  A session starts in range (index -1), and along every sequence of
    join, answer, advance, skip, end and leave commands and timer events the
    index of a session never decreases and never exceeds the last question. *)
Theorem currentQuestionIndex_monotone_bounded :
  (∀ now code sd w, in_range (createSession now code sd w).1)
  ∧ ∀ cmds w code s s',
      activeSessions w !! code = Some s →
      currentQuestionIndex s <= questionCount s - 1 →
      activeSessions (run cmds w) !! code = Some s' →
      currentQuestionIndex s <= currentQuestionIndex s'
      ∧ currentQuestionIndex s' <= questionCount s' - 1.
Proof.
  split.
  - intros now code sd w. unfold in_range, questionCount. simpl. lia.
  - intros cmds w code s s' Hs Hrange Hs'.
    destruct (evolves_run cmds w code s' Hs')
      as (s0 & Hs0 & _ & Hidx & Hkeep & _).
    rewrite Hs in Hs0. injection Hs0 as <-.
    split; [exact Hidx | by apply Hkeep].
Qed.

Lemma currentQuestionIndex_monotone_bounded_witness :
  ∃ s', activeSessions (run demoCommands w_created) !! "ABC123" = Some s'
        ∧ -1 <= currentQuestionIndex s'
        ∧ currentQuestionIndex s' <= questionCount s' - 1.
Proof.
  edestruct (proj2 currentQuestionIndex_monotone_bounded demoCommands w_created
               "ABC123") as [Hlow Hhigh].
  - vm_compute. reflexivity.
  - by vm_compute.
  - vm_compute. reflexivity.
  - eexists. split; [vm_compute; reflexivity |].
    split; [exact Hlow | exact Hhigh].
Defined.

(* ===================================================================== *)
(** ** Joining and reconnecting *)
(* ===================================================================== *)

(** The session object after [updateParticipantConnection] on a registered
    participant: the one entry is updated in place. *)
Lemma updateParticipantConnection_session now code oid c sock w session p :
  activeSessions w !! code = Some session →
  jsmap_get oid (participants session) = Some p →
  updateParticipantConnection now code oid c sock w
  = put_session code
      (set_participants session
         (jsmap_set oid (connection now p c sock) (participants session))) w.
Proof. intros Hs Hp. unfold updateParticipantConnection. by rewrite Hs, Hp. Qed.

(** A join under a registered id never reaches [addParticipant]: either it
    is refused and nothing changes, or the connection of the existing entry
    is updated. *)
Lemma session_join_existing now socket code oid name photo w session p :
  getSession code w = Some session →
  jsmap_get oid (participants session) = Some p →
  (session_join now socket code oid name photo w).2 = w
  ∨ (session_join now socket code oid name photo w).2
    = bind_socket socket code oid
        (put_session code
           (set_participants session
              (jsmap_set oid (connection now p true (Some socket))
                 (participants session))) w).
Proof.
  intros Hs Hp. unfold session_join. rewrite Hs.
  case_decide; [by left |].
  case_decide; [by left |].
  destruct (_ && _); [by left |].
  unfold getParticipant. unfold getSession in Hs. rewrite Hs, Hp.
  rewrite (updateParticipantConnection_session _ _ _ _ _ _ session p Hs Hp).
  right. by destruct (_ && _).
Qed.

(** Whatever the reply, the registry keeps its keys and the entry keeps its
    score and counters. *)
Lemma session_join_existing_keeps now socket code oid name photo w session p :
  getSession code w = Some session →
  jsmap_get oid (participants session) = Some p →
  ∃ session' p',
    getSession code (session_join now socket code oid name photo w).2
    = Some session'
    ∧ jsmap_keys (participants session') = jsmap_keys (participants session)
    ∧ jsmap_get oid (participants session') = Some p'
    ∧ score p' = score p
    ∧ correctAnswers p' = correctAnswers p
    ∧ totalAnswered p' = totalAnswered p
    ∧ hasAnsweredCurrent p' = hasAnsweredCurrent p
    ∧ currentAnswer p' = currentAnswer p.
Proof.
  intros Hs Hp.
  destruct (session_join_existing now socket code oid name photo w session p
              Hs Hp) as [-> | ->].
  - exists session, p. by repeat split.
  - unfold getSession. simpl. rewrite lookup_insert_eq.
    eexists _, _. split; [reflexivity |]. simpl.
    split; [apply jsmap_keys_set_present; by rewrite Hp |].
    split; [apply jsmap_get_set_eq |]. by repeat split.
Qed.

(** C8, as the code has it.  A repeated join under a registered id never
    adds an entry and never changes score, correctAnswers or totalAnswered.
    When the join passes the gate of the handler (all fields present, session
    neither completed nor interrupted, and not in progress unless late joins
    are allowed) it is a reconnection: the entry is connected again and
    carries the new socket id.  On a completed or interrupted session the
    join is refused and nothing changes. *)
Theorem session_join_reconnect now socket code oid name photo w session p :
  getSession code w = Some session →
  jsmap_get oid (participants session) = Some p →
  code ≠ "" → oid ≠ "" → name ≠ "" → socket ≠ "" →
  (∃ session' p',
     getSession code (session_join now socket code oid name photo w).2
     = Some session'
     ∧ jsmap_keys (participants session') = jsmap_keys (participants session)
     ∧ jsmap_get oid (participants session') = Some p'
     ∧ score p' = score p
     ∧ correctAnswers p' = correctAnswers p
     ∧ totalAnswered p' = totalAnswered p
     ∧ (status session ≠ completed → status session ≠ interrupted →
        (status session = in_progress → allowLateJoin session = true) →
        isConnected p' = true ∧ socketId p' = socket
        ∧ (in_range session →
           ∃ ok, (session_join now socket code oid name photo w).1 = Success ok
                 ∧ jo_reconnected ok = true
                 ∧ jo_yourScore ok = Some (score p))))
  ∧ (status session = completed ∨ status session = interrupted →
     session_join now socket code oid name photo w
     = (Error "This quiz session has ended", w)).
Proof.
  intros Hs Hp Hcode Hoid Hname Hsock. split.
  - destruct (session_join_existing_keeps now socket code oid name photo w
                session p Hs Hp)
      as (s' & p' & Hs' & Hkeys & Hp' & Hscore & Hcorrect & Htotal & _).
    exists s', p'. do 6 (split; [done |]).
    intros Hnc Hni Hlate.
    revert Hs' Hp'. unfold session_join. rewrite Hs.
    rewrite decide_False by tauto. rewrite decide_False by tauto.
    assert (Hgate : bool_decide (status session = in_progress)
                    && negb (allowLateJoin session) = false).
    { case_bool_decide; simpl; [|done]. by rewrite Hlate. }
    rewrite Hgate. unfold getParticipant. unfold getSession in Hs.
    rewrite Hs, Hp.
    rewrite (updateParticipantConnection_session _ _ _ _ _ _ session p Hs Hp).
    assert (Hw2 : ∀ r : Reply JoinOk * World, r.2
                  = bind_socket socket code oid
                      (put_session code
                         (set_participants session
                            (jsmap_set oid (connection now p true (Some socket))
                               (participants session))) w) →
                  getSession code r.2 = Some s' →
                  jsmap_get oid (participants s') = Some p' →
                  isConnected p' = true ∧ socketId p' = socket).
    { intros r -> Hs' Hp'. unfold getSession in Hs'. simpl in Hs'.
      rewrite lookup_insert_eq in Hs'. injection Hs' as <-. simpl in Hp'.
      rewrite jsmap_get_set_eq in Hp'. injection Hp' as <-. simpl.
      by rewrite decide_False. }
    destruct (bool_decide (status session = in_progress)
              && (0 <=? currentQuestionIndex session)) eqn:Hopen.
    + destruct (bool_decide (is_Some (currentQuestion session))) eqn:Hq; simpl.
      * intros Hs' Hp'. destruct (Hw2 (Error "", _) eq_refl Hs' Hp') as [? ?].
        repeat split; try done. intros _. by eexists.
      * intros Hs' Hp'. destruct (Hw2 (Error "", _) eq_refl Hs' Hp') as [? ?].
        repeat split; try done. intros Hrange. exfalso.
        apply bool_decide_eq_false in Hq. apply Hq.
        apply andb_true_iff in Hopen as [_ Hidx%Z.leb_le].
        unfold in_range, questionCount in Hrange. unfold currentQuestion.
        destruct (Z.ltb_spec (currentQuestionIndex session) 0); [lia |].
        apply lookup_lt_is_Some. lia.
    + simpl. intros Hs' Hp'. destruct (Hw2 (Error "", _) eq_refl Hs' Hp') as [? ?].
      repeat split; try done. intros _. by eexists.
  - intros Hended. unfold session_join. rewrite Hs.
    rewrite decide_False by tauto. by rewrite decide_True.
Qed.

(** Alice, who left with 147 points while the first question of the
    late-join session was open, joins again from a new socket. *)
Lemma session_join_reconnect_witness :
  isConnected <$> getParticipant "LATE42" "u1" w_late_left = Some false
  ∧ ∃ session' p',
      getSession "LATE42"
        (session_join 1008000 "sock-alice-2" "LATE42" "u1" "alice" None
           w_late_left).2 = Some session'
      ∧ jsmap_keys (participants session') = ["u1"]
      ∧ jsmap_get "u1" (participants session') = Some p'
      ∧ score p' = 147
      ∧ isConnected p' = true
      ∧ socketId p' = "sock-alice-2".
Proof.
  split; [by vm_compute |].
  edestruct (session_join_reconnect 1008000 "sock-alice-2" "LATE42" "u1"
               "alice" None w_late_left)
    as [(s' & p' & Hs' & Hkeys & Hp' & Hscore & _ & _ & Hre) _].
  - vm_compute. reflexivity.
  - vm_compute. reflexivity.
  - done.
  - done.
  - done.
  - done.
  - destruct Hre as (Hconn & Hsock & _); [by vm_compute .. |].
    exists s', p'. by repeat split.
Defined.

(** C8 as stated fails: alice is registered and disconnected when the
    session is completed; her repeated join is refused and she stays
    disconnected. *)
Lemma session_join_ended_stays_disconnected :
  isConnected <$> getParticipant "ABC123" "u1" w_ended = Some false
  ∧ (session_join 2010000 "sock-alice-2" "ABC123" "u1" "alice" None w_ended).1
    = Error "This quiz session has ended"
  ∧ ¬ (isConnected <$>
         getParticipant "ABC123" "u1"
           (session_join 2010000 "sock-alice-2" "ABC123" "u1" "alice" None
              w_ended).2
       = Some true).
Proof. repeat split; by vm_compute. Qed.

(** While the session is in progress and late joins are off, the same
    repeated join is refused as a late join. *)
Lemma session_join_in_progress_refused :
  status <$> getSession "ABC123" w_left = Some in_progress
  ∧ allowLateJoin <$> getSession "ABC123" w_left = Some false
  ∧ session_join 2006000 "sock-alice-2" "ABC123" "u1" "alice" None w_left
    = (Error "This quiz has already started. Late joining is not allowed.",
       w_left).
Proof. repeat split; by vm_compute. Qed.

(* ===================================================================== *)
(** ** Creating sessions and registering participants *)
(* ===================================================================== *)

Lemma generateUniqueSessionCode_loop_fresh draw attempts left w code :
  generateUniqueSessionCode_loop draw attempts left w = Returns code →
  activeSessions w !! code = None.
Proof.
  revert attempts. induction left as [|left IH]; intros attempts; simpl; [done |].
  case_decide as Hused; [apply IH |].
  intros [= <-]. by apply eq_None_not_Some.
Qed.

(** C9, as the code has it.  [createSession] never fails: it stores a fresh
    lobby session under the code, in place of any session registered under
    it, and leaves the other codes alone.  Codes are kept unique by
    [generateUniqueSessionCode], which returns only codes absent from the
    registry, so [session:create] leaves every existing session as it is. *)
Theorem createSession_overwrites :
  (∀ now code sd w,
     activeSessions (createSession now code sd w).2 !! code
     = Some (createSession now code sd w).1
     ∧ status (createSession now code sd w).1 = lobby
     ∧ currentQuestionIndex (createSession now code sd w).1 = -1
     ∧ participants (createSession now code sd w).1 = []
     ∧ ∀ code', code' ≠ code →
         activeSessions (createSession now code sd w).2 !! code'
         = activeSessions w !! code')
  ∧ (∀ draw w code,
       generateUniqueSessionCode draw w = Returns code →
       activeSessions w !! code = None)
  ∧ (∀ now draw socket userData quizIdArg quiz dbId w code s,
       activeSessions w !! code = Some s →
       activeSessions
         (session_create now draw socket userData quizIdArg quiz dbId w).2
       !! code = Some s).
Proof.
  split; [|split].
  - intros now code sd w. simpl. split; [apply lookup_insert_eq |].
    repeat split. intros code' Hne. by apply lookup_insert_ne.
  - intros draw w code. apply generateUniqueSessionCode_loop_fresh.
  - intros now draw socket userData quizIdArg quiz dbId w code s Hs.
    unfold session_create.
    destruct userData as [ud|]; [|done].
    destruct (ud_isAdmin ud); simpl; [|done].
    case_decide; [done |].
    destruct quiz as [q|]; [|done].
    destruct (generateUniqueSessionCode draw w) as [fresh|msg] eqn:Hgen; [|done].
    apply generateUniqueSessionCode_loop_fresh in Hgen. simpl.
    rewrite lookup_insert_ne; [done |]. intros ->. by rewrite Hs in Hgen.
Qed.

Lemma createSession_overwrites_witness :
  generateUniqueSessionCode
    (λ i, match i with O => "ABC123" | _ => "XYZ789" end) w_tied
  = Returns "XYZ789"
  ∧ activeSessions w_tied !! "XYZ789" = None.
Proof.
  assert (H : generateUniqueSessionCode
                (λ i, match i with O => "ABC123" | _ => "XYZ789" end) w_tied
              = Returns "XYZ789") by (vm_compute; reflexivity).
  split; [exact H |].
  exact (proj1 (proj2 createSession_overwrites) _ _ _ H).
Defined.

(** C9 as stated fails: the code ABC123 is taken by a session with two
    participants at its first question; creating a session under ABC123
    again succeeds and the registry then holds an empty lobby under it. *)
Lemma createSession_replaces_existing :
  getParticipantCount "ABC123" w_tied = 2%nat
  ∧ currentQuestionIndex <$> getSession "ABC123" w_tied = Some 0
  ∧ getSession "ABC123" (createSession 5000000 "ABC123" demoData w_tied).2
    = Some (createSession 5000000 "ABC123" demoData w_tied).1
  ∧ getParticipantCount "ABC123"
      (createSession 5000000 "ABC123" demoData w_tied).2 = 0%nat
  ∧ currentQuestionIndex (createSession 5000000 "ABC123" demoData w_tied).1
    = -1
  ∧ getSession "ABC123" (createSession 5000000 "ABC123" demoData w_tied).2
    ≠ getSession "ABC123" w_tied.
Proof. repeat split; by vm_compute. Qed.

(** C10.  [addParticipant] under a registered id puts a fresh entry in the
    place of the existing one: score, correctAnswers and totalAnswered 0 and
    hasAnsweredCurrent false, with no entry added.  [session:join] looks the
    id up first and, finding it, leaves score, counters and answer flag as
    they are. *)
Theorem addParticipant_resets_existing now code pd w session p :
  activeSessions w !! code = Some session →
  jsmap_get (pd_oderId pd) (participants session) = Some p →
  (∃ session' p',
     activeSessions (addParticipant now code pd w).2 !! code = Some session'
     ∧ jsmap_keys (participants session') = jsmap_keys (participants session)
     ∧ jsmap_get (pd_oderId pd) (participants session') = Some p'
     ∧ p' = newParticipant now pd
     ∧ score p' = 0 ∧ correctAnswers p' = 0 ∧ totalAnswered p' = 0
     ∧ hasAnsweredCurrent p' = false)
  ∧ (∃ session' p',
       getSession code
         (session_join now (pd_socketId pd) code (pd_oderId pd)
            (pd_userName pd) (pd_userPhoto pd) w).2 = Some session'
       ∧ jsmap_keys (participants session') = jsmap_keys (participants session)
       ∧ jsmap_get (pd_oderId pd) (participants session') = Some p'
       ∧ score p' = score p
       ∧ correctAnswers p' = correctAnswers p
       ∧ totalAnswered p' = totalAnswered p
       ∧ hasAnsweredCurrent p' = hasAnsweredCurrent p).
Proof.
  intros Hs Hp. split.
  - unfold addParticipant. rewrite Hs. simpl. rewrite lookup_insert_eq.
    eexists _, _. split; [reflexivity |]. simpl.
    split; [apply jsmap_keys_set_present; by rewrite Hp |].
    split; [apply jsmap_get_set_eq |]. by repeat split.
  - destruct (session_join_existing_keeps now (pd_socketId pd) code
                (pd_oderId pd) (pd_userName pd) (pd_userPhoto pd) w session p
                Hs Hp)
      as (s' & p' & Hs' & Hkeys & Hp' & Hscore & Hcorrect & Htotal & Hflag & _).
    by exists s', p'.
Qed.

Lemma addParticipant_resets_existing_witness :
  score <$> getParticipant "ABC123" "u1" w_tied = Some 147
  ∧ score <$>
      getParticipant "ABC123" "u1"
        (addParticipant 1005000 "ABC123"
           {| pd_oderId := "u1"; pd_userName := "alice"; pd_userPhoto := None;
              pd_socketId := "sock-alice-2" |} w_tied).2
    = Some 0.
Proof.
  split; [by vm_compute |].
  edestruct (addParticipant_resets_existing 1005000 "ABC123"
               {| pd_oderId := "u1"; pd_userName := "alice";
                  pd_userPhoto := None; pd_socketId := "sock-alice-2" |}
               w_tied)
    as [(s' & p' & Hs' & _ & Hp' & _ & Hscore & _) _].
  - vm_compute. reflexivity.
  - vm_compute. reflexivity.
  - unfold getParticipant. rewrite Hs'. simpl in Hp'. rewrite Hp'. simpl.
    by rewrite Hscore.
Defined.

(* ===================================================================== *)
(** ** Session codes *)
(* ===================================================================== *)

Lemma generateUniqueSessionCode_loop_first draw attempts left w i :
  (i < left)%nat →
  activeSessions w !! draw (attempts + i)%nat = None →
  (∀ j, (j < i)%nat → is_Some (activeSessions w !! draw (attempts + j)%nat)) →
  generateUniqueSessionCode_loop draw attempts left w
  = Returns (draw (attempts + i)%nat).
Proof.
  revert attempts i. induction left as [|left IH]; intros attempts i Hi Hfree Hused;
    [lia |]. simpl.
  destruct i as [|i].
  - rewrite Nat.add_0_r in *. rewrite decide_False; [done |].
    rewrite Hfree. by intros [? ?].
  - rewrite decide_True.
    + replace (attempts + S i)%nat with (S attempts + i)%nat in * by lia.
      apply IH; [lia | done |].
      intros j Hj. replace (S attempts + j)%nat with (attempts + S j)%nat by lia.
      apply Hused. lia.
    + specialize (Hused O). rewrite Nat.add_0_r in Hused. apply Hused. lia.
Qed.

Lemma generateUniqueSessionCode_loop_exhausted draw attempts left w :
  (∀ j, (j < left)%nat → is_Some (activeSessions w !! draw (attempts + j)%nat)) →
  generateUniqueSessionCode_loop draw attempts left w
  = Throws "Failed to generate unique session code".
Proof.
  revert attempts. induction left as [|left IH]; intros attempts Hused; [done |].
  simpl. rewrite decide_True.
  - apply IH. intros j Hj.
    replace (S attempts + j)%nat with (attempts + S j)%nat by lia.
    apply Hused. lia.
  - specialize (Hused O). rewrite Nat.add_0_r in Hused. apply Hused. lia.
Qed.

Lemma generateUniqueSessionCode_loop_throws draw attempts left w msg :
  generateUniqueSessionCode_loop draw attempts left w = Throws msg →
  ∀ j, (j < left)%nat → is_Some (activeSessions w !! draw (attempts + j)%nat).
Proof.
  revert attempts. induction left as [|left IH]; intros attempts Hthrow j Hj;
    [lia |]. simpl in Hthrow.
  case_decide as Hused; [|done].
  destruct j as [|j]; [by rewrite Nat.add_0_r |].
  replace (attempts + S j)%nat with (S attempts + j)%nat by lia.
  apply IH; [done | lia].
Qed.

(** X1.  [generateUniqueSessionCode] returns the first of its first 100
    draws that is not a registered code, and throws exactly when all of the
    first 100 draws are registered; it never returns a registered code. *)
Theorem generateUniqueSessionCode_first_free draw w :
  (∀ i, (i < 100)%nat →
     activeSessions w !! draw i = None →
     (∀ j, (j < i)%nat → is_Some (activeSessions w !! draw j)) →
     generateUniqueSessionCode draw w = Returns (draw i))
  ∧ ((∀ j, (j < 100)%nat → is_Some (activeSessions w !! draw j)) ↔
     generateUniqueSessionCode draw w
     = Throws "Failed to generate unique session code")
  ∧ (∀ code, generateUniqueSessionCode draw w = Returns code →
       sessionExists code w = false).
Proof.
  split; [|split].
  - intros i Hi Hfree Hused.
    apply (generateUniqueSessionCode_loop_first draw 0 100 w i Hi Hfree Hused).
  - split.
    + intros Hused. by apply generateUniqueSessionCode_loop_exhausted.
    + intros Hthrow j Hj.
      apply (generateUniqueSessionCode_loop_throws draw 0 100 w _ Hthrow j Hj).
  - intros code Hret. unfold sessionExists.
    apply generateUniqueSessionCode_loop_fresh in Hret. rewrite Hret.
    apply bool_decide_eq_false. by intros [? ?].
Qed.

Lemma generateUniqueSessionCode_first_free_witness :
  generateUniqueSessionCode
    (λ i, match i with O => "ABC123" | _ => "XYZ789" end) w_tied
  = Returns "XYZ789"
  ∧ sessionExists "XYZ789" w_tied = false.
Proof.
  destruct (generateUniqueSessionCode_first_free
              (λ i, match i with O => "ABC123" | _ => "XYZ789" end) w_tied)
    as (Hfirst & _ & Hfresh).
  assert (H : generateUniqueSessionCode
                (λ i, match i with O => "ABC123" | _ => "XYZ789" end) w_tied
              = Returns "XYZ789").
  { apply (Hfirst 1%nat); [lia | by vm_compute |].
    intros j Hj. assert (j = O) as -> by lia. vm_compute. by eexists. }
  split; [exact H | by apply Hfresh].
Defined.

(* ===================================================================== *)
(** ** What an accepted answer changes *)
(* ===================================================================== *)

Lemma speedBonusFor_nonneg responseMs timeLimit bonusMax :
  0 <= speedBonusFor responseMs timeLimit bonusMax.
Proof.
  unfold speedBonusFor.
  destruct (Z.ltb_spec
              (Math_round (timeRatio responseMs timeLimit * of_Z bonusMax)%float) 0);
    lia.
Qed.

(** X2.  An accepted answer adds one to totalAnswered, one to
    correctAnswers exactly when it is judged correct, and the awarded points
    to the score; it sets hasAnsweredCurrent and stores the selection, and
    keeps the identity and the connection of the participant.  The bonus is
    never negative, so with base points that are not negative the score does
    not decrease. *)
Theorem recordAnswer_bookkeeping now code oid sel w r w' :
  recordAnswer now code oid sel w = (Success r, w') →
  ∃ session p p',
    activeSessions w !! code = Some session
    ∧ getParticipant code oid w = Some p
    ∧ getParticipant code oid w' = Some p'
    ∧ totalAnswered p' = totalAnswered p + 1
    ∧ correctAnswers p' = correctAnswers p + (if isCorrect r then 1 else 0)
    ∧ score p' = score p + pointsAwarded r
    ∧ newScore r = score p'
    ∧ hasAnsweredCurrent p = false
    ∧ hasAnsweredCurrent p' = true
    ∧ currentAnswer p' = sel
    ∧ oderId p' = oderId p ∧ userName p' = userName p
    ∧ socketId p' = socketId p ∧ isConnected p' = isConnected p
    ∧ 0 <= speedBonus r
    ∧ (0 <= basePointsPerQuestion session →
       0 <= pointsAwarded r ∧ score p <= score p').
Proof.
  intros H.
  apply recordAnswer_Success in H
    as (session & p & q & Hs & Hp & Hflag & _ & _ & _ & _ & Hsb & Hpts & Hns & ->).
  exists session, p, (answered p sel (isCorrect r) (pointsAwarded r)).
  split; [done |].
  split; [unfold getParticipant; by rewrite Hs |].
  split; [unfold getParticipant; rewrite lookup_put_session; simpl;
          apply jsmap_get_set_eq |].
  simpl. split; [done |].
  split; [destruct (isCorrect r); lia |].
  split; [done |]. split; [done |]. split; [done |].
  do 6 (split; [done |]).
  assert (Hbonus : 0 <= speedBonus r).
  { rewrite Hsb. destruct (isCorrect r); [apply speedBonusFor_nonneg | done]. }
  split; [done |].
  intros Hbase. destruct (isCorrect r); lia.
Qed.

Lemma recordAnswer_bookkeeping_witness :
  ∃ p', getParticipant "ABC123" "u1" w_answered1 = Some p'
        ∧ totalAnswered p' = 1 ∧ correctAnswers p' = 1 ∧ score p' = 147
        ∧ hasAnsweredCurrent p' = true.
Proof.
  edestruct (recordAnswer_bookkeeping 1002000 "ABC123" "u1" (SelString "b")
               w_question1
               {| isCorrect := true; pointsAwarded := 147; speedBonus := 47;
                  responseTimeMs := 2000; newScore := 147 |} w_answered1)
    as (s & p & p' & _ & Hp & Hp' & Htotal & Hcorrect & Hscore & _ & _ & Hflag & _).
  - vm_compute. reflexivity.
  - vm_compute in Hp. injection Hp as <-.
    exists p'. by repeat split.
Defined.

(** X3.  An accepted answer changes nothing but the entry of the answering
    participant: the timers, the socket fields and the other sessions stay,
    and in the session the registered ids, the entries of the other
    participants and the question state stay. *)
Theorem recordAnswer_frame now code oid sel w r w' :
  recordAnswer now code oid sel w = (Success r, w') →
  timers w' = timers w ∧ nextTimer w' = nextTimer w ∧ sockets w' = sockets w
  ∧ (∀ code', code' ≠ code →
       activeSessions w' !! code' = activeSessions w !! code')
  ∧ ∃ s s',
      activeSessions w !! code = Some s
      ∧ activeSessions w' !! code = Some s'
      ∧ jsmap_keys (participants s') = jsmap_keys (participants s)
      ∧ (∀ oid', oid' ≠ oid →
           jsmap_get oid' (participants s') = jsmap_get oid' (participants s))
      ∧ currentQuestionIndex s' = currentQuestionIndex s
      ∧ questionStartTime s' = questionStartTime s
      ∧ status s' = status s
      ∧ questions s' = questions s
      ∧ questionTimer s' = questionTimer s.
Proof.
  intros H.
  apply recordAnswer_Success in H
    as (s & p & q & Hs & Hp & _ & _ & _ & _ & _ & _ & _ & _ & ->).
  do 3 (split; [done |]).
  split; [intros code' Hne; by apply lookup_put_session_ne |].
  eexists s, _. split; [done |]. split; [apply lookup_put_session |]. simpl.
  split; [apply jsmap_keys_set_present; by rewrite Hp |].
  split; [intros oid' Hne; by apply jsmap_get_set_ne |]. done.
Qed.

Lemma recordAnswer_frame_witness :
  getParticipant "ABC123" "u2" w_answered1
  = getParticipant "ABC123" "u2" w_question1
  ∧ timers w_answered1 = timers w_question1.
Proof.
  edestruct (recordAnswer_frame 1002000 "ABC123" "u1" (SelString "b")
               w_question1
               {| isCorrect := true; pointsAwarded := 147; speedBonus := 47;
                  responseTimeMs := 2000; newScore := 147 |} w_answered1)
    as (Htimers & _ & _ & _ & s & s' & Hs & Hs' & _ & Hothers & _).
  - vm_compute. reflexivity.
  - split; [|exact Htimers].
    unfold getParticipant. rewrite Hs, Hs'. by apply Hothers.
Defined.

(* ===================================================================== *)
(** ** What a command does to the sessions *)
(* ===================================================================== *)

Lemma touches_same code w w' :
  activeSessions w' = activeSessions w → touches code w w'.
Proof.
  intros Heq. split.
  - intros code' _. by rewrite Heq.
  - intros s' Hs'. rewrite Heq in Hs'. by exists s'.
Qed.

Lemma touches_trans code w1 w2 w3 :
  touches code w1 w2 → touches code w2 w3 → touches code w1 w3.
Proof.
  intros [Ho12 Hc12] [Ho23 Hc23]. split.
  - intros code' Hne. by rewrite Ho23, Ho12.
  - intros s3 Hs3. destruct (Hc23 s3 Hs3) as (s2 & Hs2 & H23).
    destruct (Hc12 s2 Hs2) as (s1 & Hs1 & H12).
    exists s1. split; [done | by etrans].
Qed.

Lemma touches_put code w w0 s s' :
  activeSessions w0 = activeSessions w →
  activeSessions w !! code = Some s →
  rtc SessionStep s s' →
  touches code w (put_session code s' w0).
Proof.
  intros Heq Hs Hstep. split.
  - intros code' Hne. rewrite lookup_put_session_ne by done. by rewrite Heq.
  - intros s0. rewrite lookup_put_session. intros [= <-]. by exists s.
Qed.

Lemma touches_put1 code w w0 s s' :
  activeSessions w0 = activeSessions w →
  activeSessions w !! code = Some s →
  SessionStep s s' →
  touches code w (put_session code s' w0).
Proof. intros Heq Hs Hstep. eapply touches_put; [done | done | by apply rtc_once]. Qed.

Lemma touches_delete code w w0 :
  activeSessions w0 = activeSessions w →
  touches code w (with_sessions w0 (delete code (activeSessions w0))).
Proof.
  intros Heq. split; simpl.
  - intros code' Hne. rewrite lookup_delete_ne by done. by rewrite Heq.
  - intros s'. by rewrite lookup_delete_eq.
Qed.

Lemma advanceQuestion_advanced now code w s :
  activeSessions w !! code = Some s →
  advanceQuestion now code w
  = put_session code (advanced now s) (clearTimeout_opt (questionTimer s) w).
Proof. intros Hs. unfold advanceQuestion. by rewrite Hs. Qed.

Lemma touches_updateParticipantConnection now code oid c sock w :
  touches code w (updateParticipantConnection now code oid c sock w).
Proof.
  unfold updateParticipantConnection.
  destruct (activeSessions w !! code) as [s|] eqn:Hs; [|by apply touches_same].
  destruct (jsmap_get oid (participants s)) as [p|] eqn:Hp; [|by apply touches_same].
  eapply touches_put1; [done | done | by constructor].
Qed.

Lemma touches_recordAnswer now code oid sel w :
  touches code w (recordAnswer now code oid sel w).2.
Proof.
  unfold recordAnswer.
  destruct (activeSessions w !! code) as [s|] eqn:Hs; [|by apply touches_same].
  destruct (jsmap_get oid (participants s)) as [p|] eqn:Hp; [|by apply touches_same].
  destruct (hasAnsweredCurrent p) eqn:Hflag; [by apply touches_same |].
  destruct (_ <? _); [by apply touches_same |].
  destruct (currentQuestion s) as [q|] eqn:Hq; [|by apply touches_same].
  assert (Hpoints : ∀ (c : bool) b x,
             (if c then b + (if c then x else 0) else 0)
             = (if c then b + x else 0)) by (by intros []).
  simpl. rewrite Hpoints. eapply touches_put1; [done | done |].
  by apply (Step_answer s oid p sel q
              (now - default 0 (questionStartTime s))).
Qed.

Lemma touches_clearQuestionTimer code w : touches code w (clearQuestionTimer code w).
Proof.
  unfold clearQuestionTimer.
  destruct (activeSessions w !! code) as [s|] eqn:Hs; [|by apply touches_same].
  destruct (questionTimer s); [|by apply touches_same].
  eapply touches_put1; [done | done | constructor].
Qed.

Lemma touches_setQuestionTimer code act w :
  touches code w (setQuestionTimer code act w).
Proof.
  unfold setQuestionTimer.
  destruct (activeSessions w !! code) as [s|] eqn:Hs; [|by apply touches_same].
  simpl. eapply touches_put1; [| done | constructor].
  simpl. apply activeSessions_clearTimeout_opt.
Qed.

Lemma touches_endSession code w : touches code w (endSession code w).
Proof.
  unfold endSession.
  destruct (activeSessions w !! code) as [s|] eqn:Hs; [|by apply touches_same].
  eapply touches_put1; [| done | constructor].
  by rewrite !activeSessions_clearTimeout_opt.
Qed.

Lemma touches_removeSession code w : touches code w (removeSession code w).
Proof.
  unfold removeSession. apply touches_delete.
  destruct (activeSessions w !! code); [|done].
  by rewrite !activeSessions_clearTimeout_opt.
Qed.

Lemma touches_handleQuestionEnd code w : touches code w (handleQuestionEnd code w).
Proof.
  unfold handleQuestionEnd.
  destruct (getSession code w) as [s|]; [|by apply touches_same].
  destruct (currentQuestion s); [|by apply touches_same].
  destruct (_ <=? _); by apply touches_same.
Qed.

Lemma touches_handleQuizComplete code w : touches code w (handleQuizComplete code w).
Proof.
  unfold handleQuizComplete.
  destruct (getSession code w) as [s|]; [|by apply touches_same].
  case_decide; [by apply touches_same |].
  eapply touches_trans; [apply touches_endSession | by apply touches_same].
Qed.

Lemma touches_question_next now socket code w :
  touches code w (question_next now socket code w).2.
Proof.
  unfold question_next, getSession.
  destruct (activeSessions w !! code) as [s|] eqn:Hs; [|by apply touches_same].
  case_decide; [by apply touches_same |].
  destruct (Z.leb_spec (questionCount s - 1) (currentQuestionIndex s))
    as [?|Hmore]; [by apply touches_same |].
  assert (Hadv : touches code w (advanceQuestion now code w)).
  { rewrite (advanceQuestion_advanced now code w s Hs).
    eapply touches_put1; [apply activeSessions_clearTimeout_opt | done |].
    by constructor. }
  destruct (activeSessions (advanceQuestion now code w) !! code ≫= currentQuestion);
    simpl; [|exact Hadv].
  eapply touches_trans; [exact Hadv | apply touches_setQuestionTimer].
Qed.

Lemma touches_session_join now socket code oid name photo w :
  touches code w (session_join now socket code oid name photo w).2.
Proof.
  unfold session_join, getSession.
  case_decide; [by apply touches_same |].
  destruct (activeSessions w !! code) as [s|] eqn:Hs; [|by apply touches_same].
  case_decide; [by apply touches_same |].
  destruct (_ && _); [by apply touches_same |].
  unfold getParticipant. rewrite Hs.
  destruct (jsmap_get oid (participants s)) as [p|] eqn:Hp.
  - assert (Hre : touches code w
              (bind_socket socket code oid
                 (updateParticipantConnection now code oid true (Some socket) w))).
    { eapply touches_trans;
        [apply touches_updateParticipantConnection | by apply touches_same]. }
    by destruct (_ && _).
  - unfold addParticipant. rewrite Hs. simpl.
    eapply touches_trans; [|by apply touches_same].
    eapply touches_put1; [done | done |].
    by apply (Step_register s now
                {| pd_oderId := oid; pd_userName := name;
                   pd_userPhoto := photo; pd_socketId := socket |}).
Qed.

Lemma touches_answer_submit now socket code qi sel w :
  touches code w (answer_submit now socket code qi sel w).2.
Proof.
  unfold answer_submit.
  destruct (sockets w !! socket) as [f|]; [|by apply touches_same].
  case_decide; [by apply touches_same |].
  destruct (getSession code w) as [s|]; [|by apply touches_same].
  case_decide; [by apply touches_same |].
  pose proof (touches_recordAnswer now code (sock_oderId f) sel w) as Hrec.
  by destruct (recordAnswer _ _ _ _ _) as [[r|msg] w1].
Qed.

Lemma touches_fireTimer t act w :
  timers w !! t = Some act →
  touches (action_code act) w (fireTimer t w).
Proof.
  intros Ht. unfold fireTimer. rewrite Ht.
  eapply (touches_trans _ _ (with_timers w (delete t (timers w))));
    [by apply touches_same |].
  destruct act; simpl;
    [apply touches_handleQuestionEnd | apply touches_handleQuizComplete
     | apply touches_removeSession].
Qed.

(** A command changes at most the session it addresses. *)
Lemma touches_step now c w :
  match command_target c w with
  | Some code => touches code w (step now c w)
  | None => activeSessions (step now c w) = activeSessions w
  end.
Proof.
  destruct c; simpl.
  - apply touches_session_join.
  - apply touches_answer_submit.
  - apply touches_question_next.
  - unfold question_skip. destruct (getSession code w); [|by apply touches_same].
    case_decide; [by apply touches_same |]. simpl.
    eapply touches_trans;
      [apply touches_clearQuestionTimer | apply touches_handleQuestionEnd].
  - unfold session_end. destruct (getSession code w); [|by apply touches_same].
    case_decide; [by apply touches_same |]. apply touches_handleQuizComplete.
  - unfold session_leave. destruct (sockets w !! socket); [|by apply touches_same].
    case_decide; [by apply touches_same |].
    apply touches_updateParticipantConnection.
  - destruct (timers w !! t) as [act|] eqn:Ht; simpl.
    + by apply touches_fireTimer.
    + unfold fireTimer. by rewrite Ht.
Qed.

(** X4.  Sessions are isolated: a command changes no session but the one it
    addresses (for a timer, the one of its callback; a handle that is not
    pending changes none). *)
Theorem step_other_sessions now c w code' :
  command_target c w ≠ Some code' →
  activeSessions (step now c w) !! code' = activeSessions w !! code'.
Proof.
  intros Hne. pose proof (touches_step now c w) as H.
  destruct (command_target c w) as [code|].
  - destruct H as [Hothers _]. apply Hothers. by intros ->.
  - by rewrite H.
Qed.

Lemma step_other_sessions_witness :
  activeSessions
    (step 1002000 (Answer "sock-alice" "ABC123" 0 (SelString "b")) w_two)
  !! "LATE42" = activeSessions w_two !! "LATE42"
  ∧ score <$>
      getParticipant "ABC123" "u1"
        (step 1002000 (Answer "sock-alice" "ABC123" 0 (SelString "b")) w_two)
    = Some 147.
Proof.
  split; [|by vm_compute].
  apply step_other_sessions. simpl. by intros [=].
Defined.

(* ===================================================================== *)
(** ** What a run keeps of a session *)
(* ===================================================================== *)

Lemma follows_refl w : follows w w.
Proof. intros code s Hs. by exists s. Qed.

Lemma follows_trans w1 w2 w3 : follows w1 w2 → follows w2 w3 → follows w1 w3.
Proof.
  intros H12 H23 code s3 Hs3.
  destruct (H23 code s3 Hs3) as (s2 & Hs2 & Hr23).
  destruct (H12 code s2 Hs2) as (s1 & Hs1 & Hr12).
  exists s1. split; [done | by etrans].
Qed.

Lemma touches_follows code w w' : touches code w w' → follows w w'.
Proof.
  intros [Hothers Hcode] code' s' Hs'.
  destruct (decide (code' = code)) as [->|Hne].
  - by apply Hcode.
  - rewrite Hothers in Hs' by done. by exists s'.
Qed.

Lemma follows_step now c w : follows w (step now c w).
Proof.
  pose proof (touches_step now c w) as H.
  destruct (command_target c w) as [code|].
  - by eapply touches_follows.
  - intros code s Hs. rewrite H in Hs. by exists s.
Qed.

Lemma follows_run cmds w : follows w (run cmds w).
Proof.
  revert w. induction cmds as [|[now c] cmds IH]; intros w; simpl.
  - apply follows_refl.
  - eapply follows_trans; [apply follows_step | apply IH].
Qed.

Lemma grows_refl s : grows s s.
Proof.
  do 7 (split; [done |]). intros oid p Hp. exists p.
  split; [done |]. do 3 (split; [done |]). split; [lia |]. split; [lia |]. lia.
Qed.

Lemma grows_trans s1 s2 s3 : grows s1 s2 → grows s2 s3 → grows s1 s3.
Proof.
  intros (Hc1 & Hq1 & Ha1 & Ht1 & Hb1 & Hm1 & Hl1 & Hp1)
         (Hc2 & Hq2 & Ha2 & Ht2 & Hb2 & Hm2 & Hl2 & Hp2).
  split; [congruence |]. split; [congruence |]. split; [congruence |].
  split; [congruence |]. split; [congruence |]. split; [congruence |].
  split; [congruence |].
  intros oid p Hp.
  destruct (Hp1 oid p Hp) as (p2 & Hget2 & Ho2 & Hn2 & Hj2 & Htot2 & Hcor2 & Hsc2).
  destruct (Hp2 oid p2 Hget2) as (p3 & Hget3 & Ho3 & Hn3 & Hj3 & Htot3 & Hcor3 & Hsc3).
  exists p3. split; [done |]. split; [congruence |]. split; [congruence |].
  split; [congruence |]. split; [lia |]. split; [lia |].
  intros Hbase. rewrite Hb1 in Hsc3. specialize (Hsc2 Hbase). specialize (Hsc3 Hbase).
  lia.
Qed.

(** Writing the entry of [k] keeps what [grows] asks of the participants
    when the entry written continues the one it replaces. *)
Lemma grows_set s k v :
  (∀ p, jsmap_get k (participants s) = Some p →
        oderId v = oderId p ∧ userName v = userName p ∧ joinedAt v = joinedAt p
        ∧ totalAnswered p <= totalAnswered v
        ∧ correctAnswers p <= correctAnswers v
        ∧ (0 <= basePointsPerQuestion s → score p <= score v)) →
  grows s (set_participants s (jsmap_set k v (participants s))).
Proof.
  intros Hv. do 7 (split; [done |]). simpl. intros oid p Hp.
  destruct (decide (oid = k)) as [->|Hne].
  - exists v. split; [apply jsmap_get_set_eq |]. by apply Hv.
  - exists p. rewrite jsmap_get_set_ne by done.
    split; [done |]. do 3 (split; [done |]). split; [lia |]. split; [lia |]. lia.
Qed.

Lemma SessionStep_grows s s' : SessionStep s s' → grows s s'.
Proof.
  destruct 1 as [now oid p c sock Hp | now pd Hnew | oid p sel q rt Hp Hflag Hq
                 | now Hmore | t | ].
  - apply grows_set. intros p0. rewrite Hp. intros [= <-]. simpl.
    do 3 (split; [done |]). split; [lia |]. split; [lia |]. lia.
  - apply grows_set. intros p0. by rewrite Hnew.
  - apply grows_set. intros p0. rewrite Hp. intros [= <-]. simpl.
    do 3 (split; [done |]). split; [lia |].
    split; [destruct (includes _ _); lia |].
    intros Hbase. pose proof (speedBonusFor_nonneg rt (timePerQuestion s * 1000)
                                (speedBonusMax s)).
    destruct (includes _ _); lia.
  - unfold advanced. simpl.
    assert (Hparts : ∀ oid p, jsmap_get oid (participants s) = Some p →
              ∃ p', jsmap_get oid (jsmap_forEach clearAnswer (participants s))
                    = Some p'
                    ∧ oderId p' = oderId p ∧ userName p' = userName p
                    ∧ joinedAt p' = joinedAt p
                    ∧ totalAnswered p <= totalAnswered p'
                    ∧ correctAnswers p <= correctAnswers p'
                    ∧ (0 <= basePointsPerQuestion s → score p <= score p')).
    { intros oid p Hp. exists (clearAnswer p).
      rewrite jsmap_get_forEach, Hp. simpl.
      split; [done |]. do 3 (split; [done |]). split; [lia |]. split; [lia |]. lia. }
    destruct (_ =? 0); by do 7 (split; [done |]).
  - exact (grows_refl s).
  - exact (grows_refl s).
Qed.

Lemma rtc_SessionStep_grows s s' : rtc SessionStep s s' → grows s s'.
Proof.
  induction 1 as [s|s1 s2 s3 H12 _ IH]; [apply grows_refl |].
  eapply grows_trans; [by apply SessionStep_grows | exact IH].
Qed.

(** X5.  Along every sequence of join, answer, advance, skip, end and leave
    commands and timer events, while a session exists its configuration
    (questions, host socket, time limit, base points, bonus, late-join flag)
    stays as it was, no participant is removed from it, and totalAnswered
    and correctAnswers of a participant never decrease, nor does the score
    when the base points are not negative. *)
Theorem run_grows cmds w code s s' :
  activeSessions w !! code = Some s →
  activeSessions (run cmds w) !! code = Some s' →
  grows s s'.
Proof.
  intros Hs Hs'.
  destruct (follows_run cmds w code s' Hs') as (s0 & Hs0 & Hrtc).
  rewrite Hs in Hs0. injection Hs0 as <-. by apply rtc_SessionStep_grows.
Qed.

Lemma run_grows_witness :
  ∃ p', getParticipant "LATE42" "u1" (run demoRejoin w_late_answered) = Some p'
        ∧ oderId p' = "u1" ∧ 147 <= score p'.
Proof.
  edestruct (run_grows demoRejoin w_late_answered "LATE42")
    as (_ & _ & _ & _ & _ & _ & _ & Hparts).
  - vm_compute. reflexivity.
  - vm_compute. reflexivity.
  - edestruct (Hparts "u1") as (p' & Hp' & Hoid & _ & _ & _ & _ & Hscore).
    + vm_compute. reflexivity.
    + exists p'. split; [|split].
      * unfold getParticipant.
        destruct (activeSessions (run demoRejoin w_late_answered) !! "LATE42")
          as [s'|] eqn:Hs'; [|by vm_compute in Hs'].
        vm_compute in Hs'. injection Hs' as <-. exact Hp'.
      * exact Hoid.
      * apply Hscore. by vm_compute.
Defined.

(* ===================================================================== *)
(** ** The shape of the sessions a process can reach *)
(* ===================================================================== *)

Section JsMapKeys.
Context {V : Type}.
Implicit Types (m : list (string * V)) (k : string) (v : V).

Lemma jsmap_get_None k m : jsmap_get k m = None ↔ k ∉ jsmap_keys m.
Proof.
  unfold jsmap_keys. induction m as [|[k' v'] m IH]; simpl.
  - split; [intros _; apply not_elem_of_nil | done].
  - rewrite not_elem_of_cons. destruct (decide (k = k')) as [->|Hne].
    + split; [done | by intros [? _]].
    + rewrite IH. tauto.
Qed.

Lemma jsmap_set_absent k v m :
  jsmap_get k m = None → jsmap_set k v m = (m ++ [(k, v)])%list.
Proof.
  induction m as [|[k' v'] m IH]; simpl; [done |].
  destruct (decide (k = k')); [done |]. intros H. by rewrite IH.
Qed.

Lemma jsmap_keys_set_NoDup k v m :
  NoDup (jsmap_keys m) → NoDup (jsmap_keys (jsmap_set k v m)).
Proof.
  intros Hnd. destruct (jsmap_get k m) as [v0|] eqn:Hget.
  - rewrite jsmap_keys_set_present; [done | by rewrite Hget].
  - rewrite jsmap_set_absent by done. unfold jsmap_keys in *.
    rewrite fmap_app. simpl. apply NoDup_app. split; [done |].
    split; [|apply NoDup_singleton].
    intros k' Hin ->%list_elem_of_singleton. by apply jsmap_get_None in Hget.
Qed.

Lemma jsmap_get_elem k v m :
  NoDup (jsmap_keys m) → (k, v) ∈ m → jsmap_get k m = Some v.
Proof.
  unfold jsmap_keys. induction m as [|[k' v'] m IH]; simpl.
  - intros _ Hin. by apply elem_of_nil in Hin.
  - intros [Hk' Hnd]%NoDup_cons [[= -> ->]|Hin]%elem_of_cons.
    + by rewrite decide_True.
    + rewrite decide_False; [by apply IH |].
      intros ->. apply Hk'. apply list_elem_of_fmap. by exists (k', v).
Qed.
End JsMapKeys.

Lemma session_ok_set s k v :
  session_ok s →
  oderId v = k →
  0 <= correctAnswers v →
  correctAnswers v <= totalAnswered v →
  totalAnswered v <= Z.max (currentQuestionIndex s + 1) 0 →
  (hasAnsweredCurrent v = false →
   totalAnswered v <= Z.max (currentQuestionIndex s) 0) →
  session_ok (set_participants s (jsmap_set k v (participants s))).
Proof.
  intros (Hlo & Hhi & Hnd & Hentries) Hoid H0 Hct Htot Hflag.
  split; [done |]. split; [done |]. simpl.
  split; [by apply jsmap_keys_set_NoDup |].
  intros oid p. destruct (decide (oid = k)) as [->|Hne].
  - rewrite jsmap_get_set_eq. by intros [= <-].
  - rewrite jsmap_get_set_ne by done. apply Hentries.
Qed.

Lemma currentQuestion_index s q :
  currentQuestion s = Some q → 0 <= currentQuestionIndex s.
Proof.
  unfold currentQuestion.
  destruct (Z.ltb_spec (currentQuestionIndex s) 0); [done | lia].
Qed.

Lemma SessionStep_ok s s' : SessionStep s s' → session_ok s → session_ok s'.
Proof.
  destruct 1 as [now oid p c sock Hp | now pd Hnew | oid p sel q rt Hp Hflag Hq
                 | now Hmore | t | ]; intros Hok.
  - destruct Hok as (Hlo & Hhi & Hnd & Hentries).
    destruct (Hentries oid p Hp) as (Hoid & H0 & Hct & Htot & Hfl).
    by apply session_ok_set.
  - destruct Hok as (Hlo & Hhi & Hnd & Hentries).
    apply session_ok_set; simpl; [done | done | lia | lia | lia | lia].
  - pose proof (currentQuestion_index s q Hq) as Hidx.
    destruct Hok as (Hlo & Hhi & Hnd & Hentries).
    destruct (Hentries oid p Hp) as (Hoid & H0 & Hct & Htot & Hfl).
    specialize (Hfl Hflag).
    apply session_ok_set; simpl; [done | done | | | | done].
    + destruct (includes _ _); lia.
    + destruct (includes _ _); lia.
    + lia.
  - destruct Hok as (Hlo & Hhi & Hnd & Hentries).
    assert (Hadv : session_ok
              (set_question
                 (set_participants (set_questionTimer s None)
                    (jsmap_forEach clearAnswer (participants s)))
                 (currentQuestionIndex s + 1) (Some now))).
    { split; [simpl; lia |]. split; [unfold questionCount in *; simpl; lia |].
      simpl. split; [by rewrite jsmap_keys_forEach |].
      intros oid p'. rewrite jsmap_get_forEach.
      destruct (jsmap_get oid (participants s)) as [p|] eqn:Hp; [|done].
      simpl. intros [= <-]. simpl.
      destruct (Hentries oid p Hp) as (Hoid & H0 & Hct & Htot & Hfl).
      split; [done |]. split; [done |]. split; [done |]. split; lia. }
    unfold advanced. simpl. by destruct (_ =? 0).
  - exact Hok.
  - exact Hok.
Qed.

Lemma rtc_SessionStep_ok s s' :
  rtc SessionStep s s' → session_ok s → session_ok s'.
Proof.
  induction 1 as [s|s1 s2 s3 H12 _ IH]; [done |].
  intros Hok. apply IH. by eapply SessionStep_ok.
Qed.

Lemma sessions_ok_follows w w' : follows w w' → sessions_ok w → sessions_ok w'.
Proof.
  intros Hf Hok code s' Hs'.
  destruct (Hf code s' Hs') as (s & Hs & Hrtc).
  destruct (Hok code s Hs) as [Hcode Hsok].
  split.
  - destruct (rtc_SessionStep_grows s s' Hrtc) as (Hc & _). by rewrite Hc.
  - by eapply rtc_SessionStep_ok.
Qed.

Lemma sessions_ok_session_create now draw socket userData quizIdArg quiz dbId w :
  sessions_ok w →
  sessions_ok (session_create now draw socket userData quizIdArg quiz dbId w).2.
Proof.
  intros Hok. unfold session_create.
  destruct userData as [ud|]; [|done].
  destruct (ud_isAdmin ud); simpl; [|done].
  case_decide; [done |].
  destruct quiz as [q|]; [|done].
  destruct (generateUniqueSessionCode draw w) as [fresh|msg]; [|done].
  simpl. intros code s.
  destruct (decide (fresh = code)) as [->|Hne].
  - rewrite lookup_put_session. intros [= <-]. split; [done |].
    split; [simpl; lia |]. split; [unfold questionCount; simpl; lia |].
    split; [apply NoDup_nil_2 | done].
  - rewrite lookup_put_session_ne by done. apply Hok.
Qed.

Lemma sessions_ok_runEvents evs w :
  sessions_ok w → sessions_ok (runEvents evs w).
Proof.
  revert w. induction evs as [|[now e] evs IH]; intros w Hok; simpl; [done |].
  apply IH. destruct e as [draw socket userData quizIdArg quiz dbId|c]; simpl.
  - by apply sessions_ok_session_create.
  - eapply sessions_ok_follows; [apply follows_step | done].
Qed.

Lemma sessions_ok_emptyWorld : sessions_ok emptyWorld.
Proof. intros code s. simpl. by rewrite lookup_empty. Qed.

(** X6.  In every state a process reaches from its start through
    session:create, the commands and the timers, a participant has answered
    at most as many questions as have been started (none in the lobby) and
    never more than the quiz has, and has answered correctly at most as many
    as answered; the index of the session is -1 or the index of a question. *)
Theorem reachable_counters evs code s oid p :
  activeSessions (runEvents evs emptyWorld) !! code = Some s →
  jsmap_get oid (participants s) = Some p →
  -1 <= currentQuestionIndex s <= questionCount s - 1
  ∧ 0 <= correctAnswers p <= totalAnswered p
  ∧ totalAnswered p <= Z.max (currentQuestionIndex s + 1) 0
  ∧ totalAnswered p <= questionCount s.
Proof.
  intros Hs Hp.
  destruct (sessions_ok_runEvents evs emptyWorld sessions_ok_emptyWorld code s Hs)
    as (_ & Hlo & Hhi & _ & Hentries).
  destruct (Hentries oid p Hp) as (_ & H0 & Hct & Htot & _).
  unfold questionCount in *. lia.
Qed.

Lemma reachable_counters_witness :
  ∃ p, getParticipant "ABC123" "u2" (runEvents demoEvents emptyWorld) = Some p
       ∧ 0 <= correctAnswers p <= totalAnswered p
       ∧ totalAnswered p <= 2.
Proof.
  destruct (activeSessions (runEvents demoEvents emptyWorld) !! "ABC123")
    as [s|] eqn:Hs; [|by vm_compute in Hs].
  destruct (jsmap_get "u2" (participants s)) as [p|] eqn:Hp.
  - destruct (reachable_counters demoEvents "ABC123" s "u2" p Hs Hp)
      as (_ & Hct & _ & Hqc).
    exists p. split; [unfold getParticipant; by rewrite Hs |].
    split; [exact Hct |].
    vm_compute in Hs. injection Hs as <-. exact Hqc.
  - vm_compute in Hs. injection Hs as <-. by vm_compute in Hp.
Defined.

Lemma fmap_lb_oderId_imap l :
  lb_oderId <$> imap leaderboardEntry l = oderId <$> l.
Proof.
  assert (H : ∀ f : nat → Participant → LeaderboardEntry,
             (∀ i x, lb_oderId (f i x) = oderId x) →
             lb_oderId <$> imap f l = oderId <$> l).
  { induction l as [|p l IH]; intros f Hf; simpl; [done |].
    rewrite Hf. f_equal. apply IH. intros i x. apply Hf. }
  by apply H.
Qed.

Lemma fmap_oderId_values (m : list (string * Participant)) :
  NoDup (jsmap_keys m) →
  (∀ oid p, jsmap_get oid m = Some p → oderId p = oid) →
  oderId <$> jsmap_values m = jsmap_keys m.
Proof.
  intros Hnd Hoid. unfold jsmap_values, jsmap_keys.
  rewrite <- list_fmap_compose. apply list_fmap_ext.
  intros i [k p] Hi. simpl. apply Hoid. apply jsmap_get_elem; [done |].
  by eapply list_elem_of_lookup_2.
Qed.

(** X7.  In every reachable state a session is registered under its own
    code, every participant is registered once, under the own id, and so the
    leaderboard, whatever the collation and the limit, lists no participant
    twice. *)
Theorem reachable_registry evs code s :
  activeSessions (runEvents evs emptyWorld) !! code = Some s →
  sessionCode s = code
  ∧ NoDup (jsmap_keys (participants s))
  ∧ (∀ oid p, jsmap_get oid (participants s) = Some p → oderId p = oid)
  ∧ ∀ localeCompare limit,
      NoDup (lb_oderId <$>
               getLeaderboard localeCompare code limit
                 (runEvents evs emptyWorld)).
Proof.
  intros Hs.
  destruct (sessions_ok_runEvents evs emptyWorld sessions_ok_emptyWorld code s Hs)
    as (Hcode & _ & _ & Hnd & Hentries).
  split; [done |]. split; [done |].
  split; [intros oid p Hp; by destruct (Hentries oid p Hp) |].
  intros lc limit. unfold getLeaderboard. rewrite Hs.
  rewrite fmap_lb_oderId_imap, fmap_take.
  eapply sublist_NoDup; [|apply sublist_take].
  rewrite Array_sort_perm, fmap_oderId_values; [done | done |].
  intros oid p Hp. by destruct (Hentries oid p Hp).
Qed.

Lemma reachable_registry_witness :
  NoDup (lb_oderId <$>
           getLeaderboard codeUnitCompare "ABC123" 10
             (runEvents demoEvents emptyWorld))
  ∧ length (getLeaderboard codeUnitCompare "ABC123" 10
              (runEvents demoEvents emptyWorld)) = 2%nat.
Proof.
  split; [|by vm_compute].
  destruct (activeSessions (runEvents demoEvents emptyWorld) !! "ABC123")
    as [s|] eqn:Hs; [|by vm_compute in Hs].
  by destruct (reachable_registry demoEvents "ABC123" s Hs) as (_ & _ & _ & Hlb).
Defined.

(* ===================================================================== *)
(** ** The question timer of a session *)
(* ===================================================================== *)

Lemma timers_clearTimeout_opt h w t a :
  timers (clearTimeout_opt h w) !! t = Some a → timers w !! t = Some a.
Proof.
  destruct h as [h|]; simpl; [|done].
  by intros [_ ?]%lookup_delete_Some.
Qed.

Lemma timers_clearTimeout_opt_eq h w :
  timers (clearTimeout_opt (Some h) w) !! h = None.
Proof. simpl. apply lookup_delete_eq. Qed.

(** The session [code] is written while no timer is added: the ownership
    stays if the session keeps its handle or the handle is not pending. *)
Lemma timers_owned_put w w0 code s s' :
  timers_owned w →
  activeSessions w0 = activeSessions w →
  (∀ t a, timers w0 !! t = Some a → timers w !! t = Some a) →
  activeSessions w !! code = Some s →
  (questionTimer s' = questionTimer s
   ∨ ∀ t, questionTimer s = Some t → timers w0 !! t = None) →
  timers_owned (put_session code s' w0).
Proof.
  intros Hown Heq Hsub Hs Hkeep t c Ht. simpl in Ht.
  destruct (Hown t c (Hsub _ _ Ht)) as (sc & Hsc & Hqt).
  destruct (decide (c = code)) as [->|Hne].
  - rewrite Hs in Hsc. injection Hsc as <-.
    exists s'. split; [apply lookup_put_session |].
    destruct Hkeep as [->|Hgone]; [done |].
    specialize (Hgone t Hqt). by rewrite Hgone in Ht.
  - exists sc. split; [|done].
    rewrite lookup_put_session_ne by done. by rewrite Heq.
Qed.

Lemma timers_owned_sub w w0 :
  timers_owned w →
  activeSessions w0 = activeSessions w →
  (∀ t a, timers w0 !! t = Some a → timers w !! t = Some a) →
  timers_owned w0.
Proof.
  intros Hown Heq Hsub t c Ht.
  destruct (Hown t c (Hsub _ _ Ht)) as (sc & Hsc & Hqt).
  exists sc. by rewrite Heq.
Qed.

Lemma timers_owned_setTimeout act w :
  (∀ code, act ≠ QuestionEnd code) →
  timers_owned w → timers_owned (setTimeout act w).2.
Proof.
  intros Hact Hown t c. simpl.
  destruct (decide (nextTimer w = t)) as [<-|Hne].
  - rewrite lookup_insert_eq. intros [= ->]. by destruct (Hact c).
  - rewrite lookup_insert_ne by done. apply Hown.
Qed.

Lemma timers_owned_updateParticipantConnection now code oid c sock w :
  timers_owned w →
  timers_owned (updateParticipantConnection now code oid c sock w).
Proof.
  intros Hown. unfold updateParticipantConnection.
  destruct (activeSessions w !! code) as [s|] eqn:Hs; [|done].
  destruct (jsmap_get oid (participants s)); [|done].
  eapply timers_owned_put; [done | done | done | done | by left].
Qed.

Lemma timers_owned_recordAnswer now code oid sel w :
  timers_owned w → timers_owned (recordAnswer now code oid sel w).2.
Proof.
  intros Hown. unfold recordAnswer.
  destruct (activeSessions w !! code) as [s|] eqn:Hs; [|done].
  destruct (jsmap_get oid (participants s)); [|done].
  destruct (hasAnsweredCurrent _); [done |].
  destruct (_ <? _); [done |].
  destruct (currentQuestion s); [|done].
  simpl. eapply timers_owned_put; [done | done | done | done | by left].
Qed.

Lemma timers_owned_advanceQuestion now code w :
  timers_owned w → timers_owned (advanceQuestion now code w).
Proof.
  intros Hown. unfold advanceQuestion.
  destruct (activeSessions w !! code) as [s|] eqn:Hs; [|done].
  eapply timers_owned_put;
    [done | apply activeSessions_clearTimeout_opt
     | apply timers_clearTimeout_opt | done |].
  right. intros t ->. apply timers_clearTimeout_opt_eq.
Qed.

Lemma timers_owned_clearQuestionTimer code w :
  timers_owned w → timers_owned (clearQuestionTimer code w).
Proof.
  intros Hown. unfold clearQuestionTimer.
  destruct (activeSessions w !! code) as [s|] eqn:Hs; [|done].
  destruct (questionTimer s) as [h|] eqn:Hh; [|done].
  eapply timers_owned_put;
    [done | done | apply (timers_clearTimeout_opt (Some h)) | done |].
  right. rewrite Hh. intros t [= <-]. apply lookup_delete_eq.
Qed.

Lemma timers_owned_setQuestionTimer code w :
  timers_owned w → timers_owned (setQuestionTimer code (QuestionEnd code) w).
Proof.
  intros Hown. unfold setQuestionTimer.
  destruct (activeSessions w !! code) as [s|] eqn:Hs; [|done].
  simpl. intros t c. simpl.
  destruct (decide (nextTimer (clearTimeout_opt (questionTimer s) w) = t))
    as [<-|Hne].
  - rewrite lookup_insert_eq. intros [= <-].
    eexists. split; [apply lookup_insert_eq | done].
  - rewrite lookup_insert_ne by done. intros Ht.
    destruct (Hown t c (timers_clearTimeout_opt _ _ _ _ Ht)) as (sc & Hsc & Hqt).
    destruct (decide (c = code)) as [->|Hc].
    + rewrite Hs in Hsc. injection Hsc as <-. rewrite Hqt in Ht.
      by rewrite timers_clearTimeout_opt_eq in Ht.
    + exists sc. split; [|done]. rewrite lookup_insert_ne by done.
      by rewrite activeSessions_clearTimeout_opt.
Qed.

Lemma timers_owned_endSession code w :
  timers_owned w → timers_owned (endSession code w).
Proof.
  intros Hown. unfold endSession.
  destruct (activeSessions w !! code) as [s|] eqn:Hs; [|done].
  eapply timers_owned_put; [done | | | done |].
  - by rewrite !activeSessions_clearTimeout_opt.
  - intros t a Ht. by do 2 apply timers_clearTimeout_opt in Ht.
  - right. intros t Hqt.
    destruct (timers (clearTimeout_opt (adminDisconnectTimer s)
                        (clearTimeout_opt (questionTimer s) w)) !! t)
      as [a|] eqn:Ht; [|done].
    apply timers_clearTimeout_opt in Ht. rewrite Hqt in Ht.
    by rewrite timers_clearTimeout_opt_eq in Ht.
Qed.

Lemma timers_owned_removeSession code w :
  timers_owned w → timers_owned (removeSession code w).
Proof.
  intros Hown. unfold removeSession.
  destruct (activeSessions w !! code) as [s|] eqn:Hs.
  - intros t c Ht. simpl in Ht.
    pose proof Ht as Ht1. do 2 apply timers_clearTimeout_opt in Ht1.
    destruct (Hown t c Ht1) as (sc & Hsc & Hqt).
    destruct (decide (c = code)) as [->|Hc].
    + rewrite Hs in Hsc. injection Hsc as <-.
      apply timers_clearTimeout_opt in Ht. rewrite Hqt in Ht.
      by rewrite timers_clearTimeout_opt_eq in Ht.
    + exists sc. split; [|done]. simpl. rewrite lookup_delete_ne by done.
      by rewrite !activeSessions_clearTimeout_opt.
  - intros t c Ht. simpl in Ht.
    destruct (Hown t c Ht) as (sc & Hsc & Hqt).
    exists sc. split; [|done]. simpl.
    rewrite lookup_delete_ne; [done |]. intros ->. by rewrite Hs in Hsc.
Qed.

Lemma timers_owned_handleQuestionEnd code w :
  timers_owned w → timers_owned (handleQuestionEnd code w).
Proof.
  intros Hown. unfold handleQuestionEnd.
  destruct (getSession code w) as [s|]; [|done].
  destruct (currentQuestion s); [|done].
  destruct (_ <=? _); [|done]. by apply timers_owned_setTimeout.
Qed.

Lemma timers_owned_handleQuizComplete code w :
  timers_owned w → timers_owned (handleQuizComplete code w).
Proof.
  intros Hown. unfold handleQuizComplete.
  destruct (getSession code w) as [s|]; [|done].
  case_decide; [done |].
  apply timers_owned_setTimeout; [done | by apply timers_owned_endSession].
Qed.

Lemma timers_owned_bind_socket socket code oid w :
  timers_owned w → timers_owned (bind_socket socket code oid w).
Proof. intros Hown. by eapply timers_owned_sub. Qed.

Lemma timers_owned_step now c w : timers_owned w → timers_owned (step now c w).
Proof.
  intros Hown. destruct c; simpl.
  - unfold session_join. case_decide; [done |].
    destruct (getSession code w) as [s|] eqn:Hs; [|done].
    case_decide; [done |]. destruct (_ && _); [done |].
    destruct (getParticipant code oid w) as [p|].
    + assert (timers_owned
                (bind_socket socket code oid
                   (updateParticipantConnection now code oid true (Some socket) w)))
        by by apply timers_owned_bind_socket,
                    timers_owned_updateParticipantConnection.
      by destruct (_ && _).
    + unfold addParticipant. unfold getSession in Hs. rewrite Hs. simpl.
      apply timers_owned_bind_socket.
      eapply timers_owned_put; [done | done | done | done | by left].
  - unfold answer_submit. destruct (sockets w !! socket) as [f|]; [|done].
    case_decide; [done |]. destruct (getSession code w); [|done].
    case_decide; [done |].
    pose proof (timers_owned_recordAnswer now code (sock_oderId f) sel w Hown).
    by destruct (recordAnswer _ _ _ _ _) as [[r|msg] w1].
  - unfold question_next. destruct (getSession code w) as [s|]; [|done].
    case_decide; [done |]. destruct (_ <=? _); [done |].
    pose proof (timers_owned_advanceQuestion now code w Hown).
    destruct (getSession code (advanceQuestion now code w) ≫= currentQuestion);
      simpl; [|done].
    by apply timers_owned_setQuestionTimer.
  - unfold question_skip. destruct (getSession code w); [|done].
    case_decide; [done |]. simpl.
    by apply timers_owned_handleQuestionEnd, timers_owned_clearQuestionTimer.
  - unfold session_end. destruct (getSession code w); [|done].
    case_decide; [done |]. simpl. by apply timers_owned_handleQuizComplete.
  - unfold session_leave. destruct (sockets w !! socket); [|done].
    case_decide; [done |]. by apply timers_owned_updateParticipantConnection.
  - unfold fireTimer. destruct (timers w !! t) as [act|]; [|done].
    assert (Hdel : timers_owned (with_timers w (delete t (timers w)))).
    { eapply timers_owned_sub; [done | done |]. simpl.
      by intros t0 a [_ ?]%lookup_delete_Some. }
    destruct act;
      [by apply timers_owned_handleQuestionEnd
       | by apply timers_owned_handleQuizComplete
       | by apply timers_owned_removeSession].
Qed.

Lemma timers_owned_session_create now draw socket userData quizIdArg quiz dbId w :
  timers_owned w →
  timers_owned (session_create now draw socket userData quizIdArg quiz dbId w).2.
Proof.
  intros Hown. unfold session_create.
  destruct userData as [ud|]; [|done].
  destruct (ud_isAdmin ud); simpl; [|done].
  case_decide; [done |].
  destruct quiz as [q|]; [|done].
  destruct (generateUniqueSessionCode draw w) as [fresh|msg] eqn:Hgen; [|done].
  apply generateUniqueSessionCode_loop_fresh in Hgen.
  simpl. intros t c Ht. simpl in Ht.
  destruct (Hown t c Ht) as (sc & Hsc & Hqt).
  exists sc. split; [|done].
  rewrite lookup_put_session_ne; [done |]. intros ->. by rewrite Hgen in Hsc.
Qed.

Lemma timers_owned_runEvents evs w :
  timers_owned w → timers_owned (runEvents evs w).
Proof.
  revert w. induction evs as [|[now e] evs IH]; intros w Hown; simpl; [done |].
  apply IH. destruct e as [draw socket userData quizIdArg quiz dbId|c]; simpl.
  - by apply timers_owned_session_create.
  - by apply timers_owned_step.
Qed.

(** X8.  In every reachable state a pending question timer belongs to an
    existing session that holds its handle, so a session never has two
    question timers pending: starting a question, skipping, ending and
    removing a session cancel the one there is. *)
Theorem reachable_question_timer evs t code :
  timers (runEvents evs emptyWorld) !! t = Some (QuestionEnd code) →
  (∃ s, activeSessions (runEvents evs emptyWorld) !! code = Some s
        ∧ questionTimer s = Some t)
  ∧ ∀ t', timers (runEvents evs emptyWorld) !! t' = Some (QuestionEnd code) →
          t' = t.
Proof.
  assert (Hown : timers_owned (runEvents evs emptyWorld)).
  { apply timers_owned_runEvents. intros t0 c. simpl. by rewrite lookup_empty. }
  intros Ht. destruct (Hown t code Ht) as (s & Hs & Hqt).
  split; [by exists s |].
  intros t' Ht'. destruct (Hown t' code Ht') as (s' & Hs' & Hqt').
  rewrite Hs in Hs'. injection Hs' as <-. congruence.
Qed.

Lemma reachable_question_timer_witness :
  ∃ s, activeSessions (runEvents demoEventsStart emptyWorld) !! "ABC123" = Some s
       ∧ questionTimer s = Some 0%nat.
Proof.
  destruct (reachable_question_timer demoEventsStart 0%nat "ABC123") as [Hs _].
  - vm_compute. reflexivity.
  - exact Hs.
Defined.

(* ===================================================================== *)
(** ** Refused commands *)
(* ===================================================================== *)

Lemma session_join_db_Resolved now socket code oid name photo w :
  session_join_db Resolved now socket code oid name photo w
  = session_join now socket code oid name photo w.
Proof.
  unfold session_join_db, session_join.
  repeat (case_decide || case_match); reflexivity.
Qed.

Lemma question_next_db_Resolved now socket code w :
  question_next_db Resolved now socket code w
  = question_next now socket code w.
Proof. reflexivity. Qed.

Lemma getParticipant_updateParticipantConnection now code oid sock w p :
  getParticipant code oid w = Some p →
  getParticipant code oid
    (updateParticipantConnection now code oid true sock w)
  = Some (connection now p true sock).
Proof.
  unfold getParticipant, updateParticipantConnection.
  destruct (activeSessions w !! code) as [s|] eqn:Hs; [|done].
  intros Hp. rewrite Hp. rewrite lookup_put_session. simpl.
  apply jsmap_get_set_eq.
Qed.

(** X9.  An error reply of answer:submit, question:skip and session:end
    leaves the state as it was, and so does an error reply of session:join
    and question:next unless the database call the handler awaits was
    rejected, for a session whose index is -1 or the index of a question.
    After a rejected call the reply is the error of the call, but the change
    made before it stays: session:join leaves the participant registered and
    connected with the socket not bound, question:next leaves the question
    advanced and the old timer cancelled with no timer armed.  The host
    commands from a socket other than the host's are answered with an
    error. *)
Theorem error_reply_unchanged_unless_rejected now code w :
  (∀ s, activeSessions w !! code = Some s →
        -1 <= currentQuestionIndex s <= questionCount s - 1) →
  (∀ db socket oid name photo msg w',
     session_join_db db now socket code oid name photo w = (Error msg, w') →
     w' = w
     ∨ ∃ message p,
         db = Rejected message
         ∧ msg = message_or message "Failed to join session"
         ∧ getParticipant code oid w' = Some p
         ∧ isConnected p = true
         ∧ sockets w' = sockets w
         ∧ timers w' = timers w)
  ∧ (∀ db socket msg w',
       question_next_db db now socket code w = (Error msg, w') →
       w' = w
       ∨ ∃ message s s',
           db = Rejected message
           ∧ msg = message_or message "Failed to advance question"
           ∧ getSession code w = Some s
           ∧ getSession code w' = Some s'
           ∧ currentQuestionIndex s' = currentQuestionIndex s + 1
           ∧ questionTimer s' = None
           ∧ timers w' = timers (clearTimeout_opt (questionTimer s) w))
  ∧ (∀ message socket s,
       getSession code w = Some s →
       adminSocketId s = socket →
       currentQuestionIndex s < questionCount s - 1 →
       question_next_db (Rejected message) now socket code w
       = (Error (message_or message "Failed to advance question"),
          advanceQuestion now code w))
  ∧ (∀ socket qi sel msg w',
       answer_submit now socket code qi sel w = (Error msg, w') → w' = w)
  ∧ (∀ socket msg w', question_skip socket code w = (Error msg, w') → w' = w)
  ∧ (∀ socket msg w', session_end socket code w = (Error msg, w') → w' = w)
  ∧ (∀ db socket s,
       getSession code w = Some s → adminSocketId s ≠ socket →
       question_next_db db now socket code w
       = (Error "Only the session admin can control the quiz", w)
       ∧ question_skip socket code w
         = (Error "Only the session admin can skip", w)
       ∧ session_end socket code w
         = (Error "Only the session admin can end the quiz", w)).
Proof.
  intros Hrange.
  assert (Hnextq : ∀ s, activeSessions w !! code = Some s →
             currentQuestionIndex s < questionCount s - 1 →
             is_Some (currentQuestion (advanced now s))).
  { intros s Hs Hmore. specialize (Hrange s Hs). unfold questionCount in *.
    unfold advanced, currentQuestion. simpl.
    destruct (currentQuestionIndex s + 1 =? 0); simpl;
      (destruct (Z.ltb_spec (currentQuestionIndex s + 1) 0); [lia |];
       apply lookup_lt_is_Some; lia). }
  split.
  { intros db socket oid name photo msg w'. unfold session_join_db, getSession.
    case_decide; [intros [= _ <-]; by left |].
    destruct (activeSessions w !! code) as [s|] eqn:Hs;
      [|intros [= _ <-]; by left].
    case_decide; [intros [= _ <-]; by left |].
    destruct (bool_decide (status s = in_progress) && negb (allowLateJoin s));
      [intros [= _ <-]; by left |].
    destruct (getParticipant code oid w) as [p|] eqn:Hp.
    - destruct db as [|message].
      + destruct (bool_decide (status s = in_progress)
                  && (0 <=? currentQuestionIndex s)) eqn:Hopen; simpl; [|done].
        destruct (bool_decide (is_Some (currentQuestion s))) eqn:Hq; simpl;
          [done |].
        exfalso. apply bool_decide_eq_false in Hq. apply Hq.
        apply andb_true_iff in Hopen as [_ Hidx%Z.leb_le].
        specialize (Hrange s eq_refl). unfold questionCount in Hrange.
        unfold currentQuestion.
        destruct (Z.ltb_spec (currentQuestionIndex s) 0); [lia |].
        apply lookup_lt_is_Some. lia.
      + intros [= <- <-]. right. exists message, (connection now p true (Some socket)).
        split; [done |]. split; [done |].
        split; [by apply getParticipant_updateParticipantConnection |].
        split; [done |].
        unfold getParticipant in Hp. unfold updateParticipantConnection.
        rewrite Hs in Hp |- *. by rewrite Hp.
    - unfold addParticipant. rewrite Hs.
      destruct db as [|message]; [done |].
      intros [= <- <-]. right.
      exists message,
        (newParticipant now {| pd_oderId := oid; pd_userName := name;
                               pd_userPhoto := photo; pd_socketId := socket |}).
      split; [done |]. split; [done |].
      split; [|done].
      unfold getParticipant. rewrite lookup_put_session. simpl.
      apply jsmap_get_set_eq. }
  split.
  { intros db socket msg w'. unfold question_next_db, getSession.
    destruct (activeSessions w !! code) as [s|] eqn:Hs;
      [|intros [= _ <-]; by left].
    case_decide; [intros [= _ <-]; by left |].
    destruct (Z.leb_spec (questionCount s - 1) (currentQuestionIndex s))
      as [?|Hmore]; [intros [= _ <-]; by left |].
    destruct (advanceQuestion_session now code w s Hs)
      as (s1 & Hs1 & Hidx & _ & _ & Htimer & _ & _ & Htimers & _).
    destruct (Hnextq s eq_refl Hmore) as [q Hq].
    rewrite (advanceQuestion_advanced now code w s Hs) in Hs1 |- *.
    rewrite lookup_put_session in Hs1 |- *. injection Hs1 as <-.
    simpl. rewrite Hq.
    destruct db as [|message]; [done |].
    intros [= <- <-]. right. exists message, s, (advanced now s).
    split; [done |]. split; [done |]. split; [done |].
    split; [apply lookup_put_session |]. split; [done |]. split; [done |].
    by rewrite <- (advanceQuestion_advanced now code w s Hs). }
  split.
  { intros message socket s Hs Hadmin Hmore. unfold question_next_db.
    rewrite Hs. rewrite decide_False by (by intros ?).
    destruct (Z.leb_spec (questionCount s - 1) (currentQuestionIndex s));
      [lia |].
    destruct (Hnextq s Hs Hmore) as [q Hq].
    unfold getSession.
    rewrite (advanceQuestion_advanced now code w s Hs), lookup_put_session.
    simpl. by rewrite Hq. }
  split.
  { intros socket qi sel msg w'. unfold answer_submit.
    destruct (sockets w !! socket) as [f|]; [|by intros [= _ <-]].
    case_decide; [by intros [= _ <-] |].
    destruct (getSession code w) as [s|]; [|by intros [= _ <-]].
    case_decide; [by intros [= _ <-] |].
    destruct (recordAnswer now code (sock_oderId f) sel w) as [[r|msg'] w1] eqn:Hrec;
      [done |].
    intros [= _ <-]. by eapply recordAnswer_Error. }
  split.
  { intros socket msg w'. unfold question_skip.
    destruct (getSession code w) as [s|]; [|by intros [= _ <-]].
    case_decide; [by intros [= _ <-] | done]. }
  split.
  { intros socket msg w'. unfold session_end.
    destruct (getSession code w) as [s|]; [|by intros [= _ <-]].
    case_decide; [by intros [= _ <-] | done]. }
  intros db socket s Hs Hadmin.
  unfold question_next_db, question_skip, session_end. rewrite Hs.
  by rewrite !decide_True.
Qed.

Lemma error_reply_unchanged_unless_rejected_witness :
  question_next_db Resolved 2003000 "sock-bob" "ABC123" w_question2
  = (Error "Only the session admin can control the quiz", w_question2)
  ∧ (answer_submit 2003000 "sock-alice" "ABC123" 0 (SelString "a") w_question2).2
    = w_question2
  ∧ (question_next_db (Rejected "buffering timed out") 1000000 "sock-admin"
       "ABC123" w_lobby).1
    = Error "buffering timed out"
  ∧ (currentQuestionIndex
       <$> getSession "ABC123"
             (question_next_db (Rejected "buffering timed out") 1000000
                "sock-admin" "ABC123" w_lobby).2)
    = Some 0.
Proof.
  destruct (error_reply_unchanged_unless_rejected 2003000 "ABC123" w_question2)
    as (_ & _ & _ & Hanswer & _ & _ & Hhost).
  { intros s Hs. vm_compute in Hs. injection Hs as <-.
    vm_compute. split; discriminate. }
  destruct (error_reply_unchanged_unless_rejected 1000000 "ABC123" w_lobby)
    as (_ & _ & Hrejected & _).
  { intros s Hs. vm_compute in Hs. injection Hs as <-.
    vm_compute. split; discriminate. }
  split; [|split].
  - edestruct (Hhost Resolved "sock-bob") as (Hnext & _ & _);
      [vm_compute; reflexivity | vm_compute; discriminate | exact Hnext].
  - destruct (answer_submit 2003000 "sock-alice" "ABC123" 0 (SelString "a")
                w_question2) as [[[]|msg] w'] eqn:H.
    + vm_compute in H. discriminate H.
    + simpl. by eapply Hanswer.
  - rewrite (Hrejected "buffering timed out" "sock-admin"
               (default (createSession 0 "" demoData emptyWorld).1
                  (getSession "ABC123" w_lobby)));
      [split; vm_compute; reflexivity | vm_compute; reflexivity
       | vm_compute; reflexivity | vm_compute; reflexivity].
Defined.

(* ===================================================================== *)
(** ** First join, leave *)
(* ===================================================================== *)

(** X10.  The first join under an id registers exactly one new participant,
    behind the ones registered before: it carries the id, the name and the
    socket of the join, score, correctAnswers and totalAnswered 0, no answer,
    and is connected; the entries before it, the rest of the session, the
    other sessions and the timers stay.  When the awaited save resolves, the
    socket is bound to the id and the reply counts one participant more;
    when it is rejected, the reply is the error, the socket is not bound and
    the participant stays registered.  While the session is in progress
    without late joins the join is refused and changes nothing. *)
Theorem session_join_new db now socket code oid name photo w s :
  getSession code w = Some s →
  jsmap_get oid (participants s) = None →
  code ≠ "" → oid ≠ "" → name ≠ "" →
  status s ≠ completed → status s ≠ interrupted →
  ((status s = in_progress → allowLateJoin s = true) →
   ∃ s' p,
     participants s' = (participants s ++ [(oid, p)])%list
     ∧ s' = set_participants s (participants s')
     ∧ oderId p = oid
     ∧ userName p = name
     ∧ socketId p = socket
     ∧ score p = 0
     ∧ correctAnswers p = 0
     ∧ totalAnswered p = 0
     ∧ currentAnswer p = SelNull
     ∧ hasAnsweredCurrent p = false
     ∧ isConnected p = true
     ∧ joinedAt p = now
     ∧ session_join_db db now socket code oid name photo w
       = match db with
         | Resolved =>
             (Success {| jo_reconnected := false;
                         jo_participantCount := S (jsmap_size (participants s));
                         jo_status := status s;
                         jo_totalQuestions := length (questions s);
                         jo_yourScore := None;
                         jo_hasAnswered := None |},
              bind_socket socket code oid (put_session code s' w))
         | Rejected message =>
             (Error (message_or message "Failed to join session"),
              put_session code s' w)
         end)
  ∧ (status s = in_progress → allowLateJoin s = false →
     session_join_db db now socket code oid name photo w
     = (Error "This quiz has already started. Late joining is not allowed.", w)).
Proof.
  intros Hs Hnew Hcode Hoid Hname Hnc Hni. unfold session_join_db. rewrite Hs.
  rewrite decide_False by tauto. rewrite decide_False by tauto.
  split.
  - intros Hlate.
    assert (Hgate : bool_decide (status s = in_progress)
                    && negb (allowLateJoin s) = false).
    { case_bool_decide; simpl; [|done]. by rewrite Hlate. }
    rewrite Hgate. unfold getParticipant, addParticipant.
    unfold getSession in Hs. rewrite Hs, Hnew.
    set (p := newParticipant now
                {| pd_oderId := oid; pd_userName := name;
                   pd_userPhoto := photo; pd_socketId := socket |}).
    exists (set_participants s (jsmap_set oid p (participants s))), p.
    split; [by apply jsmap_set_absent |].
    do 11 (split; [done |]).
    destruct db as [|message]; [|done].
    cbn [pd_oderId]. do 2 f_equal.
    unfold getParticipantCount. simpl. rewrite lookup_insert_eq. simpl.
    unfold jsmap_size. rewrite jsmap_set_absent by done.
    rewrite length_app. simpl. f_equal. lia.
  - intros Hprog Hlate. rewrite Hlate. by rewrite bool_decide_eq_true_2.
Qed.

Lemma session_join_new_witness :
  (session_join_db Resolved 20 "sock-bob" "ABC123" "u2" "bob" None w_alice).2
  = w_lobby
  ∧ (∃ bob,
       getParticipant "ABC123" "u2"
         (session_join_db (Rejected "validation failed") 20 "sock-bob" "ABC123"
            "u2" "bob" None w_alice).2 = Some bob
       ∧ score bob = 0 ∧ totalAnswered bob = 0)
  ∧ (session_join_db (Rejected "validation failed") 20 "sock-bob" "ABC123"
       "u2" "bob" None w_alice).1
    = Error "validation failed"
  ∧ (session_join_db Resolved 1001000 "sock-carol" "ABC123" "u3" "carol" None
       w_question1).2
    = w_question1.
Proof.
  assert (Hs : getSession "ABC123" w_alice
               = Some (default (createSession 0 "" demoData emptyWorld).1
                         (getSession "ABC123" w_alice)))
    by (vm_compute; reflexivity).
  assert (Hq : getSession "ABC123" w_question1
               = Some (default (createSession 0 "" demoData emptyWorld).1
                         (getSession "ABC123" w_question1)))
    by (vm_compute; reflexivity).
  split; [|split; [|split]].
  - destruct (session_join_new Resolved 20 "sock-bob" "ABC123" "u2" "bob" None
                w_alice _ Hs) as [Hjoin _];
      [vm_compute; reflexivity | discriminate | discriminate | discriminate
       | vm_compute; discriminate
       | vm_compute; discriminate |].
    destruct Hjoin as (s' & p & _ & _ & _ & _ & _ & _ & _ & _ & _ & _ & _ & _ & Hj);
      [vm_compute; discriminate |].
    rewrite session_join_db_Resolved. reflexivity.
  - destruct (session_join_new (Rejected "validation failed") 20 "sock-bob"
                "ABC123" "u2" "bob" None w_alice _ Hs) as [Hjoin _];
      [vm_compute; reflexivity | discriminate | discriminate | discriminate
       | vm_compute; discriminate
       | vm_compute; discriminate |].
    destruct Hjoin
      as (s' & p & Hparts & _ & _ & _ & _ & Hscore & _ & Htotal & _ & _ & _ & _
          & Hj); [vm_compute; discriminate |].
    exists p. rewrite Hj. split; [|split; assumption].
    unfold getParticipant. simpl. rewrite lookup_insert_eq. rewrite Hparts.
    vm_compute. reflexivity.
  - destruct (session_join_new (Rejected "validation failed") 20 "sock-bob"
                "ABC123" "u2" "bob" None w_alice _ Hs) as [Hjoin _];
      [vm_compute; reflexivity | discriminate | discriminate | discriminate
       | vm_compute; discriminate
       | vm_compute; discriminate |].
    destruct Hjoin as (s' & p & _ & _ & _ & _ & _ & _ & _ & _ & _ & _ & _ & _ & Hj);
      [vm_compute; discriminate |].
    rewrite Hj. reflexivity.
  - destruct (session_join_new Resolved 1001000 "sock-carol" "ABC123" "u3"
                "carol" None w_question1 _ Hq) as [_ Hrefused];
      [vm_compute; reflexivity | discriminate | discriminate | discriminate
       | vm_compute; discriminate
       | vm_compute; discriminate |].
    rewrite Hrefused; [reflexivity | vm_compute; reflexivity | vm_compute; reflexivity].
Defined.

(** X11.  session:leave from a socket bound to a registered participant
    marks the participant disconnected at the current time and changes
    nothing else: the participant stays registered with the same score,
    counters, answer and socket id, and the timers stay.  From a socket that
    never joined it does nothing. *)
Theorem session_leave_effect now socket code w :
  (sockets w !! socket = None → session_leave now socket code w = w)
  ∧ ∀ fields s p,
      sockets w !! socket = Some fields →
      sock_oderId fields ≠ "" → code ≠ "" →
      getSession code w = Some s →
      jsmap_get (sock_oderId fields) (participants s) = Some p →
      timers (session_leave now socket code w) = timers w
      ∧ sockets (session_leave now socket code w) = sockets w
      ∧ ∃ s' p',
          getSession code (session_leave now socket code w) = Some s'
          ∧ jsmap_keys (participants s') = jsmap_keys (participants s)
          ∧ jsmap_get (sock_oderId fields) (participants s') = Some p'
          ∧ isConnected p' = false
          ∧ lastDisconnectedAt p' = Some now
          ∧ score p' = score p
          ∧ correctAnswers p' = correctAnswers p
          ∧ totalAnswered p' = totalAnswered p
          ∧ hasAnsweredCurrent p' = hasAnsweredCurrent p
          ∧ currentAnswer p' = currentAnswer p
          ∧ socketId p' = socketId p
          ∧ (∀ oid', oid' ≠ sock_oderId fields →
               jsmap_get oid' (participants s') = jsmap_get oid' (participants s)).
Proof.
  split.
  - intros Hnone. unfold session_leave. by rewrite Hnone.
  - intros fields s p Hsock Hoid Hcode Hs Hp. unfold session_leave.
    rewrite Hsock. rewrite decide_False by tauto.
    unfold getSession in *.
    rewrite (updateParticipantConnection_session _ _ _ _ _ _ s p Hs Hp).
    split; [done |]. split; [done |].
    eexists _, _. split; [apply lookup_put_session |]. simpl.
    split; [apply jsmap_keys_set_present; by rewrite Hp |].
    split; [apply jsmap_get_set_eq |]. simpl.
    do 8 (split; [done |]).
    intros oid' Hne. by apply jsmap_get_set_ne.
Qed.

Lemma session_leave_effect_witness :
  ∃ p', getParticipant "ABC123" "u1" w_left = Some p'
        ∧ isConnected p' = false ∧ score p' = 147.
Proof.
  destruct (session_leave_effect 2005000 "sock-alice" "ABC123" w_question2)
    as [_ Hleave].
  edestruct Hleave as (_ & _ & s' & p' & Hs' & _ & Hp' & Hconn & _ & Hscore & _).
  - vm_compute. reflexivity.
  - done.
  - done.
  - vm_compute. reflexivity.
  - vm_compute. reflexivity.
  - exists p'. unfold getParticipant, w_left. unfold getSession in Hs'.
    rewrite Hs'. split; [exact Hp' |]. split; [exact Hconn | exact Hscore].
Defined.

(* ===================================================================== *)
(** ** Ending, skipping and removing *)
(* ===================================================================== *)







(** X14.  After [removeSession] the code is free again and its timers are
    cancelled: the session is not found, it has no participants and no
    leaderboard, the other sessions stay, and a join, answer, advance, skip
    or end sent to the code is answered with a not-found error and changes
    nothing. *)
Theorem removeSession_gone code w :
  sessionExists code (removeSession code w) = false
  ∧ getParticipants code (removeSession code w) = []
  ∧ getParticipantCount code (removeSession code w) = O
  ∧ (∀ localeCompare limit,
       getLeaderboard localeCompare code limit (removeSession code w) = [])
  ∧ (∀ code', code' ≠ code →
       getSession code' (removeSession code w) = getSession code' w)
  ∧ (∀ s t, getSession code w = Some s →
            questionTimer s = Some t ∨ adminDisconnectTimer s = Some t →
            timers (removeSession code w) !! t = None)
  ∧ (∀ now socket oid name photo,
       code ≠ "" → oid ≠ "" → name ≠ "" →
       session_join now socket code oid name photo (removeSession code w)
       = (Error "Session not found. Check the code and try again.",
          removeSession code w))
  ∧ (∀ now socket,
       question_next now socket code (removeSession code w)
       = (Error "Session not found", removeSession code w))
  ∧ (∀ now oid sel,
       recordAnswer now code oid sel (removeSession code w)
       = (Error "Session not found", removeSession code w))
  ∧ (∀ socket,
       question_skip socket code (removeSession code w)
       = (Error "Session not found", removeSession code w)
       ∧ session_end socket code (removeSession code w)
         = (Error "Session not found", removeSession code w)).
Proof.
  assert (Hgone : activeSessions (removeSession code w) !! code = None).
  { unfold removeSession. simpl. apply lookup_delete_eq. }
  split; [unfold sessionExists; rewrite Hgone; apply bool_decide_eq_false;
          by intros [? ?] |].
  split; [unfold getParticipants; by rewrite Hgone |].
  split; [unfold getParticipantCount; by rewrite Hgone |].
  split; [intros lc limit; unfold getLeaderboard; by rewrite Hgone |].
  split.
  { intros code' Hne. unfold getSession, removeSession. simpl.
    rewrite lookup_delete_ne by done.
    destruct (activeSessions w !! code); [|done].
    by rewrite !activeSessions_clearTimeout_opt. }
  split.
  { intros s t Hs Ht. unfold removeSession. unfold getSession in Hs.
    rewrite Hs. simpl.
    destruct (timers (clearTimeout_opt (adminDisconnectTimer s)
                        (clearTimeout_opt (questionTimer s) w)) !! t)
      as [a|] eqn:Hpending; [|done].
    destruct Ht as [Ht|Ht].
    - apply timers_clearTimeout_opt in Hpending. rewrite Ht in Hpending.
      by rewrite timers_clearTimeout_opt_eq in Hpending.
    - rewrite Ht in Hpending. by rewrite timers_clearTimeout_opt_eq in Hpending. }
  split.
  { intros now socket oid name photo Hcode Hoid Hname. unfold session_join.
    rewrite decide_False by tauto. unfold getSession. by rewrite Hgone. }
  split; [intros now socket; unfold question_next, getSession; by rewrite Hgone |].
  split; [intros now oid sel; unfold recordAnswer; by rewrite Hgone |].
  intros socket. unfold question_skip, session_end, getSession.
  by rewrite Hgone.
Qed.

Lemma removeSession_gone_witness :
  sessionExists "ABC123" (removeSession "ABC123" w_question1) = false
  ∧ timers (removeSession "ABC123" w_question1) = ∅
  ∧ (question_next 0 "sock-admin" "ABC123"
       (removeSession "ABC123" w_question1)).1
    = Error "Session not found".
Proof.
  destruct (removeSession_gone "ABC123" w_question1)
    as (Hgone & _ & _ & _ & _ & _ & _ & Hnext & _).
  split; [exact Hgone |]. split; [by vm_compute |].
  by rewrite Hnext.
Defined.

(* ===================================================================== *)
(** ** Answer statistics *)
(* ===================================================================== *)

Lemma assignZero_fold (o : string) (opts : list QOption) :
  ∀ obj,
    foldl (λ obj x, assignZero (option_id x) obj) obj opts !! o
    = if bool_decide (o ∈ option_id <$> opts) && negb (bool_decide (o = "__proto__"))
      then Some (Num 0)
      else obj !! o.
Proof.
  induction opts as [|x opts IH]; intros obj.
  - by case_bool_decide as Hin; [apply elem_of_nil in Hin|].
  - cbn [foldl fmap list_fmap]. rewrite IH. unfold assignZero.
    destruct (decide (o = "__proto__")) as [Hproto|Hproto].
    + rewrite (bool_decide_eq_true_2 _ Hproto), !andb_false_r.
      destruct (decide _); [done|]. rewrite lookup_insert_ne; [done | congruence].
    + rewrite (bool_decide_eq_false_2 _ Hproto), !andb_true_r.
      destruct (decide (o ∈ option_id <$> opts)) as [Hin|Hin].
      * rewrite (bool_decide_eq_true_2 _ Hin).
        rewrite bool_decide_eq_true_2; [done | by apply elem_of_cons; right].
      * rewrite (bool_decide_eq_false_2 _ Hin).
        destruct (decide (o = option_id x)) as [->|Hne].
        -- rewrite bool_decide_eq_true_2 by (apply elem_of_cons; by left).
           rewrite decide_False by done. apply lookup_insert_eq.
        -- rewrite bool_decide_eq_false_2
             by (intros [?|?]%elem_of_cons; done).
           destruct (decide _); [done|]. by rewrite lookup_insert_ne.
Qed.

Lemma incrementIfDefined_count k o obj z :
  obj !! o = Some (Num z) →
  incrementIfDefined k obj !! o
  = Some (Num (if decide (k = o) then z + 1 else z)).
Proof.
  intros Ho. unfold incrementIfDefined.
  destruct (decide (k = o)) as [->|Hne].
  - rewrite Ho. apply lookup_insert_eq.
  - destruct (obj !! k) as [[z'|]|]; [by rewrite lookup_insert_ne | done |].
    destruct (decide _); [done|].
    destruct (decide _); [by rewrite lookup_insert_ne | done].
Qed.

Lemma incrementIfDefined_absent k o obj :
  o ∉ objectPrototypeKeys →
  obj !! o = None →
  incrementIfDefined k obj !! o = None.
Proof.
  intros Hproto Ho. unfold incrementIfDefined.
  destruct (decide (k = o)) as [->|Hne].
  - rewrite Ho. destruct (decide _); [done|]. by rewrite decide_False.
  - destruct (obj !! k) as [[z'|]|]; [by rewrite lookup_insert_ne | done |].
    destruct (decide _); [done|].
    destruct (decide _); [by rewrite lookup_insert_ne | done].
Qed.

Lemma tally_fold (l : list Participant) :
  ∀ stats,
    st_totalParticipants (foldl tally stats l) = st_totalParticipants stats
    ∧ st_answered (foldl tally stats l)
      = (st_answered stats
         + length (filter (λ p, hasAnsweredCurrent p = true) l))%nat
    ∧ (∀ o z,
         st_optionCounts stats !! o = Some (Num z) →
         st_optionCounts (foldl tally stats l) !! o
         = Some (Num (z + Z.of_nat (length
              (filter (λ p, hasAnsweredCurrent p = true
                            ∧ answerKey (currentAnswer p) = Some o) l)))))
    ∧ (∀ k,
         k ∉ objectPrototypeKeys →
         st_optionCounts stats !! k = None →
         st_optionCounts (foldl tally stats l) !! k = None).
Proof.
  induction l as [|p l IH]; intros stats; simpl.
  - split; [done|]. split; [lia|].
    split; [|done]. intros o z Ho. rewrite Ho. do 2 f_equal. simpl. lia.
  - destruct (IH (tally stats p)) as (Htotal & Hanswered & Hcount & Habsent).
    unfold tally in *. destruct (hasAnsweredCurrent p) eqn:Hflag.
    + simpl in *. split; [done|].
      split; [rewrite Hanswered, filter_cons_True by done; simpl; lia|].
      split.
      * intros o z Ho.
        destruct (answerKey (currentAnswer p)) as [k|] eqn:Hkey.
        -- rewrite (Hcount o _ (incrementIfDefined_count k o _ z Ho)).
           destruct (decide (k = o)) as [->|Hne].
           ++ rewrite filter_cons_True by done. simpl. do 2 f_equal. lia.
           ++ rewrite filter_cons_False; [done|]. simpl. intros [_ ?]. congruence.
        -- rewrite (Hcount o z Ho).
           rewrite filter_cons_False; [done|]. simpl. intros [_ ?]. congruence.
      * intros k Hk Hnone. apply Habsent; [done|].
        destruct (answerKey (currentAnswer p)); [|done].
        by apply incrementIfDefined_absent.
    + split; [done|].
      split; [rewrite Hanswered, filter_cons_False by (simpl; congruence); done|].
      split; [|done].
      intros o z Ho. rewrite (Hcount o z Ho).
      rewrite filter_cons_False; [done|]. simpl. intros [? _]. congruence.
Qed.

Local Ltac option_listed :=
  cbn [options fmap list_fmap option_id q1 q2 opt]; by repeat constructor.

Lemma getAnswerStats_session code w s q :
  activeSessions w !! code = Some s →
  currentQuestion s = Some q →
  ∃ stats,
    getAnswerStats code w = Some stats
    ∧ st_totalParticipants stats = jsmap_size (participants s)
    ∧ st_answered stats
      = length (filter (λ p, hasAnsweredCurrent p = true)
                  (jsmap_values (participants s)))
    ∧ (∀ o,
         o ∈ option_id <$> options q → o ≠ "__proto__" →
         st_optionCounts stats !! o
         = Some (Num (Z.of_nat (length
             (filter (λ p, hasAnsweredCurrent p = true
                           ∧ answerKey (currentAnswer p) = Some o)
                (jsmap_values (participants s)))))))
    ∧ (∀ k,
         k ∉ option_id <$> options q → k ∉ objectPrototypeKeys →
         st_optionCounts stats !! k = None).
Proof.
  intros Hs Hq. unfold getAnswerStats. rewrite Hs, Hq.
  eexists. split; [done|].
  match goal with
  | |- context [foldl tally ?st ?l] =>
      destruct (tally_fold l st) as (Htotal & Hanswered & Hcount & Habsent)
  end.
  simpl in *.
  split; [done|]. split; [done|].
  split.
  - intros o Ho Hproto. rewrite (Hcount o 0); [done|].
    rewrite assignZero_fold.
    by rewrite (bool_decide_eq_true_2 _ Ho), (bool_decide_eq_false_2 _ Hproto).
  - intros k Hk Hproto. apply Habsent; [done|].
    rewrite assignZero_fold. by rewrite (bool_decide_eq_false_2 _ Hk).
Qed.

Lemma jsmap_set_split {V} k (v v' : V) m :
  jsmap_get k m = Some v →
  ∃ m1 m2, m = (m1 ++ (k, v) :: m2)%list
           ∧ jsmap_set k v' m = (m1 ++ (k, v') :: m2)%list.
Proof.
  induction m as [|[k0 v0] m IH]; simpl; [done|].
  destruct (decide (k = k0)) as [->|Hne].
  - intros [= ->]. by exists [], m.
  - intros Hget. destruct (IH Hget) as (m1 & m2 & -> & ->).
    by exists ((k0, v0) :: m1), m2.
Qed.

Lemma jsmap_set_count {V} (P : V → Prop) `{!∀ x, Decision (P x)} k v v' m :
  jsmap_get k m = Some v →
  ¬ P v →
  length (filter P (jsmap_values (jsmap_set k v' m)))
  = ((if decide (P v') then 1 else 0)
     + length (filter P (jsmap_values m)))%nat.
Proof.
  intros Hget Hv.
  destruct (jsmap_set_split k v v' m Hget) as (m1 & m2 & -> & ->).
  unfold jsmap_values. rewrite !fmap_app, !filter_app, !length_app. simpl.
  rewrite (filter_cons_False _ v) by done.
  destruct (decide (P v')); [rewrite filter_cons_True by done; simpl; lia|].
  by rewrite filter_cons_False.
Qed.

(** X15.  [getAnswerStats] answers when the session has a current
    question.  Then totalParticipants is the size of the registry, answered
    is the number of participants flagged as having answered the current
    question (so it never exceeds totalParticipants), the count of every
    option of the question (other than one named __proto__) is the number of
    flagged participants whose stored answer names that option, and a name
    that is neither an option nor a property of Object.prototype has no
    count. *)
Theorem getAnswerStats_counts code w s q :
  getSession code w = Some s →
  currentQuestion s = Some q →
  ∃ stats,
    getAnswerStats code w = Some stats
    ∧ st_totalParticipants stats = getParticipantCount code w
    ∧ st_answered stats
      = length (filter (λ p, hasAnsweredCurrent p = true)
                  (getParticipants code w))
    ∧ (st_answered stats ≤ st_totalParticipants stats)%nat
    ∧ (∀ o,
         o ∈ option_id <$> options q → o ≠ "__proto__" →
         st_optionCounts stats !! o
         = Some (Num (Z.of_nat (length
             (filter (λ p, hasAnsweredCurrent p = true
                           ∧ answerKey (currentAnswer p) = Some o)
                (getParticipants code w))))))
    ∧ (∀ k,
         k ∉ option_id <$> options q → k ∉ objectPrototypeKeys →
         st_optionCounts stats !! k = None).
Proof.
  intros Hs Hq. unfold getSession in Hs.
  destruct (getAnswerStats_session code w s q Hs Hq)
    as (stats & Hget & Htotal & Hanswered & Hcount & Habsent).
  unfold getParticipantCount, getParticipants. rewrite Hs.
  exists stats. split; [done|]. split; [done|]. split; [done|].
  split; [|done].
  rewrite Htotal, Hanswered.
  etrans; [apply length_filter|].
  unfold jsmap_values, jsmap_size. by rewrite length_fmap.
Qed.

Lemma getAnswerStats_counts_witness :
  (λ stats, (st_totalParticipants stats, st_answered stats,
             st_optionCounts stats !! "a", st_optionCounts stats !! "b"))
    <$> getAnswerStats "ABC123" w_answered1
  = Some (2%nat, 1%nat, Some (Num 0), Some (Num 1)).
Proof.
  edestruct (getAnswerStats_counts "ABC123" w_answered1)
    as (stats & Hget & Htotal & Hanswered & _ & Hcount & _).
  - vm_compute. reflexivity.
  - by vm_compute.
  - rewrite Hget. simpl.
    rewrite Htotal, Hanswered, (Hcount "a"), (Hcount "b");
      [vm_compute; reflexivity | option_listed | done | option_listed | done].
Defined.

Lemma filter_cleared (m : list (string * Participant))
  (P : Participant → Prop) `{!∀ x, Decision (P x)} :
  (∀ x, P x → hasAnsweredCurrent x = true) →
  filter P (jsmap_values (jsmap_forEach clearAnswer m)) = [].
Proof.
  intros Himp. unfold jsmap_values, jsmap_forEach.
  induction m as [|[k v] m IH]; [done|]. simpl.
  rewrite filter_cons_False; [exact IH|].
  intros HPv. by apply Himp in HPv.
Qed.

(** X16.  A successful question:next opens the question with empty
    statistics: nobody has answered, every option of the new question counts
    zero, and totalParticipants is the number of registered participants. *)
Theorem getAnswerStats_after_next now socket code w i w' :
  question_next now socket code w = (Success i, w') →
  ∃ s' q stats,
    getSession code w' = Some s'
    ∧ currentQuestion s' = Some q
    ∧ getAnswerStats code w' = Some stats
    ∧ st_totalParticipants stats = getParticipantCount code w
    ∧ st_answered stats = O
    ∧ (∀ o, o ∈ option_id <$> options q → o ≠ "__proto__" →
            st_optionCounts stats !! o = Some (Num 0)).
Proof.
  unfold question_next, getSession. intros Hnext.
  destruct (activeSessions w !! code) as [s|] eqn:Hs; [|done].
  destruct (decide _); [done|].
  destruct (_ <=? _); [done|].
  destruct (advanceQuestion_session now code w s Hs)
    as (s1 & Hs1 & _ & _ & Hparts & _ & _ & _ & _ & _).
  rewrite Hs1 in Hnext. simpl in Hnext.
  destruct (currentQuestion s1) as [q|] eqn:Hq; [|done].
  injection Hnext as _ <-.
  pose proof (setQuestionTimer_session code (QuestionEnd code) _ s1 Hs1) as Hs2.
  destruct (getAnswerStats_session code _ _ q Hs2 Hq)
    as (stats & Hget & Htotal & Hanswered & Hcount & _).
  pose proof (filter_cleared (participants s)) as Hnone.
  simpl in *. rewrite Hparts in *.
  eexists _, q, stats. split; [done|]. split; [done|]. split; [done|].
  split.
  { rewrite Htotal. unfold getParticipantCount. rewrite Hs.
    unfold jsmap_size, jsmap_forEach. by rewrite length_fmap. }
  split.
  { rewrite Hanswered, Hnone; [done | by intros x]. }
  intros o Ho Hproto. rewrite (Hcount o Ho Hproto), Hnone; [done|].
  by intros x [? _].
Qed.

Lemma getAnswerStats_after_next_witness :
  (λ stats, (st_totalParticipants stats, st_answered stats,
             st_optionCounts stats !! "b"))
    <$> getAnswerStats "ABC123" w_question2
  = Some (2%nat, O, Some (Num 0)).
Proof.
  assert (Hnext : question_next 2000000 "sock-admin" "ABC123" w_answered1
                  = (Success 1, w_question2)) by (vm_compute; reflexivity).
  destruct (getAnswerStats_after_next _ _ _ _ _ _ Hnext)
    as (s' & q & stats & Hs' & Hq & Hget & Htotal & Hanswered & Hcount).
  assert (Hq2 : (getSession "ABC123" w_question2 ≫= currentQuestion) = Some q2)
    by (vm_compute; reflexivity).
  rewrite Hs' in Hq2. simpl in Hq2. rewrite Hq in Hq2. injection Hq2 as ->.
  rewrite Hget. simpl.
  rewrite Htotal, Hanswered, (Hcount "b");
    [vm_compute; reflexivity | option_listed | done].
Defined.

(** X17.  An accepted answer is counted once: answered grows by one,
    totalParticipants stays, and among the options of the current question
    exactly the one the stored answer names (if any) gains one vote. *)
Theorem getAnswerStats_counts_answer now code oid sel w r w' :
  recordAnswer now code oid sel w = (Success r, w') →
  ∃ q stats stats',
    (getSession code w ≫= currentQuestion) = Some q
    ∧ getAnswerStats code w = Some stats
    ∧ getAnswerStats code w' = Some stats'
    ∧ st_totalParticipants stats' = st_totalParticipants stats
    ∧ st_answered stats' = S (st_answered stats)
    ∧ (∀ o, o ∈ option_id <$> options q → o ≠ "__proto__" →
            ∃ z, st_optionCounts stats !! o = Some (Num z)
                 ∧ st_optionCounts stats' !! o
                   = Some (Num (if decide (answerKey sel = Some o)
                                then z + 1 else z))).
Proof.
  intros Hrec.
  destruct (recordAnswer_Success _ _ _ _ _ _ _ Hrec)
    as (s & p & q & Hs & Hp & Hflag & _ & _ & Hq & _ & _ & _ & _ & ->).
  set (p' := answered p sel (isCorrect r) (pointsAwarded r)).
  set (s' := set_participants s (jsmap_set oid p' (participants s))).
  assert (Hs' : activeSessions (put_session code s' w) !! code = Some s')
    by apply lookup_put_session.
  assert (Hq' : currentQuestion s' = Some q) by done.
  destruct (getAnswerStats_session code w s q Hs Hq)
    as (stats & Hget & Htotal & Hanswered & Hcount & _).
  destruct (getAnswerStats_session code _ s' q Hs' Hq')
    as (stats' & Hget' & Htotal' & Hanswered' & Hcount' & _).
  exists q, stats, stats'.
  split; [unfold getSession; by rewrite Hs|].
  split; [done|]. split; [done|].
  split.
  { rewrite Htotal, Htotal'. simpl. unfold jsmap_size.
    destruct (jsmap_set_split oid p p' _ Hp) as (m1 & m2 & -> & ->).
    rewrite !length_app. done. }
  split.
  { rewrite Hanswered, Hanswered'. simpl.
    rewrite (jsmap_set_count _ oid p p') by (done || congruence).
    by rewrite decide_True. }
  intros o Ho Hproto. eexists. split; [by apply Hcount|].
  rewrite (Hcount' o Ho Hproto). simpl.
  rewrite (jsmap_set_count _ oid p p'); [|done|intros [? _]; congruence].
  do 2 f_equal.
  destruct (decide (answerKey sel = Some o)) as [Hkey|Hkey].
  - rewrite decide_True by done. lia.
  - rewrite decide_False; [lia|]. by intros [_ ?].
Qed.

Lemma getAnswerStats_counts_answer_witness :
  st_answered <$> getAnswerStats "ABC123" w_tied = Some 2%nat
  ∧ (getAnswerStats "ABC123" w_tied ≫= λ stats, st_optionCounts stats !! "b")
    = Some (Num 2).
Proof.
  assert (Hrec : recordAnswer 1002000 "ABC123" "u2" (SelString "b") w_answered1
                 = (Success {| isCorrect := true; pointsAwarded := 147;
                               speedBonus := 47; responseTimeMs := 2000;
                               newScore := 147 |}, w_tied))
    by (vm_compute; reflexivity).
  destruct (getAnswerStats_counts_answer _ _ _ _ _ _ _ Hrec)
    as (q & stats & stats' & Hq & Hget & Hget' & _ & Hanswered & Hcount).
  assert (Hq1 : (getSession "ABC123" w_answered1 ≫= currentQuestion) = Some q1)
    by (vm_compute; reflexivity).
  rewrite Hq in Hq1. injection Hq1 as ->.
  destruct (Hcount "b") as (z & Hz & Hz'); [option_listed | done |].
  assert (Hbefore :
            (λ st, (st_answered st, st_optionCounts st !! "b"))
              <$> getAnswerStats "ABC123" w_answered1
            = Some (1%nat, Some (Num 1)))
    by (vm_compute; reflexivity).
  rewrite Hget in Hbefore. simpl in Hbefore. rewrite Hz in Hbefore.
  injection Hbefore as Hone ->.
  rewrite Hget'. simpl. rewrite Hanswered, Hz', Hone.
  split; [reflexivity | vm_compute; reflexivity].
Defined.

(* ===================================================================== *)
(** ** When an answer is accepted; creating a session *)
(* ===================================================================== *)

(** X18.  answer:submit is acknowledged exactly when the socket is bound to
    a participant id, the session exists and is at the question index sent,
    the participant is registered and has not answered that question, the
    response time is within the limit plus 1000 ms, and the index points at
    a question.  Neither the status of the session nor the pending timers
    are consulted: an in-time answer is accepted also after the question was
    skipped or the session ended.  Every refusal leaves the state as it
    was. *)
Theorem answer_submit_accepted_iff now socket code qi sel w :
  ((answer_submit now socket code qi sel w).1 = Success ()
   ↔ ∃ fields s p q,
       sockets w !! socket = Some fields
       ∧ sock_oderId fields ≠ ""
       ∧ getSession code w = Some s
       ∧ currentQuestionIndex s = qi
       ∧ jsmap_get (sock_oderId fields) (participants s) = Some p
       ∧ hasAnsweredCurrent p = false
       ∧ now - default 0 (questionStartTime s) <= timePerQuestion s * 1000 + 1000
       ∧ currentQuestion s = Some q)
  ∧ ((answer_submit now socket code qi sel w).1 ≠ Success () →
     (answer_submit now socket code qi sel w).2 = w).
Proof.
  unfold answer_submit, getSession, recordAnswer.
  destruct (sockets w !! socket) as [fields|] eqn:Hsock.
  2: { split; [|done]. split; [done|]. by intros (? & ? & ? & ? & ? & _). }
  destruct (decide (sock_oderId fields = "")) as [Hoid|Hoid].
  { split; [|done]. split; [done|].
    intros (? & ? & ? & ? & [= <-] & ? & _). done. }
  destruct (activeSessions w !! code) as [s|] eqn:Hs.
  2: { split; [|done]. split; [done|].
       by intros (? & ? & ? & ? & _ & _ & ? & _). }
  destruct (decide (currentQuestionIndex s ≠ qi)) as [Hqi|Hqi].
  { split; [|done]. split; [done|].
    intros (? & ? & ? & ? & _ & _ & [= <-] & ? & _). done. }
  destruct (jsmap_get (sock_oderId fields) (participants s)) as [p|] eqn:Hp.
  2: { split; [|done]. split; [done|].
       intros (? & ? & ? & ? & [= <-] & _ & [= <-] & _ & Hp' & _).
       by rewrite Hp in Hp'. }
  destruct (hasAnsweredCurrent p) eqn:Hflag.
  { split; [|done]. split; [done|].
    intros (? & ? & ? & ? & [= <-] & _ & [= <-] & _ & Hp' & Hflag' & _).
    rewrite Hp in Hp'. injection Hp' as <-. congruence. }
  destruct (Z.ltb_spec (timePerQuestion s * 1000 + 1000)
              (now - default 0 (questionStartTime s))) as [Hlate|Hintime].
  { split; [|done]. split; [done|].
    intros (? & ? & ? & ? & _ & _ & [= <-] & _ & _ & _ & ? & _). lia. }
  destruct (currentQuestion s) as [q|] eqn:Hq.
  2: { split; [|done]. split; [done|].
       intros (? & ? & ? & ? & _ & _ & [= <-] & _ & _ & _ & _ & Hq').
       by rewrite Hq in Hq'. }
  split; [|done]. split; [|done]. intros _.
  exists fields, s, p, q. repeat split; try done.
  by destruct (decide (currentQuestionIndex s = qi)).
Qed.

Lemma answer_submit_accepted_iff_witness :
  status <$> getSession "ABC123" w_ended = Some completed
  ∧ (answer_submit 2004000 "sock-alice" "ABC123" 1 (SelString "a") w_ended).1
    = Success ().
Proof.
  split; [vm_compute; reflexivity |].
  apply (answer_submit_accepted_iff 2004000 "sock-alice" "ABC123" 1
           (SelString "a") w_ended).
  do 4 eexists.
  split; [vm_compute; reflexivity |].
  split; [vm_compute; discriminate |].
  split; [vm_compute; reflexivity |].
  split; [vm_compute; reflexivity |].
  split; [vm_compute; reflexivity |].
  split; [vm_compute; reflexivity |].
  split; [vm_compute; discriminate | vm_compute; reflexivity].
Defined.

Lemma num_or_nonzero x d : d ≠ 0 → num_or x d ≠ 0.
Proof.
  intros Hd. unfold num_or. destruct x as [v|]; [|done].
  by destruct (Z.eqb_spec v 0).
Qed.

Lemma num_or_twice x d : d ≠ 0 → num_or (Some (num_or x d)) d = num_or x d.
Proof.
  intros Hd. pose proof (num_or_nonzero x d Hd) as Hnz.
  unfold num_or at 1. by destruct (Z.eqb_spec (num_or x d) 0).
Qed.

Lemma num_or_if x d :
  d ≠ 0 → (if num_or x d =? 0 then d else num_or x d) = num_or x d.
Proof. exact (num_or_twice x d). Qed.

(** X19.  session:create is refused, with nothing changed, for a socket
    that is not an admin's, for an empty quiz id and for a quiz that is not
    found.  When it succeeds, the code it reports was free before and now
    holds a lobby session of the caller's socket: index -1, no participants,
    no question timer, the questions of the quiz; the time per question is the one
    reported and, like the base points and the speed bonus, never 0; the
    timers and the socket bindings stay. *)
Theorem session_create_effect now draw socket userData quizIdArg quiz dbId w :
  ((userData ≫= λ ud, if ud_isAdmin ud then Some ud else None) = None →
   session_create now draw socket userData quizIdArg quiz dbId w
   = (Error "Only admins can create sessions", w))
  ∧ (∀ ud, userData = Some ud → ud_isAdmin ud = true →
       (quizIdArg = "" →
        session_create now draw socket userData quizIdArg quiz dbId w
        = (Error "Quiz ID is required", w))
       ∧ (quizIdArg ≠ "" → quiz = None →
          session_create now draw socket userData quizIdArg quiz dbId w
          = (Error "Quiz not found", w)))
  ∧ (∀ msg w',
       session_create now draw socket userData quizIdArg quiz dbId w
       = (Error msg, w') → w' = w)
  ∧ (∀ r w',
       session_create now draw socket userData quizIdArg quiz dbId w
       = (Success r, w') →
       ∃ ud q s,
         userData = Some ud ∧ ud_isAdmin ud = true ∧ quiz = Some q
         ∧ getSession (co_sessionCode r) w = None
         ∧ getSession (co_sessionCode r) w' = Some s
         ∧ sessionCode s = co_sessionCode r
         ∧ status s = lobby
         ∧ currentQuestionIndex s = -1
         ∧ participants s = []
         ∧ questionTimer s = None
         ∧ adminSocketId s = socket
         ∧ adminId s = ud_userName ud
         ∧ questions s = quiz_questions q
         ∧ co_questionCount r = length (questions s)
         ∧ co_timePerQuestion r = timePerQuestion s
         ∧ timePerQuestion s ≠ 0
         ∧ basePointsPerQuestion s ≠ 0
         ∧ speedBonusMax s ≠ 0
         ∧ timers w' = timers w
         ∧ sockets w' = sockets w).
Proof.
  unfold session_create.
  split.
  { destruct userData as [ud|]; simpl; [|done]. by destruct (ud_isAdmin ud). }
  split.
  { intros ud -> Hadmin. rewrite Hadmin. simpl. split.
    - intros ->. by rewrite decide_True.
    - intros Hid ->. by rewrite decide_False. }
  split.
  { intros msg w'.
    destruct userData as [ud|]; [|by intros [= _ <-]].
    destruct (ud_isAdmin ud); simpl; [|by intros [= _ <-]].
    destruct (decide _); [by intros [= _ <-]|].
    destruct quiz as [q|]; [|by intros [= _ <-]].
    destruct (generateUniqueSessionCode draw w); [done | by intros [= _ <-]]. }
  intros r w'.
  destruct userData as [ud|]; [|done].
  destruct (ud_isAdmin ud) eqn:Hadmin; cbn -[num_or generateUniqueSessionCode]; [|done].
  destruct (decide _); [done|].
  destruct quiz as [q|]; [|done].
  destruct (generateUniqueSessionCode draw w) as [code|msg] eqn:Hcode;
    cbn -[num_or generateUniqueSessionCode]; [|done].
  intros [= <- <-]. cbn -[num_or generateUniqueSessionCode].
  exists ud, q. eexists.
  split; [done|]. split; [done|]. split; [done|].
  split; [by apply (generateUniqueSessionCode_loop_fresh draw 0 100)|].
  split; [apply lookup_put_session|].
  cbn -[num_or generateUniqueSessionCode]. rewrite !num_or_if by done.
  split; [done|]. split; [done|]. split; [done|]. split; [done|].
  split; [done|]. split; [done|]. split; [done|]. split; [done|].
  split; [done|]. split; [done|].
  split; [by apply num_or_nonzero|].
  split; [by apply num_or_nonzero|].
  split; [by apply num_or_nonzero|].
  done.
Qed.

Lemma session_create_effect_witness :
  (session_create 0 (λ _, "ABC123") "sock-admin"
     (Some {| ud_userName := "host"; ud_isAdmin := true |}) "" (Some demoQuiz)
     "db1" emptyWorld).1
  = Error "Quiz ID is required".
Proof.
  destruct (session_create_effect 0 (λ _, "ABC123") "sock-admin"
              (Some {| ud_userName := "host"; ud_isAdmin := true |}) ""
              (Some demoQuiz) "db1" emptyWorld)
    as (_ & Hrefused & _).
  destruct (Hrefused _ eq_refl eq_refl) as [Hid _].
  by rewrite Hid.
Defined.

(* ===================================================================== *)
(** ** From the last question to the removal of the session *)
(* ===================================================================== *)




